(** * cloudflare-ddns: retry/backoff scheduler and record reconciler

    A shallow embedding of [internal/retry/retry.go], of the reconciler
    ([processZone], [upsertRecord], [cfAPI]) and of the start-up defaults of
    [main.go], followed by the properties of the specification that concern
    them.

    Conventions.
    - Go [int] and [time.Duration] are 64-bit signed integers; they are
      modelled as [Z], with the wrap-around of arithmetic written out where
      the source computes ([wrap64]).
    - Go strings are byte strings; they are modelled as [string].
    - A Go [error] value is modelled by the inductive [error]; the [nil]
      error is [None] in [option error].
    - Code with effects threads an abstract world [W] and returns the list
      of events it produced, in program order. *)

From Stdlib Require Import ZArith List String Ascii Bool Lia Permutation.
From Stdlib Require Import DecimalString.
Import ListNotations.

Local Open Scope string_scope.
Local Open Scope Z_scope.

(** ** Go runtime notions shared by the packages *)

Module Go.

Definition max_int64 : Z := 2 ^ 63 - 1.
Definition min_int64 : Z := - 2 ^ 63.

(** Two's complement wrap-around of a 64-bit signed integer. *)
Definition wrap64 (z : Z) : Z := (z + 2 ^ 63) mod 2 ^ 64 - 2 ^ 63.

(** [len(s)] *)
Definition len (s : string) : Z := Z.of_nat (String.length s).

(** [strconv.Itoa], the rendering of [%d]. *)
Definition itoa (z : Z) : string := NilZero.string_of_int (Z.to_int z).

(** Error values.  [errorString] is what [errors.New] and [fmt.Errorf]
    without [%w] build; [netError] stands for any value whose dynamic type
    implements [net.Error] (it answers [Timeout()] and [Temporary()]);
    [wrapError] is what [fmt.Errorf] builds for one [%w] operand: the
    formatted message and the wrapped error. *)
Inductive error : Type :=
| errorString (s : string)
| netError (s : string) (timeout temporary : bool)
| wrapError (msg : string) (err : error).

(** [err.Error()] *)
Definition Error (e : error) : string :=
  match e with
  | errorString s => s
  | netError s _ _ => s
  | wrapError msg _ => msg
  end.

(** [errors.Unwrap] *)
Definition Unwrap (e : error) : option error :=
  match e with
  | wrapError _ err => Some err
  | _ => None
  end.

(** [fmt.Errorf(prefix + "%w", err)].  A [nil] operand is not an error
    value: [fmt] prints it as a bad verb and wraps nothing. *)
Definition Errorf_w (prefix : string) (err : option error) : error :=
  match err with
  | Some e => wrapError (prefix ++ Error e) e
  | None => errorString (prefix ++ "%!w(<nil>)")
  end.

Definition context_Canceled : error := errorString "context canceled".
Definition context_DeadlineExceeded : error :=
  netError "context deadline exceeded" true true.

(** [s[i:i+n]] for in-range bounds. *)
Definition slice (s : string) (i n : nat) : string := substring i n s.

End Go.

(** ** Package retry *)

Module Retry.
Import Go.

Record Config : Type := {
  MaxRetries : Z;
  InitialWait : Z;   (* time.Duration, nanoseconds *)
  MaxWait : Z        (* time.Duration, nanoseconds *)
}.

Definition Second : Z := 1000000000.
Definition Millisecond : Z := 1000000.

Definition DefaultConfig : Config :=
  {| MaxRetries := 5; InitialWait := 1 * Second; MaxWait := 32 * Second |}.

(** *** [findSubstring] and [contains] *)

(** The loop [for i := 0; i <= len(s)-len(substr); i++] of
    [findSubstring], entered at index [i] with [count] iterations left. *)
Fixpoint findSubstring_from (count i : nat) (s substr : string) : bool :=
  match count with
  | O => false
  | S count' =>
      if String.eqb (slice s i (String.length substr)) substr then true
      else findSubstring_from count' (S i) s substr
  end.

(** The bound [len(s)-len(substr)] is a signed [int]: when it is negative
    the loop body never runs.  [S (length s) - length substr] is the
    number of indices [0 <= i <= len(s)-len(substr)]. *)
Definition findSubstring (s substr : string) : bool :=
  findSubstring_from (S (String.length s) - String.length substr) 0 s substr.

Definition contains (s substr : string) : bool :=
  (len s >=? len substr) &&
  (String.eqb s substr ||
   ((len s >? len substr) &&
    (String.eqb (slice s 0 (String.length substr)) substr ||
     String.eqb (slice s (String.length s - String.length substr)
                   (String.length substr)) substr ||
     findSubstring s substr))).

(** *** [isRetryableError] *)

Definition retryablePatterns : list string :=
  [ "connection refused";
    "connection reset";
    "no such host";
    "timeout";
    "temporary failure";
    "too many open files";
    "i/o timeout" ].

Definition isRetryableError (err : error) : bool :=
  match err with
  | netError _ timeout temporary => timeout || temporary
  | _ => existsb (fun pattern => contains (Error err) pattern) retryablePatterns
  end.

(** *** The delay before a retry *)

(** [float64] values that occur here are integers scaled by a power of
    two; [round53 n] is the integer nearest to [n] that has at most 53
    significant bits, ties going to the even significand.  It is IEEE 754
    round-to-nearest-even, which Go uses both for the conversion
    [float64(backoff)] and for the product. *)
Definition round53 (n : Z) : Z :=
  let a := Z.abs n in
  let s := Z.log2 a - 52 in
  if s <=? 0 then n
  else
    let q := Z.shiftr a s in
    let r := a - Z.shiftl q s in
    let half := 2 ^ (s - 1) in
    let q' := if (half <? r) || ((r =? half) && Z.odd q) then q + 1 else q in
    Z.sgn n * Z.shiftl q' s.

(** [time.Duration(math.Pow(2, float64(e)))] for [0 <= e].  The power is
    exact; the conversion to [int64] is exact up to [2^62].  Beyond, the
    value does not fit and Go leaves the result to the implementation:
    amd64 yields the smallest [int64]. *)
Definition pow2Duration (e : Z) : Z :=
  if e <=? 62 then 2 ^ e else min_int64.

(** [time.Duration(rand.Float64() * 0.5 * float64(backoff))].
    [rand.Float64()] is [float64(r.Int63()) / (1 << 63)], drawn again when
    it rounds to 1: for the draw [k] of [r.Int63()] its value is
    [round53 k / 2^63].  The halving is exact, the product is rounded once,
    and the conversion to [int64] truncates toward zero. *)
Definition jitterOf (k backoff : Z) : Z :=
  Z.quot (round53 (round53 k * round53 backoff)) (2 ^ 64).

(** The draws [k] of [r.Int63()] that [rand.Float64()] accepts: the value
    [round53 k / 2^63] is below 1. *)
Definition draw (k : Z) : Prop := 0 <= k < 2 ^ 63 /\ round53 k < 2 ^ 63.

(** Lines 48-58 of [WithBackoff]: the delay before attempt [attempt],
    given the draw [k] behind [rand.Float64()] and the draw [coin] of
    [rand.Intn(2)]. *)
Definition computeBackoff (config : Config) (attempt k coin : Z) : Z :=
  let backoff := wrap64 (pow2Duration (attempt - 1) * InitialWait config) in
  let backoff := if backoff >? MaxWait config then MaxWait config else backoff in
  let jitter := jitterOf k backoff in
  if coin =? 0 then wrap64 (backoff + jitter) else wrap64 (backoff - jitter).

(** *** [WithBackoff] *)

(** What [WithBackoff] does, in program order.  [EvRetryWarn] and
    [EvSucceeded] are the two [slog] records; [EvWait] is the [select]
    between [ctx.Done()] and the timer, with the cancellation cause when
    [ctx.Done()] won; [EvCall] is an invocation of [fn] with its result;
    [EvCtxErr] is the reading of [ctx.Err()] that follows a failed
    invocation. *)
Inductive event : Type :=
| EvRetryWarn (attempt backoff : Z) (lastErr : option error)
| EvWait (attempt backoff : Z) (done : option error)
| EvCall (attempt : Z) (res : option error)
| EvCtxErr (attempt : Z) (err : option error)
| EvSucceeded (attempts : Z).

(** The collaborators of [WithBackoff] over a world [W]: the context, the
    timer and the random source.  [select_Done d w] is the [select] of
    lines 67-71 for a timer of [d] nanoseconds: [Some cause] when
    [ctx.Done()] is taken, [cause] being [ctx.Err()] at that point, and
    [None] when the timer fires.  [rand_Float64] gives the draw [k] of
    [r.Int63()] from which [rand.Float64()] is made, [0 <= k < 2^63] and
    [round53 k < 2^63]. *)
Record Runtime (W : Type) : Type := {
  ctx_Err : W -> option error;
  select_Done : Z -> W -> option error * W;
  rand_Float64 : W -> Z * W;
  rand_Intn : Z -> W -> Z * W
}.
Arguments ctx_Err {W} _ _.
Arguments select_Done {W} _ _ _.
Arguments rand_Float64 {W} _ _.
Arguments rand_Intn {W} _ _ _.

Section WithBackoff.
Context {W : Type}.
Variable rt : Runtime W.
Variable operation : string.
Variable config : Config.
Variable fn : W -> option error * W.

(** The four errors that [WithBackoff] returns. *)
Definition cancelledWait (cause : error) : error :=
  Errorf_w "context cancelled: " (Some cause).

Definition cancelledCall (cause : error) : error :=
  Errorf_w ("context cancelled during " ++ operation ++ ": ") (Some cause).

Definition nonRetryable (err : error) : error :=
  Errorf_w (operation ++ ": non-retryable error: ") (Some err).

Definition exhausted (lastErr : option error) : error :=
  Errorf_w (operation ++ ": max retries (" ++ itoa (MaxRetries config)
              ++ ") exceeded: ") lastErr.

(** The block guarded by [if attempt > 0]: the result is the error to
    return when the wait was cancelled. *)
Definition beforeRetry (attempt : Z) (lastErr : option error) (w : W)
  : option error * W * list event :=
  if 0 <? attempt then
    let (k, w1) := rand_Float64 rt w in
    let (coin, w2) := rand_Intn rt 2 w1 in
    let backoff := computeBackoff config attempt k coin in
    let (done, w3) := select_Done rt backoff w2 in
    let tr := [EvRetryWarn attempt backoff lastErr; EvWait attempt backoff done] in
    match done with
    | Some cause => (Some (cancelledWait cause), w3, tr)
    | None => (None, w3, tr)
    end
  else (None, w, []).

(** The verdict after one invocation of [fn]: [inl r] returns [r] from
    [WithBackoff], [inr err] goes on to the next attempt with
    [lastErr = err]. *)
Definition afterCall (attempt : Z) (res : option error) (w : W)
  : (option error + error) * list event :=
  match res with
  | Some err =>
      match ctx_Err rt w with
      | Some cause =>
          (inl (Some (cancelledCall cause)), [EvCtxErr attempt (Some cause)])
      | None =>
          if negb (isRetryableError err) then
            (inl (Some (nonRetryable err)), [EvCtxErr attempt None])
          else (inr err, [EvCtxErr attempt None])
      end
  | None =>
      (inl None, if 0 <? attempt then [EvSucceeded (attempt + 1)] else [])
  end.

(** The [for] loop, with [remaining] iterations left before
    [attempt <= config.MaxRetries] fails. *)
Fixpoint loop (remaining : nat) (attempt : Z) (lastErr : option error) (w : W)
  : option error * W * list event :=
  match remaining with
  | O => (Some (exhausted lastErr), w, [])
  | S remaining' =>
      match beforeRetry attempt lastErr w with
      | (Some cancelled, w1, tr1) => (Some cancelled, w1, tr1)
      | (None, w1, tr1) =>
          let (res, w2) := fn w1 in
          match afterCall attempt res w2 with
          | (inl r, tr2) => (r, w2, (tr1 ++ EvCall attempt res :: tr2)%list)
          | (inr err, tr2) =>
              match loop remaining' (attempt + 1) (Some err) w2 with
              | (r, w3, tr3) => (r, w3, (tr1 ++ EvCall attempt res :: tr2 ++ tr3)%list)
              end
          end
      end
  end.

(** The counter runs from [0] to [MaxRetries]: [MaxRetries + 1]
    iterations, none when [MaxRetries] is negative.  (The counter itself
    is not wrapped: it stays below [2^63] whenever
    [MaxRetries < 2^63 - 1].) *)
Definition WithBackoff (w : W) : option error * W * list event :=
  loop (Z.to_nat (MaxRetries config + 1)) 0 None w.

End WithBackoff.

(** Reading a run. *)
Definition result {W} (r : option error * W * list event) : option error := fst (fst r).
Definition trace {W} (r : option error * W * list event) : list event := snd r.

Definition is_call (ev : event) : bool :=
  match ev with EvCall _ _ => true | _ => false end.

(** Number of invocations of [fn] in a trace. *)
Definition calls (tr : list event) : nat := List.length (filter is_call tr).

End Retry.

(** ** Configuration types and validation *)

Module Config.
Import Go.

Record Subdomain : Type := {
  Name : string;
  Proxied : bool;
  TTL : Z
}.

Record Zone : Type := {
  ZoneID : string;
  Subdomains : list Subdomain;
  ZoneTTL : Z                       (* field [TTL] of [Zone] *)
}.

Record Config : Type := {
  Zones : list Zone;
  DefaultTTL : Z;
  ConcurrencyLimit : Z
}.

(** The inner loop of [validateConfig] over the subdomains of zone [i],
    from index [j]. *)
Fixpoint validateSubdomains (i j : Z) (subs : list Subdomain) : option error :=
  match subs with
  | [] => None
  | sub :: subs' =>
      if negb (TTL sub =? 0) && ((TTL sub <? 60) || (TTL sub >? 86400)) then
        Some (errorString ("zone[" ++ itoa i ++ "].subdomain[" ++ itoa j
                ++ "]: TTL must be between 60 and 86400 or 0 for default"))
      else validateSubdomains i (j + 1) subs'
  end.

(** The outer loop of [validateConfig], from index [i]. *)
Fixpoint validateZones (i : Z) (zones : list Zone) : option error :=
  match zones with
  | [] => None
  | zone :: zones' =>
      if String.eqb (ZoneID zone) "" then
        Some (errorString ("zone[" ++ itoa i ++ "]: missing zone_id"))
      else if (List.length (Subdomains zone) =? 0)%nat then
        Some (errorString ("zone[" ++ itoa i ++ "]: no subdomains configured"))
      else
        match validateSubdomains i 0 (Subdomains zone) with
        | Some err => Some err
        | None => validateZones (i + 1) zones'
        end
  end.

Definition validateConfig (cfg : Config) : option error :=
  if (List.length (Zones cfg) =? 0)%nat then Some (errorString "no zones configured")
  else
    match validateZones 0 (Zones cfg) with
    | Some err => Some err
    | None =>
        if ConcurrencyLimit cfg <? 0 then
          Some (errorString "concurrency_limit must be positive")
        else None
    end.

End Config.

(** ** The reconciler: [cfAPI], [upsertRecord], [processZone] *)

Module Cloudflare.
Import Go.

(** The Go struct [Record]. *)
Record DNSRecord : Type := {
  ID : string;
  Type_ : string;
  Name : string;
  Content : string;
  Proxied : bool;
  TTL : Z
}.

Record ZoneResponse : Type := {
  zone_Result_Name : string;
  zone_Success : bool;
  zone_Errors : list string
}.

Record ListRecordsResponse : Type := {
  list_Result : list DNSRecord;
  list_Success : bool;
  list_Errors : list string
}.

(** An [*http.Request] as [cfAPI] builds it.  The body is the value handed
    to [json.Marshal]; the callers pass [nil] or a [Record], whose encoding
    cannot fail. *)
Record Request : Type := {
  req_Method : string;
  req_URL : string;
  req_Authorization : string;
  req_ContentType : string;
  req_Body : option DNSRecord
}.

(** An [*http.Response]: the status code and what [io.ReadAll] makes of
    the body. *)
Record Response : Type := {
  StatusCode : Z;
  Body : error + string
}.

Inductive level : Type := LevelDebug | LevelInfo | LevelWarn | LevelError.

Inductive value : Type :=
| VString (s : string)
| VInt (z : Z)
| VBool (b : bool)
| VError (e : error).

(** What the reconciler does, in program order: [EvHTTP] is one call of
    [httpClient.Do], [EvLog] one [slog] record, and [EvUpsert] marks the
    entry of [upsertRecord] with its arguments. *)
Inductive event : Type :=
| EvHTTP (req : Request)
| EvLog (lvl : level) (msg : string) (attrs : list (string * value))
| EvUpsert (zoneID fqdn recordType ip : string) (proxied : bool) (ttl : Z).

(** The collaborators over a world [W]: the HTTP client, the JSON decoder
    and two functions of package [strings].  [http_NewRequest_err] is the
    error of [http.NewRequestWithContext] for a method and a URL.
    [schedule] is the order in which the Go scheduler lets the subdomain
    goroutines of a zone run. *)
Record Env (W : Type) : Type := {
  http_NewRequest_err : string -> string -> option error;
  http_Do : Request -> W -> (error + Response) * W;
  json_Unmarshal_Zone : string -> error + ZoneResponse;
  json_Unmarshal_List : string -> error + ListRecordsResponse;
  strings_ToLower : string -> string;
  strings_TrimSpace : string -> string;
  schedule : list Config.Subdomain -> list Config.Subdomain
}.
Arguments http_NewRequest_err {W} _ _ _.
Arguments http_Do {W} _ _ _.
Arguments json_Unmarshal_Zone {W} _ _.
Arguments json_Unmarshal_List {W} _ _.
Arguments strings_ToLower {W} _ _.
Arguments strings_TrimSpace {W} _ _.
Arguments schedule {W} _ _.

(** [fmt.Sprintf("%v", errs)] for a [[]string]. *)
Definition fmt_v (errs : list string) : string :=
  "[" ++ String.concat " " errs ++ "]".

Definition api : string := "https://api.cloudflare.com/client/v4/zones/".

Definition zoneURL (zoneID : string) : string := api ++ zoneID.
Definition listURL (zoneID recordType fqdn : string) : string :=
  api ++ zoneID ++ "/dns_records?type=" ++ recordType ++ "&name=" ++ fqdn.
Definition createURL (zoneID : string) : string :=
  api ++ zoneID ++ "/dns_records".
Definition updateURL (zoneID id : string) : string :=
  api ++ zoneID ++ "/dns_records/" ++ id.

(** How [processZone] ends: it returns, or [make] panics on a negative
    channel size, or every subdomain goroutine blocks on the unbuffered
    semaphore and [wg.Wait] never returns. *)
Inductive ending : Type :=
| Returns (err : option error)
| Panics
| Blocks.

Section Reconciler.
Context {W : Type}.
Variable env : Env W.
Variable token : string.

(** The request that [cfAPI] hands to [httpClient.Do]. *)
Definition newRequest (method url : string) (body : option DNSRecord) : Request :=
  {| req_Method := method;
     req_URL := url;
     req_Authorization := "Bearer " ++ token;
     req_ContentType := "application/json";
     req_Body := body |}.

Definition cfAPI (method url : string) (body : option DNSRecord) (w : W)
  : (error + string) * W * list event :=
  match http_NewRequest_err env method url with
  | Some err => (inl (Errorf_w "create request: " (Some err)), w, [])
  | None =>
      let req := newRequest method url body in
      let (r, w1) := http_Do env req w in
      match r with
      | inl err => (inl (Errorf_w "execute request: " (Some err)), w1, [EvHTTP req])
      | inr resp =>
          match Body resp with
          | inl err => (inl (Errorf_w "read response: " (Some err)), w1, [EvHTTP req])
          | inr respBody =>
              if StatusCode resp >=? 400 then
                (inl (errorString ("HTTP " ++ itoa (StatusCode resp) ++ ": " ++ respBody)),
                 w1, [EvHTTP req])
              else (inr respBody, w1, [EvHTTP req])
          end
      end
  end.

(** Lines 135-136: the record found is what is wanted. *)
Definition upToDate (existing : DNSRecord) (ip : string) (proxied : bool) (ttl : Z) : bool :=
  let ttlMatches := (TTL existing =? ttl) || (proxied && (TTL existing =? 1)) in
  String.eqb (Content existing) ip && Bool.eqb (Proxied existing) proxied && ttlMatches.

(** Lines 130-132: the warning when the list query returns several
    records. *)
Definition duplicateWarning (fqdn recordType : string) (found : list DNSRecord)
  : list event :=
  if Z.of_nat (List.length found) >? 1 then
    [EvLog LevelWarn "multiple records found, updating the first one"
       [("fqdn", VString fqdn); ("type", VString recordType);
        ("count", VInt (Z.of_nat (List.length found)))]]
  else [].

(** Lines 113-119: the record wanted; its [ID] is left empty. *)
Definition desired (fqdn recordType ip : string) (proxied : bool) (ttl : Z) : DNSRecord :=
  {| ID := ""; Type_ := recordType; Name := fqdn; Content := ip;
     Proxied := proxied; TTL := ttl |}.

(** Lines 113-147 of [upsertRecord]: what follows the decoding of the
    list response. *)
Definition reconcile (zoneID fqdn recordType ip : string) (proxied : bool) (ttl : Z)
           (found : list DNSRecord) (w : W) : option error * W * list event :=
  let record := desired fqdn recordType ip proxied ttl in
  match found with
  | [] =>
      match cfAPI "POST" (createURL zoneID) (Some record) w with
      | (inl err, w1, tr) => (Some (Errorf_w "create record: " (Some err)), w1, tr)
      | (inr _, w1, tr) =>
          (None, w1,
           (tr ++ [EvLog LevelInfo "created record"
                     [("fqdn", VString fqdn); ("type", VString recordType);
                      ("ip", VString ip); ("proxied", VBool proxied);
                      ("ttl", VInt ttl)]])%list)
      end
  | existing :: others =>
      let warn := duplicateWarning fqdn recordType found in
      if upToDate existing ip proxied ttl then
        (None, w,
         (warn ++ [EvLog LevelDebug "record already up to date"
                     [("fqdn", VString fqdn); ("type", VString recordType);
                      ("ip", VString ip)]])%list)
      else
        match cfAPI "PUT" (updateURL zoneID (ID existing)) (Some record) w with
        | (inl err, w1, tr) =>
            (Some (Errorf_w "update record: " (Some err)), w1, (warn ++ tr)%list)
        | (inr _, w1, tr) =>
            (None, w1,
             (warn ++ tr ++
              [EvLog LevelInfo "updated record"
                 [("fqdn", VString fqdn); ("type", VString recordType);
                  ("ip", VString ip); ("proxied", VBool proxied);
                  ("ttl", VInt ttl); ("old_ip", VString (Content existing));
                  ("old_proxied", VBool (Proxied existing));
                  ("old_ttl", VInt (TTL existing))]])%list)
        end
  end.

Definition upsertRecord (zoneID fqdn recordType ip : string) (proxied : bool) (ttl : Z)
           (w : W) : option error * W * list event :=
  let entry := EvUpsert zoneID fqdn recordType ip proxied ttl in
  match cfAPI "GET" (listURL zoneID recordType fqdn) None w with
  | (inl err, w1, tr) => (Some (Errorf_w "list records: " (Some err)), w1, entry :: tr)
  | (inr listData, w1, tr) =>
      match json_Unmarshal_List env listData with
      | inl err => (Some (Errorf_w "unmarshal list response: " (Some err)), w1, entry :: tr)
      | inr listResp =>
          if negb (list_Success listResp) then
            (Some (errorString ("list API error: " ++ fmt_v (list_Errors listResp))),
             w1, entry :: tr)
          else
            match reconcile zoneID fqdn recordType ip proxied ttl
                            (list_Result listResp) w1 with
            | (r, w2, tr2) => (r, w2, (entry :: tr ++ tr2)%list)
            end
      end
  end.

(** Lines 71-75: the name of the record of subdomain [s]. *)
Definition fqdnOf (baseDomain : string) (s : Config.Subdomain) : string :=
  let name := strings_ToLower env (strings_TrimSpace env (Config.Name s)) in
  if negb (String.eqb name "") && negb (String.eqb name "@")
  then name ++ "." ++ baseDomain else baseDomain.

(** The body of the goroutine that [processZone] starts for the
    subdomain [s] (lines 71-90), once it holds a slot of the
    semaphore. *)
Definition subdomainUnit (zoneID baseDomain ipv4 ipv6 : string) (zoneTTL : Z)
           (s : Config.Subdomain) (w : W) : W * list event :=
  let fqdn := fqdnOf baseDomain s in
  let ttl := if Config.TTL s =? 0 then zoneTTL else Config.TTL s in
  match upsertRecord zoneID fqdn "A" ipv4 (Config.Proxied s) ttl w with
  | (r4, w1, tr4) =>
      let log4 :=
        match r4 with
        | Some err => [EvLog LevelError "failed to upsert A record"
                         [("fqdn", VString fqdn); ("error", VError err)]]
        | None => []
        end in
      if negb (String.eqb ipv6 "") then
        match upsertRecord zoneID fqdn "AAAA" ipv6 (Config.Proxied s) ttl w1 with
        | (r6, w2, tr6) =>
            let log6 :=
              match r6 with
              | Some err => [EvLog LevelError "failed to upsert AAAA record"
                               [("fqdn", VString fqdn); ("error", VError err)]]
              | None => []
              end in
            (w2, (tr4 ++ log4 ++ tr6 ++ log6)%list)
        end
      else (w1, (tr4 ++ log4)%list)
  end.

(** The goroutines of a zone, run one after the other in the order
    given; each is paired with the events it produced. *)
Fixpoint runUnits (zoneID baseDomain ipv4 ipv6 : string) (zoneTTL : Z)
         (subs : list Config.Subdomain) (w : W)
  : W * list (Config.Subdomain * list event) :=
  match subs with
  | [] => (w, [])
  | s :: subs' =>
      let (w1, tr) := subdomainUnit zoneID baseDomain ipv4 ipv6 zoneTTL s w in
      let (w2, units) := runUnits zoneID baseDomain ipv4 ipv6 zoneTTL subs' w1 in
      (w2, (s, tr) :: units)
  end.

(** [processZone].  The result gives how the call ends, the world, the
    events of the zone lookup, and the subdomain units that ran. *)
Definition processZone (zone : Config.Zone) (ipv4 ipv6 : string)
           (defaultTTL concurrencyLimit : Z) (w : W)
  : ending * W * list event * list (Config.Subdomain * list event) :=
  match cfAPI "GET" (zoneURL (Config.ZoneID zone)) None w with
  | (inl err, w1, tr) => (Returns (Some (Errorf_w "get zone: " (Some err))), w1, tr, [])
  | (inr zoneData, w1, tr) =>
      match json_Unmarshal_Zone env zoneData with
      | inl err =>
          (Returns (Some (Errorf_w "unmarshal zone response: " (Some err))), w1, tr, [])
      | inr zoneResp =>
          if negb (zone_Success zoneResp) then
            (Returns (Some (errorString ("zone API error: "
                                           ++ fmt_v (zone_Errors zoneResp)))),
             w1, tr, [])
          else
            let baseDomain := zone_Result_Name zoneResp in
            let tr := (tr ++ [EvLog LevelDebug "processing zone"
                                [("zone_id", VString (Config.ZoneID zone));
                                 ("domain", VString baseDomain)]])%list in
            let zoneTTL :=
              if Config.ZoneTTL zone =? 0 then defaultTTL else Config.ZoneTTL zone in
            if concurrencyLimit <? 0 then (Panics, w1, tr, [])
            else if (concurrencyLimit =? 0)
                    && negb (Nat.eqb (List.length (Config.Subdomains zone)) 0)
            then (Blocks, w1, tr, [])
            else
              let (w2, units) :=
                runUnits (Config.ZoneID zone) baseDomain ipv4 ipv6 zoneTTL
                         (schedule env (Config.Subdomains zone)) w1 in
              (Returns None, w2, tr, units)
      end
  end.

End Reconciler.

(** Number of calls of [httpClient.Do] in a trace. *)
Definition is_http (ev : event) : bool :=
  match ev with EvHTTP _ => true | _ => false end.

Definition http_calls (tr : list event) : nat := List.length (filter is_http tr).

(** The requests of a trace that are not [GET]. *)
Definition is_write (ev : event) : bool :=
  match ev with
  | EvHTTP req => negb (String.eqb (req_Method req) "GET")
  | _ => false
  end.

Definition writes (tr : list event) : list event := filter is_write tr.

(** The entries of [upsertRecord] in a trace. *)
Definition is_upsert (ev : event) : bool :=
  match ev with EvUpsert _ _ _ _ _ _ => true | _ => false end.

Definition upserts (tr : list event) : list event := filter is_upsert tr.

End Cloudflare.

(** ** The entry point *)

Module Main.
Import Go.

(** Lines 34-40 of [main]: the defaults applied after validation. *)
Definition applyDefaults (cfg : Config.Config) : Config.Config :=
  let cfg :=
    if Config.DefaultTTL cfg =? 0
    then {| Config.Zones := Config.Zones cfg;
            Config.DefaultTTL := 300;
            Config.ConcurrencyLimit := Config.ConcurrencyLimit cfg |}
    else cfg in
  if Config.ConcurrencyLimit cfg =? 0
  then {| Config.Zones := Config.Zones cfg;
          Config.DefaultTTL := Config.DefaultTTL cfg;
          Config.ConcurrencyLimit := 10 |}
  else cfg.

(** The goroutine that [main] starts for zone [z] (lines 62-67), [cfg]
    being the configuration as decoded and validated.  [main] reaches the
    reconciler as [cloudflare.ProcessZone]; its body is [processZone]. *)
Definition zoneWorker {W : Type} (env : Cloudflare.Env W) (token : string)
           (cfg : Config.Config) (z : Config.Zone) (ipv4 ipv6 : string) (w : W)
  : Cloudflare.ending * W * list Cloudflare.event
    * list (Config.Subdomain * list Cloudflare.event) :=
  let cfg := applyDefaults cfg in
  match Cloudflare.processZone env token z ipv4 ipv6
          (Config.DefaultTTL cfg) (Config.ConcurrencyLimit cfg) w with
  | (Cloudflare.Returns (Some err), w1, tr, units) =>
      (Cloudflare.Returns (Some err), w1,
       (tr ++ [Cloudflare.EvLog Cloudflare.LevelError "failed to process zone"
                 [("zone_id", Cloudflare.VString (Config.ZoneID z));
                  ("error", Cloudflare.VError err)]])%list,
       units)
  | r => r
  end.

End Main.

(** ** Specification-side notions and concrete scenarios *)

Module Spec.
Import Go Retry.

(** [p] occurs in [s]. *)
Definition has_substring (s p : string) : Prop :=
  exists pre post, s = pre ++ p ++ post.

(** The classification as the specification words it: a network-level
    timeout, or a transient network condition, the latter being a
    connection refused, a connection reset, a DNS resolution failure, or
    any message that contains "timeout" or "temporary failure".  A
    [net.Error] that reports itself temporary is counted as transient
    too. *)
Definition claimedPatterns : list string :=
  [ "connection refused"; "connection reset"; "no such host";
    "timeout"; "temporary failure" ].

Definition claimedRetryable (e : error) : Prop :=
  (exists s timeout temporary,
     e = netError s timeout temporary /\ (timeout = true \/ temporary = true))
  \/ exists p, In p claimedPatterns /\ has_substring (Error e) p.

(** The bounds on the delay before attempt [k] as the specification
    states them, each multiplied by two to stay within the integers:
    [initial_wait*2^(k-1)*0.5 <= delay <= initial_wait*2^(k-1)*1.5] and
    [delay <= max_wait*1.5]. *)
Definition claimedDelayBounds (config : Config) (k delay : Z) : Prop :=
  InitialWait config * 2 ^ (k - 1) <= 2 * delay
  /\ 2 * delay <= 3 * (InitialWait config * 2 ^ (k - 1))
  /\ 2 * delay <= 3 * MaxWait config.

(** What precedes the invocation of [fn] at [attempt] when the wait was
    not cancelled. *)
Definition waited (attempt : Z) (lastErr : option error) (pre : list event) : Prop :=
  (attempt <= 0 /\ pre = [])
  \/ (0 < attempt /\ exists backoff,
        pre = [EvRetryWarn attempt backoff lastErr; EvWait attempt backoff None]).

(** The override chain as the specification words it: the subdomain's ttl
    if nonzero, else the zone's ttl if nonzero, else the configured default
    ttl if nonzero, else 300. *)
Definition effectiveTtl (subdomainTtl zoneTtl defaultTtl : Z) : Z :=
  if negb (subdomainTtl =? 0) then subdomainTtl
  else if negb (zoneTtl =? 0) then zoneTtl
  else if negb (defaultTtl =? 0) then defaultTtl
  else 300.

(** The default waits with ten retries. *)
Definition tenRetries : Config :=
  {| MaxRetries := 10; InitialWait := 1 * Second; MaxWait := 32 * Second |}.

End Spec.

(** Worlds in the manner of [retry_test.go]: the number of invocations of
    [fn] so far and whether the context has been cancelled.  The random
    source always draws 0.5 and the coin 0; the [select] takes
    [ctx.Done()] exactly when the context is cancelled. *)

Module RetryScenario.
Import Go Retry.

Record world : Type := {
  callCount : nat;
  cancelled : bool
}.

Definition ctxErr (w : world) : option error :=
  if cancelled w then Some context_Canceled else None.

Definition runtime : Runtime world :=
  {| ctx_Err := ctxErr;
     select_Done := fun _ w => (ctxErr w, w);
     rand_Float64 := fun w => (2 ^ 62, w);
     rand_Intn := fun _ w => (0, w) |}.

(** A runtime in which the context is cancelled while [WithBackoff]
    waits: the [select] takes [ctx.Done()]. *)
Definition cancelledWhileWaiting : Runtime world :=
  {| ctx_Err := ctxErr;
     select_Done := fun _ w =>
       (Some context_Canceled, {| callCount := callCount w; cancelled := true |});
     rand_Float64 := fun w => (2 ^ 62, w);
     rand_Intn := fun _ w => (0, w) |}.

(** [context.Background()]: a context that is never cancelled. *)
Definition background : Runtime world :=
  {| ctx_Err := fun _ => None;
     select_Done := fun _ w => (None, w);
     rand_Float64 := fun w => (2 ^ 62, w);
     rand_Intn := fun _ w => (0, w) |}.

Definition start : world := {| callCount := 0; cancelled := false |}.
Definition startCancelled : world := {| callCount := 0; cancelled := true |}.

(** [&net.DNSError{IsTimeout: true}] *)
Definition dnsTimeout : error := netError "lookup : " true true.

(** The [fn] of [TestRetryWithBackoffMaxRetriesExceeded]. *)
Definition alwaysTimeout (w : world) : option error * world :=
  (Some dnsTimeout, {| callCount := S (callCount w); cancelled := cancelled w |}).

(** The [fn] of [TestRetryWithBackoffContextCancelled]: it cancels the
    context on its first invocation and fails with a timeout always. *)
Definition cancelOnFirstCall (w : world) : option error * world :=
  (Some dnsTimeout,
   {| callCount := S (callCount w);
      cancelled := cancelled w || Nat.eqb (callCount w) 0 |}).

(** The [fn] of [TestRetryWithBackoffEventualSuccess]: it fails with a
    timeout on its first two invocations. *)
Definition succeedsOnThird (w : world) : option error * world :=
  (if (S (callCount w) <? 3)%nat then Some dnsTimeout else None,
   {| callCount := S (callCount w); cancelled := cancelled w |}).

(** The [fn] of [TestRetryWithBackoffNonRetryableError]. *)
Definition permanent (w : world) : option error * world :=
  (Some (errorString "permanent error"),
   {| callCount := S (callCount w); cancelled := cancelled w |}).

(** The [fn] of [TestWithBackoffSuccess]. *)
Definition succeeds (w : world) : option error * world :=
  (None, {| callCount := S (callCount w); cancelled := cancelled w |}).

(** The configurations of the tests. *)
Definition twoRetries : Config :=
  {| MaxRetries := 2; InitialWait := 1 * Millisecond; MaxWait := 10 * Millisecond |}.
Definition threeRetries : Config :=
  {| MaxRetries := 3; InitialWait := 100 * Millisecond; MaxWait := 1 * Second |}.
Definition threeShortRetries : Config :=
  {| MaxRetries := 3; InitialWait := 1 * Millisecond; MaxWait := 10 * Millisecond |}.






End RetryScenario.

(** Worlds in the manner of the reconciler's tests: the world is the list
    of outcomes that the HTTP client will deliver, in order.  Response
    bodies are named rather than spelled out in JSON; the decoders know the
    names. *)

Module ReconcilerScenario.
Import Go Cloudflare.

Definition world : Type := list (error + Response).

Definition do (_ : Request) (w : world) : (error + Response) * world :=
  match w with
  | [] => (inl (errorString "EOF"), [])
  | outcome :: w' => (outcome, w')
  end.

Definition ok (body : string) : error + Response :=
  inr {| StatusCode := 200; Body := inr body |}.

Definition record (id content : string) (proxied : bool) (ttl : Z) : DNSRecord :=
  {| ID := id; Type_ := "A"; Name := "test.example.com"; Content := content;
     Proxied := proxied; TTL := ttl |}.

Definition found (records : list DNSRecord) : error + ListRecordsResponse :=
  inr {| list_Result := records; list_Success := true; list_Errors := [] |}.

Definition decodeList (body : string) : error + ListRecordsResponse :=
  if String.eqb body "empty" then found []
  else if String.eqb body "stale" then found [record "rec123" "5.6.7.8" true 300]
  else if String.eqb body "current" then found [record "rec123" "1.2.3.4" true 300]
  else if String.eqb body "automatic" then found [record "rec123" "1.2.3.4" true 1]
  else if String.eqb body "two" then
    found [record "rec1" "5.6.7.8" true 300; record "rec2" "5.6.7.8" true 300]
  else inl (errorString "unexpected end of JSON input").

Definition decodeZone (body : string) : error + ZoneResponse :=
  if String.eqb body "zone" then
    inr {| zone_Result_Name := "example.com"; zone_Success := true; zone_Errors := [] |}
  else inl (errorString "unexpected end of JSON input").

Definition env : Env world :=
  {| http_NewRequest_err := fun _ _ => None;
     http_Do := do;
     json_Unmarshal_Zone := decodeZone;
     json_Unmarshal_List := decodeList;
     strings_ToLower := fun s => s;
     strings_TrimSpace := fun s => s;
     schedule := fun subs => subs |}.

(** The call of [upsertRecord] that the tests make, and the record it
    wants. *)
Definition upsertTest (w : world) : option error * world * list event :=
  upsertRecord env "token" "zone123" "test.example.com" "A" "1.2.3.4" true 300 w.

Definition wanted : DNSRecord := desired "test.example.com" "A" "1.2.3.4" true 300.

(** A transport failure: the dial times out. *)
Definition dialTimeout : error := netError "dial tcp 104.16.0.1:443: i/o timeout" true true.

(** The zone of [TestProcessZone] and a configuration around it that
    leaves every default open. *)
Definition zone123 : Config.Zone :=
  {| Config.ZoneID := "zone123";
     Config.Subdomains :=
       [ {| Config.Name := "www"; Config.Proxied := true; Config.TTL := 0 |};
         {| Config.Name := "api"; Config.Proxied := false; Config.TTL := 120 |} ];
     Config.ZoneTTL := 0 |}.

Definition config123 : Config.Config :=
  {| Config.Zones := [zone123]; Config.DefaultTTL := 0; Config.ConcurrencyLimit := 0 |}.

Definition www : Config.Subdomain :=
  {| Config.Name := "www"; Config.Proxied := true; Config.TTL := 0 |}.

(** The list query fails once in transport, then the provider answers. *)
Definition flaky : world := [inl dialTimeout; ok "empty"; ok "created"].

(** The zone lookup succeeds; the create request of the first subdomain
    fails in transport. *)
Definition zoneScript : world :=
  [ok "zone"; ok "empty"; inl dialTimeout; ok "empty"; ok "created"].

(** The events of the unit of [www] in the run of [zoneWorker] over
    [zoneScript]. *)
Definition wwwTrace : list event :=
  Eval vm_compute in
    match snd (Main.zoneWorker env "token" config123 zone123 "1.2.3.4" "" zoneScript) with
    | (_, tr) :: _ => tr
    | [] => []
    end.

(** The list query of [upsertRecord] as an operation for
    [Retry.WithBackoff], and a runtime whose context is never cancelled. *)
Definition listQuery (w : world) : option error * world :=
  match cfAPI env "token" "GET" (listURL "zone123" "A" "test.example.com") None w with
  | (inl err, w1, _) => (Some err, w1)
  | (inr _, w1, _) => (None, w1)
  end.

Definition quiet : Retry.Runtime world :=
  {| Retry.ctx_Err := fun _ => None;
     Retry.select_Done := fun _ w => (None, w);
     Retry.rand_Float64 := fun w => (2 ^ 62, w);
     Retry.rand_Intn := fun _ w => (0, w) |}.

End ReconcilerScenario.

(** ** Measures of a run of [WithBackoff] *)

Module Measures.
Import Go Retry.

(** The time slept in a run: the sum of the delays of its waits. *)
Fixpoint waits (tr : list event) : Z :=
  match tr with
  | [] => 0
  | EvWait _ backoff _ :: tr' => backoff + waits tr'
  | _ :: tr' => waits tr'
  end.

End Measures.

(** ** Package ip *)

Module IP.
Import Go Cloudflare.

Section IP.
Context {W : Type}.

(** The collaborators: the runtime of [WithBackoff], the HTTP client and
    [strings.TrimSpace] as in [Env], and [net.ParseIP] together with
    [To4]: [net_ParseIP s] is [None] when [net.ParseIP(s)] is [nil], and
    else tells whether [To4()] is not [nil]. *)
Variable rt : Retry.Runtime W.
Variable env : Env W.
Variable net_ParseIP : string -> option bool.

Definition validateIP (ip : string) (isIPv6 : bool) : option error :=
  match net_ParseIP ip with
  | None => Some (errorString ("invalid IP address: " ++ ip))
  | Some to4 =>
      if isIPv6 then
        if to4 then Some (errorString ("expected IPv6 but got IPv4: " ++ ip)) else None
      else
        if negb to4 then Some (errorString ("expected IPv4 but got IPv6: " ++ ip))
        else None
  end.

(** The request of [getIP]: a [GET] without body; no header is set. *)
Definition ipRequest (url : string) : Request :=
  {| req_Method := "GET"; req_URL := url; req_Authorization := "";
     req_ContentType := ""; req_Body := None |}.

(** The line that [getIP] logs first. *)
Definition debugLine (url : string) : event :=
  EvLog LevelDebug "fetching ip address" [("url", VString url)].

Definition getIP (url : string) (w : W) : (error + string) * W * list event :=
  let debug := debugLine url in
  match http_NewRequest_err env "GET" url with
  | Some err => (inl (Errorf_w "create request: " (Some err)), w, [debug])
  | None =>
      let req := ipRequest url in
      let (r, w1) := http_Do env req w in
      match r with
      | inl err => (inl (Errorf_w "execute request: " (Some err)), w1, [debug; EvHTTP req])
      | inr resp =>
          if negb (StatusCode resp =? 200) then
            (inl (errorString ("unexpected status: " ++ itoa (StatusCode resp))),
             w1, [debug; EvHTTP req])
          else
            match Body resp with
            | inl err =>
                (inl (Errorf_w "read response: " (Some err)), w1, [debug; EvHTTP req])
            | inr ip =>
                let result := strings_TrimSpace env ip in
                if String.eqb result "" then
                  (inl (errorString ("empty response from " ++ url)), w1,
                   [debug; EvHTTP req])
                else (inr result, w1, [debug; EvHTTP req])
            end
      end
  end.

(** What the function literal of [GetWithRetry] reads and writes: the
    variable [result] it captures, the world, and the events of its calls
    of [getIP] so far. *)
Record closure : Type := {
  result : string;
  outer : W;
  seen : list event
}.

(** The function literal handed to [WithBackoff]. *)
Definition attempt (url : string) (isIPv6 : bool) (st : closure)
  : option error * closure :=
  match getIP url (outer st) with
  | (inl err, w1, tr) =>
      (Some err, {| result := result st; outer := w1; seen := (seen st ++ tr)%list |})
  | (inr ip, w1, tr) =>
      match validateIP ip isIPv6 with
      | Some err =>
          (Some (Errorf_w "validation failed: " (Some err)),
           {| result := result st; outer := w1; seen := (seen st ++ tr)%list |})
      | None =>
          (None, {| result := ip; outer := w1; seen := (seen st ++ tr)%list |})
      end
  end.

(** The runtime as the function literal's state sees it: context, timer
    and random source act on the world only. *)
Definition onOuter {A : Type} (st : closure) (r : A * W) : A * closure :=
  (fst r, {| result := result st; outer := snd r; seen := seen st |}).

Definition closureRuntime : Retry.Runtime closure :=
  {| Retry.ctx_Err := fun st => Retry.ctx_Err rt (outer st);
     Retry.select_Done := fun d st => onOuter st (Retry.select_Done rt d (outer st));
     Retry.rand_Float64 := fun st => onOuter st (Retry.rand_Float64 rt (outer st));
     Retry.rand_Intn := fun n st => onOuter st (Retry.rand_Intn rt n (outer st)) |}.

Definition ipType (isIPv6 : bool) : string := if isIPv6 then "IPv6" else "IPv4".

(** [GetWithRetry]: the address and the error, the world, the trace of
    [WithBackoff] and the events of the calls of [getIP]. *)
Definition GetWithRetry (url : string) (isIPv6 : bool) (w : W)
  : (string * option error) * W * list Retry.event * list event :=
  match Retry.WithBackoff closureRuntime ("get " ++ ipType isIPv6) Retry.DefaultConfig
                          (attempt url isIPv6)
                          {| result := ""; outer := w; seen := [] |} with
  | (Some err, st, tr) => (("", Some err), outer st, tr, seen st)
  | (None, st, tr) => ((result st, None), outer st, tr, seen st)
  end.

End IP.

End IP.

(** ** Characters of a string *)

Module Text.

(** Every character of [s] satisfies [p]. *)
Fixpoint all (p : ascii -> bool) (s : string) : bool :=
  match s with
  | EmptyString => true
  | String c s' => p c && all p s'
  end.

(** The characters of a number as [%d] prints it. *)
Definition numeric (c : ascii) : bool :=
  let n := nat_of_ascii c in
  ((48 <=? n)%nat && (n <=? 57)%nat) || Nat.eqb n 45.

(** ASCII white space, and [strings.TrimSpace] on ASCII strings. *)
Definition space (c : ascii) : bool :=
  let n := nat_of_ascii c in
  ((9 <=? n)%nat && (n <=? 13)%nat) || Nat.eqb n 32.

Fixpoint trimLeft (s : string) : string :=
  match s with
  | EmptyString => EmptyString
  | String c s' => if space c then trimLeft s' else s
  end.

Fixpoint trimRight (s : string) : string :=
  match s with
  | EmptyString => EmptyString
  | String c s' =>
      match trimRight s' with
      | EmptyString => if space c then EmptyString else String c EmptyString
      | t => String c t
      end
  end.

Definition trimSpace (s : string) : string := trimRight (trimLeft s).

End Text.

(** Worlds in the manner of [ip_test.go]: the outcomes that the HTTP
    client will deliver, white space trimmed as [strings.TrimSpace] does on
    ASCII, and the addresses of the tests known to [net.ParseIP]. *)

Module IPScenario.
Import Go Cloudflare.

Definition world : Type := ReconcilerScenario.world.

Definition env : Env world :=
  {| http_NewRequest_err := fun _ _ => None;
     http_Do := ReconcilerScenario.do;
     json_Unmarshal_Zone := ReconcilerScenario.decodeZone;
     json_Unmarshal_List := ReconcilerScenario.decodeList;
     strings_ToLower := fun s => s;
     strings_TrimSpace := Text.trimSpace;
     schedule := fun subs => subs |}.

Definition parseIP (s : string) : option bool :=
  if String.eqb s "192.168.1.1" || String.eqb s "8.8.8.8" || String.eqb s "1.2.3.4"
  then Some true
  else if String.eqb s "2001:0db8:85a3::8a2e:0370:7334" || String.eqb s "::1"
          || String.eqb s "2001:0db8::1"
  then Some false
  else None.

Definition answer (status : Z) (body : string) : error + Response :=
  inr {| StatusCode := status; Body := inr body |}.

Definition url : string := "https://api.ipify.org".

(** The address with two blanks before and a line feed after. *)
Definition padded : string :=
  "  192.168.1.1" ++ String (ascii_of_nat 10) EmptyString.

(** [context.Background()] over these worlds. *)
Definition background : Retry.Runtime world :=
  {| Retry.ctx_Err := fun _ => None;
     Retry.select_Done := fun _ w => (None, w);
     Retry.rand_Float64 := fun w => (2 ^ 62, w);
     Retry.rand_Intn := fun _ w => (0, w) |}.

Definition getIPv4 (w : world)
  : (string * option error) * world * list Retry.event * list event :=
  IP.GetWithRetry background env parseIP url false w.

End IPScenario.

(** ** The program *)

Module Program.
Import Go Cloudflare.

(** How the process ends: with a status, by [os.Exit] or by the return of
    [main]; with the panic of a goroutine; or never, [wg.Wait] waiting for
    goroutines that block. *)
Inductive outcome : Type :=
| Exits (code : Z)
| Crashes
| Hangs.

(** What [main] does, in order: a record that [main] logs itself, one call
    of [ip.GetWithRetry] with the trace of [WithBackoff] and the events of
    [getIP], and the goroutine of a zone with the events of the zone lookup
    and the subdomain units that ran. *)
Inductive step : Type :=
| Log (ev : event)
| Detect (isIPv6 : bool) (tr : list Retry.event) (http : list event)
| Worker (z : Config.Zone) (tr : list event)
         (units : list (Config.Subdomain * list event)).

Definition Version : string := "dev".

Definition ipv4URL : string := "https://api.ipify.org".
Definition ipv6URL : string := "https://api6.ipify.org".

(** The record that [mustEnv] logs before [os.Exit(1)]. *)
Definition missing (key : string) : step :=
  Log (EvLog LevelError "missing required env var" [("key", VString key)]).

(** The record that [fatal] logs before [os.Exit(1)]. *)
Definition fatal (msg : string) (err : error) : step :=
  Log (EvLog LevelError "fatal error" [("context", VString msg); ("error", VError err)]).

Definition detected (type : string) (ip : string) : step :=
  Log (EvLog LevelInfo "detected public ip" [("type", VString type); ("ip", VString ip)]).

Definition starting : step :=
  Log (EvLog LevelInfo "starting cloudflare-ddns" [("version", VString Version)]).

Definition completed : step :=
  Log (EvLog LevelInfo "cloudflare-ddns completed successfully" []).

Section Program.
Context {W : Type}.

(** The collaborators: those of [WithBackoff], of the reconciler and of
    package [ip], the environment of the process and the decoder of the
    configuration. *)
Variable rt : Retry.Runtime W.
Variable env : Env W.
Variable net_ParseIP : string -> option bool.
Variable os_Getenv : string -> string.
Variable json_Unmarshal_Config : string -> error + Config.Config.

(** Lines 59-69: one goroutine for each zone, here run one after the
    other in the order of the configuration, and [wg.Wait].  The result is
    [None] when [wg.Wait] returns.  A goroutine that panics ends the
    process; one that blocks keeps [wg.Wait] from returning. *)
Fixpoint runZones (token : string) (cfg : Config.Config) (ipv4 ipv6 : string)
         (zones : list Config.Zone) (w : W) : option outcome * W * list step :=
  match zones with
  | [] => (None, w, [])
  | z :: zones' =>
      match Main.zoneWorker env token cfg z ipv4 ipv6 w with
      | (Panics, w1, tr, units) => (Some Crashes, w1, [Worker z tr units])
      | (e, w1, tr, units) =>
          match runZones token cfg ipv4 ipv6 zones' w1 with
          | (o, w2, steps) =>
              (match e, o with
               | Blocks, None => Some Hangs
               | _, _ => o
               end, w2, Worker z tr units :: steps)
          end
      end
  end.

(** Lines 50-57: the IPv6 address, empty unless detection is enabled and
    succeeds. *)
Definition detectIPv6 (ipv6Enabled : bool) (w : W) : string * W * list step :=
  if ipv6Enabled then
    match IP.GetWithRetry rt env net_ParseIP ipv6URL true w with
    | ((ipv6, Some err), w1, tr, http) =>
        (ipv6, w1,
         [Detect true tr http;
          Log (EvLog LevelWarn "ipv6 detection failed after retries"
                 [("error", VError err)])])
    | ((ipv6, None), w1, tr, http) =>
        (ipv6, w1, [Detect true tr http; detected "ipv6" ipv6])
    end
  else ("", w, []).

(** [main]; [cfg] is handed to the goroutines as validated, the defaults of
    lines 34-40 being applied in [Main.zoneWorker]. *)
Definition main (w : W) : outcome * W * list step :=
  let token := os_Getenv "CF_API_TOKEN" in
  if String.eqb token "" then (Exits 1, w, [starting; missing "CF_API_TOKEN"])
  else
    let configJSON := os_Getenv "CF_CONFIG" in
    if String.eqb configJSON "" then (Exits 1, w, [starting; missing "CF_CONFIG"])
    else
      let ipv6Enabled := String.eqb (os_Getenv "CF_IPV6_ENABLED") "true" in
      match json_Unmarshal_Config configJSON with
      | inl err => (Exits 1, w, [starting; fatal "parse config" err])
      | inr cfg =>
          match Config.validateConfig cfg with
          | Some err => (Exits 1, w, [starting; fatal "invalid config" err])
          | None =>
              match IP.GetWithRetry rt env net_ParseIP ipv4URL false w with
              | ((_, Some err), w1, tr, http) =>
                  (Exits 1, w1, [starting; Detect false tr http; fatal "get IPv4" err])
              | ((ipv4, None), w1, tr, http) =>
                  match detectIPv6 ipv6Enabled w1 with
                  | (ipv6, w2, steps6) =>
                      let before :=
                        (starting :: Detect false tr http :: detected "ipv4" ipv4
                           :: steps6)%list in
                      match runZones token cfg ipv4 ipv6 (Config.Zones cfg) w2 with
                      | (Some bad, w3, workers) => (bad, w3, (before ++ workers)%list)
                      | (None, w3, workers) =>
                          (Exits 0, w3, (before ++ workers ++ [completed])%list)
                      end
                  end
              end
          end
      end.

End Program.

(** The steps of a run that are goroutines of zones, and the calls of
    [upsertRecord] made in them. *)
Definition is_worker (st : step) : bool :=
  match st with Worker _ _ _ => true | _ => false end.

Definition workers (steps : list step) : list step := filter is_worker steps.

Definition zoneOf (st : step) : list Config.Zone :=
  match st with Worker z _ _ => [z] | _ => [] end.

Definition upsertsOf (st : step) : list event :=
  match st with
  | Worker _ _ units => flat_map (fun u => upserts (snd u)) units
  | _ => []
  end.

(** The requests of a step. *)
Definition requestsOf (st : step) : list event :=
  match st with
  | Log _ => []
  | Detect _ _ http => filter is_http http
  | Worker _ tr units =>
      (filter is_http tr ++ flat_map (fun u => filter is_http (snd u)) units)%list
  end.

End Program.

(** A process around the zone of [TestProcessZone]: the environment, the
    decoder of the configuration and the answers of the two services. *)

Module ProgramScenario.
Import Go Cloudflare.

Definition getenv (ipv6Enabled : string) (key : string) : string :=
  if String.eqb key "CF_API_TOKEN" then "token"
  else if String.eqb key "CF_CONFIG" then "config123"
  else if String.eqb key "CF_IPV6_ENABLED" then ipv6Enabled
  else "".

Definition decodeConfig (body : string) : error + Config.Config :=
  if String.eqb body "config123" then inr ReconcilerScenario.config123
  else inl (errorString "unexpected end of JSON input").

Definition run (ipv6Enabled : string) (w : IPScenario.world)
  : Program.outcome * IPScenario.world * list Program.step :=
  Program.main IPScenario.background IPScenario.env IPScenario.parseIP
               (getenv ipv6Enabled) decodeConfig w.

(** Both addresses are detected; the A record of [www] is up to date and
    the other three records are created. *)
Definition bothFamilies : IPScenario.world :=
  [IPScenario.answer 200 "1.2.3.4"; IPScenario.answer 200 "2001:0db8::1";
   ReconcilerScenario.ok "zone";
   ReconcilerScenario.ok "current";
   ReconcilerScenario.ok "empty"; ReconcilerScenario.ok "created";
   ReconcilerScenario.ok "empty"; ReconcilerScenario.ok "created";
   ReconcilerScenario.ok "empty"; ReconcilerScenario.ok "created"].

(** The service of the IPv6 address answers 503; the zone lookup fails. *)
Definition noIPv6 : IPScenario.world :=
  [IPScenario.answer 200 "1.2.3.4"; IPScenario.answer 503 "unavailable";
   inl ReconcilerScenario.dialTimeout].

(** The service of the IPv4 address answers 500. *)
Definition noIPv4 : IPScenario.world := [IPScenario.answer 500 "error"].

(** The goroutine of the zone in the run over [bothFamilies], and the call
    of [upsertRecord] for the AAAA record of [www] in it. *)
Definition zoneStep : Program.step :=
  Eval vm_compute in nth 5 (snd (run "true" bothFamilies)) Program.starting.

Definition wwwAAAA : event :=
  EvUpsert "zone123" "www.example.com" "AAAA" "2001:0db8::1" true 300.

End ProgramScenario.

(** ** Variants of a configuration *)

Module ConfigVariants.

(** The configuration [cfg] with the ttl of every zone replaced by
    [zoneTTL] of the zone and the default ttl replaced by [defaultTTL]. *)
Definition withZoneTTL (zoneTTL : Config.Zone -> Z) (z : Config.Zone) : Config.Zone :=
  {| Config.ZoneID := Config.ZoneID z;
     Config.Subdomains := Config.Subdomains z;
     Config.ZoneTTL := zoneTTL z |}.

Definition withTTLs (defaultTTL : Z) (zoneTTL : Config.Zone -> Z) (cfg : Config.Config)
  : Config.Config :=
  {| Config.Zones := map (withZoneTTL zoneTTL) (Config.Zones cfg);
     Config.DefaultTTL := defaultTTL;
     Config.ConcurrencyLimit := Config.ConcurrencyLimit cfg |}.

End ConfigVariants.

(** * Properties *)

(** ** Strings *)

Module StringFacts.
Import Go Retry Spec.

Lemma append_nil_r (s : string) : s ++ "" = s.
Proof. induction s as [|c s IH]; simpl; [reflexivity | now rewrite IH]. Qed.

Lemma append_assoc (a b c : string) : (a ++ b) ++ c = a ++ b ++ c.
Proof. induction a as [|x a IH]; simpl; [reflexivity | now rewrite IH]. Qed.

Lemma length_append (a b : string) :
  String.length (a ++ b) = (String.length a + String.length b)%nat.
Proof. induction a as [|x a IH]; simpl; [reflexivity | now rewrite IH]. Qed.

(** A slice that starts at 0 and equals [p] exhibits [p] as a prefix. *)
Lemma slice_prefix (p s : string) :
  slice s 0 (String.length p) = p -> exists post, s = p ++ post.
Proof.
  unfold slice. revert s.
  induction p as [|c p IH]; intros s H; simpl in *.
  - now exists s.
  - destruct s as [|d s]; simpl in H; [discriminate|].
    injection H as -> H. destruct (IH _ H) as [post ->]. now exists post.
Qed.

Lemma slice_occurs (p s : string) (i : nat) :
  slice s i (String.length p) = p -> has_substring s p.
Proof.
  unfold slice. revert i.
  induction s as [|d s IH]; intros i H.
  - assert (p = "") as -> by (destruct i, p; simpl in H; congruence).
    now exists "", "".
  - destruct i as [|i].
    + destruct (slice_prefix p (String d s) H) as [post ->].
      now exists "", post.
    + simpl in H. destruct (IH _ H) as (pre & post & ->).
      now exists (String d pre), post.
Qed.

Lemma slice_at (pre p post : string) :
  slice (pre ++ p ++ post) (String.length pre) (String.length p) = p.
Proof.
  unfold slice. induction pre as [|c pre IH]; simpl.
  - induction p as [|c p IHp]; simpl.
    + now destruct post.
    + now rewrite IHp.
  - exact IH.
Qed.

Lemma findSubstring_from_sound (count i : nat) (s p : string) :
  findSubstring_from count i s p = true -> has_substring s p.
Proof.
  revert i. induction count as [|count IH]; intros i; simpl; [discriminate|].
  destruct (String.eqb _ p) eqn:E.
  - intros _. apply String.eqb_eq in E. eapply slice_occurs; eauto.
  - apply IH.
Qed.

Lemma findSubstring_from_complete (count i j : nat) (s p : string) :
  (i <= j < i + count)%nat ->
  slice s j (String.length p) = p ->
  findSubstring_from count i s p = true.
Proof.
  revert i. induction count as [|count IH]; intros i Hj Hs; simpl; [lia|].
  destruct (String.eqb _ p) eqn:E; [reflexivity|].
  apply IH; [|assumption].
  assert (i <> j) by (intros ->; rewrite Hs, String.eqb_refl in E; discriminate).
  lia.
Qed.

(** [contains] decides occurrence. *)
Lemma contains_spec (s p : string) : contains s p = true <-> has_substring s p.
Proof.
  unfold contains, len. split.
  - intros H. apply andb_prop in H as [_ H].
    apply orb_prop in H as [H|H].
    + apply String.eqb_eq in H as ->. exists "", "". simpl. now rewrite append_nil_r.
    + apply andb_prop in H as [_ H].
      apply orb_prop in H as [H|H]; [apply orb_prop in H as [H|H]|].
      * apply String.eqb_eq in H. eapply slice_occurs; eauto.
      * apply String.eqb_eq in H. eapply slice_occurs; eauto.
      * eapply findSubstring_from_sound; eauto.
  - intros (pre & post & ->).
    rewrite !length_append.
    apply andb_true_intro. split; [apply Z.geb_le; lia|].
    destruct (String.eqb (pre ++ p ++ post) p) eqn:E; [reflexivity|]. simpl.
    assert (Hlen : (String.length pre + String.length post <> 0)%nat).
    { intros Hz. destruct pre, post; simpl in Hz; try lia.
      simpl in E. rewrite append_nil_r, String.eqb_refl in E. discriminate. }
    apply andb_true_intro. split.
    + rewrite Z.gtb_ltb. apply Z.ltb_lt. lia.
    + apply orb_true_intro. right. unfold findSubstring.
      apply findSubstring_from_complete with (j := String.length pre).
      * rewrite !length_append. lia.
      * apply slice_at.
Qed.

Lemma contains_false (s p : string) : contains s p = false -> ~ has_substring s p.
Proof. intros H Hs. apply contains_spec in Hs. congruence. Qed.

End StringFacts.

(** ** Error classification *)

Module ClassifyFacts.
Import Go Retry Spec StringFacts.

Lemma existsb_contains (s : string) (ps : list string) :
  existsb (fun pattern => contains s pattern) ps = true
  <-> exists p, In p ps /\ has_substring s p.
Proof.
  rewrite existsb_exists. split; intros (p & Hin & H); exists p; split; auto;
    now apply contains_spec.
Qed.

(** C5 (as amended).  An error that implements [net.Error] is retryable
    exactly when [Timeout()] or [Temporary()] holds, whatever its message;
    any other error is retryable exactly when its message contains one of
    the seven patterns of [retryablePatterns], "too many open files"
    included. *)
Theorem isRetryableError_spec (e : error) :
  isRetryableError e = true <->
  match e with
  | netError _ timeout temporary => timeout = true \/ temporary = true
  | _ => exists p, In p retryablePatterns /\ has_substring (Error e) p
  end.
Proof.
  destruct e as [s|s timeout temporary|msg e']; unfold isRetryableError.
  - apply existsb_contains.
  - apply orb_true_iff.
  - apply existsb_contains.
Qed.

(** C5 (as stated) fails in both directions: a file-descriptor shortage is
    retried although it is none of the listed conditions, and a DNS
    resolution failure delivered as a [net.Error] that is neither a
    timeout nor temporary is not retried although its message names a
    listed condition. *)
Lemma isRetryableError_not_as_claimed :
  (isRetryableError (errorString "too many open files") = true
   /\ ~ claimedRetryable (errorString "too many open files"))
  /\ (isRetryableError (netError "lookup example.invalid: no such host" false false) = false
      /\ claimedRetryable (netError "lookup example.invalid: no such host" false false)).
Proof.
  split; split.
  - reflexivity.
  - intros [(s & t & t' & H & _)|(p & Hin & H)]; [discriminate|].
    revert H. apply contains_false.
    simpl in Hin.
    repeat (destruct Hin as [<-|Hin]; [vm_compute; reflexivity|]).
    destruct Hin.
  - reflexivity.
  - right. exists "no such host". split; [simpl; tauto|].
    apply contains_spec. vm_compute. reflexivity.
Qed.

End ClassifyFacts.

(** ** The delay before a retry *)

Module BackoffFacts.
Import Go Retry Spec.

Lemma wrap64_small (z : Z) : min_int64 <= z <= max_int64 -> wrap64 z = z.
Proof.
  unfold wrap64, min_int64, max_int64. intros H.
  rewrite Z.mod_small; lia.
Qed.

(** Integers of at most 53 bits are [float64] values. *)
Lemma round53_small (n : Z) : Z.abs n < 2 ^ 53 -> round53 n = n.
Proof.
  intros H. unfold round53.
  destruct (Z.log2 (Z.abs n) - 52 <=? 0) eqn:E; [reflexivity|].
  apply Z.leb_gt in E. exfalso.
  assert (Hpos : 0 < Z.abs n).
  { destruct (Z.eq_dec (Z.abs n) 0) as [Hz|Hz]; [rewrite Hz in E; simpl in E; lia|lia]. }
  apply (Z.log2_lt_pow2 _ 53) in H; lia.
Qed.

(** Rounding does not step over a [float64] value: a bound [K * 2^e]
    with a significand [K] of at most 53 bits survives rounding. *)
Lemma round53_le (n K e : Z) :
  0 <= n -> 0 <= K < 2 ^ 53 -> 0 <= e -> n <= K * 2 ^ e ->
  0 <= round53 n <= K * 2 ^ e.
Proof.
  intros Hn HK He Hle. unfold round53.
  rewrite (Z.abs_eq n) by assumption.
  destruct (Z.log2 n - 52 <=? 0) eqn:E; [lia|].
  apply Z.leb_gt in E.
  assert (Hpos : 0 < n).
  { destruct (Z.eq_dec n 0) as [->|]; [simpl in E; lia|lia]. }
  set (s := Z.log2 n - 52) in *.
  assert (Hpe : 0 < 2 ^ e) by (apply Z.pow_pos_nonneg; lia).
  assert (Hs : s <= e).
  { assert (Z.log2 n < 53 + e); [|lia].
    apply Z.log2_lt_pow2; [assumption|].
    rewrite Z.pow_add_r by lia.
    assert (K * 2 ^ e < 2 ^ 53 * 2 ^ e) by (apply Z.mul_lt_mono_pos_r; lia).
    lia. }
  rewrite Z.sgn_pos by assumption.
  rewrite Z.shiftr_div_pow2 by lia.
  rewrite !Z.shiftl_mul_pow2 by lia.
  set (P := 2 ^ s).
  assert (HP : 0 < P) by (apply Z.pow_pos_nonneg; lia).
  assert (Hsplit : 2 ^ e = 2 ^ (e - s) * P).
  { unfold P. rewrite <- Z.pow_add_r by lia. f_equal. lia. }
  set (M := 2 ^ (e - s)) in *.
  assert (HM : 0 < M) by (apply Z.pow_pos_nonneg; lia).
  assert (Hhalf : 0 < 2 ^ (s - 1)) by (apply Z.pow_pos_nonneg; lia).
  pose proof (Z.div_mod n P ltac:(lia)) as Hdm.
  pose proof (Z.mod_pos_bound n P HP) as Hmod.
  set (q := n / P) in *.
  assert (Hq : 0 <= q) by (apply Z.div_pos; lia).
  assert (Hr : n - q * P = n mod P) by lia.
  rewrite Hr.
  assert (HK' : K * 2 ^ e = (K * M) * P) by (rewrite Hsplit; ring).
  destruct ((2 ^ (s - 1) <? n mod P) || ((n mod P =? 2 ^ (s - 1)) && Z.odd q)) eqn:Hup.
  - assert (0 < n mod P).
    { apply orb_prop in Hup as [Hup|Hup].
      - apply Z.ltb_lt in Hup. lia.
      - apply andb_prop in Hup as [Hup _]. apply Z.eqb_eq in Hup. lia. }
    assert (Hlt : q * P < (K * M) * P) by lia.
    apply Z.mul_lt_mono_pos_r in Hlt; [|assumption].
    assert ((q + 1) * P <= (K * M) * P) by (apply Z.mul_le_mono_nonneg_r; lia).
    lia.
  - assert (0 <= q * P) by (apply Z.mul_nonneg_nonneg; lia). lia.
Qed.

(** The jitter is at most half of a non-negative [backoff] below [2^53]
    nanoseconds. *)
Lemma jitterOf_bounds (k backoff : Z) :
  draw k -> 0 <= backoff < 2 ^ 53 ->
  0 <= jitterOf k backoff /\ 2 * jitterOf k backoff <= backoff.
Proof.
  intros [Hk Hk1] Hb. unfold jitterOf.
  rewrite (round53_small backoff) by (rewrite Z.abs_eq; lia).
  assert (Hk0 : 0 <= round53 k).
  { apply (round53_le k (2 ^ 52) 11); lia. }
  destruct (round53_le (round53 k * backoff) backoff 63) as [H0 H1]; [nia|lia|lia|nia|].
  rewrite Z.quot_div_nonneg by lia.
  split.
  - apply Z.div_pos; lia.
  - assert (round53 (round53 k * backoff) / 2 ^ 64 <= backoff * 2 ^ 63 / 2 ^ 64)
      by (apply Z.div_le_mono; lia).
    assert (2 * (backoff * 2 ^ 63 / 2 ^ 64) <= backoff); [|lia].
    change (2 ^ 64) with (2 * 2 ^ 63).
    rewrite Z.div_mul_cancel_r by lia.
    pose proof (Z.mul_div_le backoff 2 ltac:(lia)). lia.
Qed.

Lemma base_exact (config : Config) (k : Z) :
  1 <= k -> 0 <= InitialWait config ->
  InitialWait config * 2 ^ (k - 1) <= max_int64 ->
  wrap64 (pow2Duration (k - 1) * InitialWait config) = InitialWait config * 2 ^ (k - 1).
Proof.
  intros Hk Hi Hfit.
  destruct (Z.eq_dec (InitialWait config) 0) as [->|Hnz].
  - rewrite Z.mul_0_r. reflexivity.
  - assert (Hpow : 0 < 2 ^ (k - 1)) by (apply Z.pow_pos_nonneg; lia).
    assert (Hlt : 2 ^ (k - 1) < 2 ^ 63) by (unfold max_int64 in Hfit; nia).
    apply Z.pow_lt_mono_r_iff in Hlt; [|lia|lia].
    unfold pow2Duration.
    destruct (k - 1 <=? 62) eqn:E; [|apply Z.leb_gt in E; lia].
    rewrite wrap64_small by (unfold min_int64; nia).
    apply Z.mul_comm.
Qed.

(** C2 (as amended).  For every attempt [k >= 1], every draw of the
    jitter and of the coin, non-negative waits, a base
    [initial_wait*2^(k-1)] that fits [int64] and a capped base below
    [2^53] ns: the delay lies between half and one and a half times the
    capped base [min(initial_wait*2^(k-1), max_wait)].  Hence both upper
    bounds of the specification hold, and its lower bound holds when the
    cap does not apply. *)
Theorem computeBackoff_bounds (config : Config) (k u coin : Z) :
  1 <= k -> draw u ->
  0 <= InitialWait config -> 0 <= MaxWait config ->
  InitialWait config * 2 ^ (k - 1) <= max_int64 ->
  Z.min (InitialWait config * 2 ^ (k - 1)) (MaxWait config) < 2 ^ 53 ->
  let base := InitialWait config * 2 ^ (k - 1) in
  let capped := Z.min base (MaxWait config) in
  let delay := computeBackoff config k u coin in
  capped <= 2 * delay <= 3 * capped
  /\ 2 * delay <= 3 * base
  /\ 2 * delay <= 3 * MaxWait config
  /\ (base <= MaxWait config -> base <= 2 * delay).
Proof.
  intros Hk Hm Hi Hmax Hfit Hsmall base capped delay.
  assert (Hbase : 0 <= base).
  { unfold base. apply Z.mul_nonneg_nonneg; [assumption|]. apply Z.pow_nonneg. lia. }
  assert (Hdelay : capped <= 2 * delay <= 3 * capped).
  { unfold delay, computeBackoff.
    rewrite base_exact by assumption. fold base.
    replace (if base >? MaxWait config then MaxWait config else base) with capped.
    2:{ unfold capped. rewrite Z.gtb_ltb.
        destruct (MaxWait config <? base) eqn:E;
          [apply Z.ltb_lt in E|apply Z.ltb_ge in E]; lia. }
    assert (Hc : 0 <= capped < 2 ^ 53) by (unfold capped in *; lia).
    destruct (jitterOf_bounds u capped Hm Hc) as [Hj0 Hj1].
    destruct (coin =? 0);
      rewrite wrap64_small by (unfold min_int64, max_int64; lia); lia. }
  unfold capped in *. repeat split; lia.
Qed.

(** C2 (as stated) fails once the cap applies: with waits of 1 s and
    32 s, the base of attempt 8 is 128 s, the delay for the draw 0.5
    subtracted is 24 s, below the claimed lower bound of 64 s. *)
Lemma delay_below_claimed_bound :
  computeBackoff tenRetries 8 (2 ^ 62) 1 = 24 * Second
  /\ ~ claimedDelayBounds tenRetries 8 (computeBackoff tenRetries 8 (2 ^ 62) 1).
Proof.
  split; [vm_compute; reflexivity|].
  intros [H _]. vm_compute in H. apply H. reflexivity.
Qed.

(** The bounds at the same input: the delay of 24 s lies between 16 s and
    48 s. *)
Lemma computeBackoff_bounds_witness :
  let base := InitialWait tenRetries * 2 ^ (8 - 1) in
  let capped := Z.min base (MaxWait tenRetries) in
  let delay := computeBackoff tenRetries 8 (2 ^ 62) 1 in
  capped <= 2 * delay <= 3 * capped
  /\ 2 * delay <= 3 * base
  /\ 2 * delay <= 3 * MaxWait tenRetries
  /\ (base <= MaxWait tenRetries -> base <= 2 * delay).
Proof.
  apply (computeBackoff_bounds tenRetries 8 (2 ^ 62) 1);
    try (unfold tenRetries, InitialWait, MaxWait, Second, max_int64; lia).
  split; [lia|reflexivity].
Defined.

End BackoffFacts.

(** ** The retry loop *)

Module LoopFacts.
Import Go Retry Spec.

Section Loop.
Context {W : Type}.
Variable rt : Runtime W.
Variable operation : string.
Variable config : Config.
Variable fn : W -> option error * W.

(** The block before a retry: nothing for the first attempt, one
    warning and one wait for the others. *)
Lemma beforeRetry_inv attempt lastErr w c w1 tr1 :
  beforeRetry rt config attempt lastErr w = (c, w1, tr1) ->
  (attempt <= 0 /\ c = None /\ w1 = w /\ tr1 = [])
  \/ (0 < attempt /\ exists backoff done w0,
        fst (select_Done rt backoff w0) = done
        /\ tr1 = [EvRetryWarn attempt backoff lastErr; EvWait attempt backoff done]
        /\ c = option_map cancelledWait done).
Proof.
  unfold beforeRetry.
  destruct (0 <? attempt) eqn:E.
  - apply Z.ltb_lt in E.
    destruct (rand_Float64 rt w) as [m w'].
    destruct (rand_Intn rt 2 w') as [coin w''].
    destruct (select_Done rt _ w'') as [done w3] eqn:Hs.
    intros H. right. split; [assumption|].
    exists (computeBackoff config attempt m coin), done, w''.
    rewrite Hs.
    destruct done; inversion H; subst; repeat split; reflexivity.
  - apply Z.ltb_ge in E. intros H. inversion H; subst. left. tauto.
Qed.

(** The verdict after an invocation. *)
Lemma afterCall_inv attempt res w v tr2 :
  afterCall rt operation attempt res w = (v, tr2) ->
  (res = None /\ v = inl None /\ forall ev, In ev tr2 -> ev = EvSucceeded (attempt + 1))
  \/ (exists err, res = Some err /\ tr2 = [EvCtxErr attempt (ctx_Err rt w)]
        /\ v = match ctx_Err rt w with
               | Some cause => inl (Some (cancelledCall operation cause))
               | None => if isRetryableError err then inr err
                         else inl (Some (nonRetryable operation err))
               end).
Proof.
  unfold afterCall. destruct res as [err|].
  - intros H. right. exists err. split; [reflexivity|].
    destruct (ctx_Err rt w) as [cause|].
    + inversion H; subst. split; reflexivity.
    + destruct (isRetryableError err); simpl in H; inversion H; subst;
        split; reflexivity.
  - intros H. inversion H; subst. left. repeat split.
    intros ev Hin. destruct (0 <? attempt); simpl in Hin; intuition.
Qed.

(** One iteration of the loop goes one of five ways: the wait is
    cancelled; [fn] succeeds; [fn] fails and the context is cancelled;
    [fn] fails for good; [fn] fails and the loop goes on. *)
Lemma loop_S_inv remaining attempt lastErr w r w' tr :
  loop rt operation config fn (S remaining) attempt lastErr w = (r, w', tr) ->
  (0 < attempt /\ exists backoff cause w0,
     fst (select_Done rt backoff w0) = Some cause
     /\ tr = [EvRetryWarn attempt backoff lastErr; EvWait attempt backoff (Some cause)]
     /\ r = Some (cancelledWait cause))
  \/ exists pre w1 w2 res,
       waited attempt lastErr pre /\ fn w1 = (res, w2)
       /\ ((res = None /\ r = None
            /\ exists post, tr = (pre ++ EvCall attempt None :: post)%list
                 /\ forall ev, In ev post -> ev = EvSucceeded (attempt + 1))
           \/ exists err, res = Some err
                /\ ((exists cause, ctx_Err rt w2 = Some cause
                       /\ tr = (pre ++ [EvCall attempt res; EvCtxErr attempt (Some cause)])%list
                       /\ r = Some (cancelledCall operation cause))
                    \/ (ctx_Err rt w2 = None /\ isRetryableError err = false
                        /\ tr = (pre ++ [EvCall attempt res; EvCtxErr attempt None])%list
                        /\ r = Some (nonRetryable operation err))
                    \/ (ctx_Err rt w2 = None /\ isRetryableError err = true
                        /\ exists tr3,
                             loop rt operation config fn remaining (attempt + 1)
                                  (Some err) w2 = (r, w', tr3)
                             /\ tr = (pre ++ [EvCall attempt res; EvCtxErr attempt None]
                                          ++ tr3)%list))).
Proof.
  simpl.
  destruct (beforeRetry rt config attempt lastErr w) as [[c w1] tr1] eqn:Hb.
  apply beforeRetry_inv in Hb.
  assert (Hpre : c = None -> waited attempt lastErr tr1).
  { intros ->. destruct Hb as [(? & _ & _ & ->)|(? & backoff & done & w0 & _ & -> & Hd)].
    - left. tauto.
    - right. split; [assumption|]. exists backoff.
      destruct done; [discriminate|reflexivity]. }
  destruct c as [cancelled|].
  - intros H. inversion H; subst. left.
    destruct Hb as [(_ & Hc & _)|(? & backoff & done & w0 & Hs & -> & Hd)];
      [discriminate|].
    destruct done as [cause|]; [|discriminate].
    split; [assumption|]. exists backoff, cause, w0.
    simpl in Hd. inversion Hd. repeat split; assumption.
  - specialize (Hpre eq_refl).
    destruct (fn w1) as [res w2] eqn:Hf.
    destruct (afterCall rt operation attempt res w2) as [v tr2] eqn:Ha.
    apply afterCall_inv in Ha.
    intros H. right. exists tr1, w1, w2, res. split; [assumption|]. split; [assumption|].
    destruct Ha as [(-> & -> & Hpost)|(err & -> & -> & Hv)].
    + inversion H; subst. left. repeat split. now exists tr2.
    + right. exists err. split; [reflexivity|].
      destruct (ctx_Err rt w2) as [cause|] eqn:Hctx.
      * subst v. inversion H; subst. left. exists cause. repeat split.
      * destruct (isRetryableError err) eqn:Hre; subst v.
        -- right. right. repeat split.
           destruct (loop rt operation config fn remaining (attempt + 1) (Some err) w2)
             as [[r3 w3] tr3].
           inversion H; subst. exists tr3. split; reflexivity.
        -- inversion H; subst. right. left. repeat split.
Qed.

Lemma calls_app (l1 l2 : list event) : calls (l1 ++ l2) = (calls l1 + calls l2)%nat.
Proof. unfold calls. now rewrite filter_app, length_app. Qed.

Lemma calls_cons_call j x (l : list event) : calls (EvCall j x :: l) = S (calls l).
Proof. reflexivity. Qed.

Lemma waited_calls attempt lastErr pre : waited attempt lastErr pre -> calls pre = 0%nat.
Proof. intros [(_ & ->)|(_ & b & ->)]; reflexivity. Qed.

Lemma waited_In attempt lastErr pre ev :
  waited attempt lastErr pre -> In ev pre ->
  0 < attempt /\ exists b, ev = EvRetryWarn attempt b lastErr \/ ev = EvWait attempt b None.
Proof.
  intros [(_ & ->)|(Hpos & b & ->)] Hin; simpl in Hin; [tauto|].
  split; [assumption|]. exists b. intuition.
Qed.

Lemma succeeded_calls attempts post :
  (forall ev, In ev post -> ev = EvSucceeded attempts) -> calls post = 0%nat.
Proof.
  induction post as [|ev post IH]; intros H; [reflexivity|].
  unfold calls in *. simpl. rewrite (H ev) by (left; reflexivity). simpl.
  apply IH. intros ev' Hin. apply H. now right.
Qed.

(** Breaking a run of the loop into its cases. *)
Ltac loop_cases H :=
  apply loop_S_inv in H;
  destruct H as
    [(Hpos & backoff & cause & w0 & Hsel & -> & ->)
    |(pre & w1 & w2 & res & Hpre & Hfn &
      [(-> & -> & post & -> & Hpost)
      |(err & -> &
        [(cause & Hctx & -> & ->)
        |[(Hctx & Hre & -> & ->)
         |(Hctx & Hre & tr3 & Hloop & ->)]])])].

Ltac in_cases H :=
  repeat (rewrite in_app_iff in H || simpl in H);
  repeat match type of H with _ \/ _ => destruct H as [H|H] end;
  try discriminate H; try contradiction.

(** The invocations of a run carry consecutive attempt numbers. *)
Lemma loop_calls_range remaining : forall attempt lastErr w r w' tr,
  loop rt operation config fn remaining attempt lastErr w = (r, w', tr) ->
  forall j x, In (EvCall j x) tr -> attempt <= j < attempt + Z.of_nat (calls tr).
Proof.
  induction remaining as [|remaining IH]; intros attempt lastErr w r w' tr H j x Hin.
  - inversion H; subst. destruct Hin.
  - loop_cases H.
    + in_cases Hin.
    + rewrite calls_app, (waited_calls _ _ _ Hpre).
      apply in_app_iff in Hin as [Hin|Hin].
      { destruct (waited_In _ _ _ _ Hpre Hin) as (_ & b & [?|?]); discriminate. }
      destruct Hin as [Hin|Hin].
      * inversion Hin; subst. unfold calls at 1. simpl. lia.
      * apply Hpost in Hin. discriminate.
    + rewrite calls_app, (waited_calls _ _ _ Hpre).
      apply in_app_iff in Hin as [Hin|Hin].
      { destruct (waited_In _ _ _ _ Hpre Hin) as (_ & b & [?|?]); discriminate. }
      in_cases Hin. inversion Hin; subst. unfold calls. simpl. lia.
    + rewrite calls_app, (waited_calls _ _ _ Hpre).
      apply in_app_iff in Hin as [Hin|Hin].
      { destruct (waited_In _ _ _ _ Hpre Hin) as (_ & b & [?|?]); discriminate. }
      in_cases Hin. inversion Hin; subst. unfold calls. simpl. lia.
    + rewrite !calls_app, (waited_calls _ _ _ Hpre).
      apply in_app_iff in Hin as [Hin|Hin].
      { destruct (waited_In _ _ _ _ Hpre Hin) as (_ & b & [?|?]); discriminate. }
      apply in_app_iff in Hin as [Hin|Hin].
      * in_cases Hin. inversion Hin; subst. unfold calls at 1. simpl. lia.
      * specialize (IH _ _ _ _ _ _ Hloop _ _ Hin). unfold calls at 1. simpl. lia.
Qed.

Ltac not_in_pre Hpre Hin :=
  let b := fresh "b" in
  let E := fresh "E" in
  destruct (waited_In _ _ _ _ Hpre Hin) as (_ & b & [E|E]); discriminate E.



(** A successful invocation ends the run with success, and the context is
    not read after it. *)
Lemma loop_success remaining : forall attempt lastErr w r w' tr,
  loop rt operation config fn remaining attempt lastErr w = (r, w', tr) ->
  forall i, In (EvCall i None) tr ->
  r = None /\ attempt <= i /\ calls tr = Z.to_nat (i - attempt + 1)
  /\ forall c, ~ In (EvCtxErr i c) tr.
Proof.
  induction remaining as [|remaining IH]; intros attempt lastErr w r w' tr H i Hin.
  - inversion H; subst. destruct Hin.
  - loop_cases H.
    + in_cases Hin.
    + apply in_app_iff in Hin as [Hin|Hin]; [not_in_pre Hpre Hin|].
      destruct Hin as [Hin|Hin]; [|apply Hpost in Hin; discriminate].
      inversion Hin; subst.
      rewrite calls_app, (waited_calls _ _ _ Hpre), calls_cons_call,
        (succeeded_calls _ _ Hpost).
      replace (i - i + 1) with 1 by lia.
      repeat split; try lia.
      intros c Hc. apply in_app_iff in Hc as [Hc|Hc]; [not_in_pre Hpre Hc|].
      destruct Hc as [Hc|Hc]; [discriminate|]. apply Hpost in Hc. discriminate.
    + apply in_app_iff in Hin as [Hin|Hin]; [not_in_pre Hpre Hin|]. in_cases Hin.
    + apply in_app_iff in Hin as [Hin|Hin]; [not_in_pre Hpre Hin|]. in_cases Hin.
    + apply in_app_iff in Hin as [Hin|Hin]; [not_in_pre Hpre Hin|].
      apply in_app_iff in Hin as [Hin|Hin]; [in_cases Hin|].
      destruct (IH _ _ _ _ _ _ Hloop _ Hin) as (-> & Hle & Hcalls & Hno).
      rewrite !calls_app, (waited_calls _ _ _ Hpre), Hcalls.
      unfold calls at 1. simpl. repeat split; try lia.
      intros c Hc. apply in_app_iff in Hc as [Hc|Hc]; [not_in_pre Hpre Hc|].
      simpl in Hc. destruct Hc as [Hc|[Hc|Hc]];
        [discriminate|inversion Hc; lia|exact (Hno _ Hc)].
Qed.

(** The context is read only after a failed invocation, and a wait only
    precedes a retry. *)
Lemma loop_observations remaining : forall attempt lastErr w r w' tr,
  loop rt operation config fn remaining attempt lastErr w = (r, w', tr) ->
  (forall j c, In (EvCtxErr j c) tr -> exists e, In (EvCall j (Some e)) tr)
  /\ (forall j d c, In (EvWait j d c) tr -> 0 < j).
Proof.
  induction remaining as [|remaining IH]; intros attempt lastErr w r w' tr H.
  - inversion H; subst. split; intros; contradiction.
  - loop_cases H.
    + split; [intros j c Hin|intros j d c Hin]; in_cases Hin.
      inversion Hin; subst. assumption.
    + split; [intros j c Hin|intros j d c Hin].
      * apply in_app_iff in Hin as [Hin|Hin]; [not_in_pre Hpre Hin|].
        destruct Hin as [Hin|Hin]; [discriminate|apply Hpost in Hin; discriminate].
      * apply in_app_iff in Hin as [Hin|Hin].
        -- destruct (waited_In _ _ _ _ Hpre Hin) as (Hp & b & [E|E]);
             inversion E; subst; assumption.
        -- destruct Hin as [Hin|Hin]; [discriminate|apply Hpost in Hin; discriminate].
    + split; [intros j c Hin|intros j d c Hin].
      * apply in_app_iff in Hin as [Hin|Hin]; [not_in_pre Hpre Hin|].
        in_cases Hin. inversion Hin; subst. exists err.
        apply in_app_iff. right. left. reflexivity.
      * apply in_app_iff in Hin as [Hin|Hin]; [|in_cases Hin].
        destruct (waited_In _ _ _ _ Hpre Hin) as (Hp & b & [E|E]);
          inversion E; subst; assumption.
    + split; [intros j c Hin|intros j d c Hin].
      * apply in_app_iff in Hin as [Hin|Hin]; [not_in_pre Hpre Hin|].
        in_cases Hin. inversion Hin; subst. exists err.
        apply in_app_iff. right. left. reflexivity.
      * apply in_app_iff in Hin as [Hin|Hin]; [|in_cases Hin].
        destruct (waited_In _ _ _ _ Hpre Hin) as (Hp & b & [E|E]);
          inversion E; subst; assumption.
    + destruct (IH _ _ _ _ _ _ Hloop) as [IH1 IH2].
      split; [intros j c Hin|intros j d c Hin].
      * apply in_app_iff in Hin as [Hin|Hin]; [not_in_pre Hpre Hin|].
        apply in_app_iff in Hin as [Hin|Hin].
        -- in_cases Hin. inversion Hin; subst. exists err.
           apply in_app_iff. right. left. reflexivity.
        -- destruct (IH1 _ _ Hin) as [e He]. exists e.
           apply in_app_iff. right. apply in_app_iff. right. assumption.
      * apply in_app_iff in Hin as [Hin|Hin].
        -- destruct (waited_In _ _ _ _ Hpre Hin) as (Hp & b & [E|E]);
             inversion E; subst; assumption.
        -- apply in_app_iff in Hin as [Hin|Hin]; [in_cases Hin|].
           exact (IH2 _ _ _ Hin).
Qed.

(** With an operation that always fails with a retryable error and a
    context that is never cancelled, every iteration invokes [fn] and goes
    on. *)
Lemma loop_exhausts remaining :
  (forall w, exists e, fst (fn w) = Some e /\ isRetryableError e = true) ->
  (forall w, ctx_Err rt w = None) ->
  (forall d w, fst (select_Done rt d w) = None) ->
  forall attempt lastErr w r w' tr,
  loop rt operation config fn remaining attempt lastErr w = (r, w', tr) ->
  calls tr = remaining
  /\ exists last, r = Some (exhausted operation config last)
       /\ match remaining with
          | O => last = lastErr
          | S _ => exists e, last = Some e
                     /\ In (EvCall (attempt + Z.of_nat remaining - 1) (Some e)) tr
          end.
Proof.
  intros Hfail Hctx0 Hsel0.
  induction remaining as [|remaining IH]; intros attempt lastErr w r w' tr H.
  - inversion H; subst. split; [reflexivity|]. now exists lastErr.
  - loop_cases H.
    + rewrite Hsel0 in Hsel. discriminate.
    + destruct (Hfail w1) as (e & He & _). rewrite Hfn in He. discriminate.
    + rewrite Hctx0 in Hctx. discriminate.
    + destruct (Hfail w1) as (e & He & Hr). rewrite Hfn in He. simpl in He.
      inversion He; subst. congruence.
    + destruct (IH _ _ _ _ _ _ Hloop) as (Hcalls & last & -> & Hlast).
      rewrite !calls_app, (waited_calls _ _ _ Hpre), Hcalls.
      split; [reflexivity|].
      exists last. split; [reflexivity|].
      destruct remaining as [|remaining'].
      * exists err. split; [assumption|].
        apply in_app_iff. right. left. f_equal. lia.
      * destruct Hlast as (e & -> & Hin). exists e. split; [reflexivity|].
        apply in_app_iff. right. apply in_app_iff. right.
        replace (attempt + Z.of_nat (S (S remaining')) - 1)
          with (attempt + 1 + Z.of_nat (S remaining') - 1) by lia.
        assumption.
Qed.

Lemma run_eq (w : W) :
  loop rt operation config fn (Z.to_nat (MaxRetries config + 1)) 0 None w
  = (result (WithBackoff rt operation config fn w),
     snd (fst (WithBackoff rt operation config fn w)),
     trace (WithBackoff rt operation config fn w)).
Proof.
  unfold result, trace, WithBackoff.
  now destruct (loop rt operation config fn _ 0 None w) as [[r w'] tr].
Qed.

(** C4 (as amended).  With [max_attempts = n >= 0] (below the largest
    [int], so that the attempt counter does not overflow), an operation
    that fails with a retryable error on every invocation and a context
    that is not cancelled while [WithBackoff] runs, [fn] is invoked exactly
    [n + 1] times and the result is the "max retries exceeded" error that
    wraps the error of the last invocation. *)
Theorem WithBackoff_exhausts (w : W) :
  0 <= MaxRetries config < max_int64 ->
  (forall w, exists e, fst (fn w) = Some e /\ isRetryableError e = true) ->
  (forall w, ctx_Err rt w = None) ->
  (forall d w, fst (select_Done rt d w) = None) ->
  let run := WithBackoff rt operation config fn w in
  Z.of_nat (calls (trace run)) = MaxRetries config + 1
  /\ exists e,
       In (EvCall (MaxRetries config) (Some e)) (trace run)
       /\ result run
          = Some (wrapError (operation ++ ": max retries ("
                               ++ itoa (MaxRetries config) ++ ") exceeded: "
                               ++ Error e) e).
Proof.
  intros Hn Hfail Hctx0 Hsel0 run.
  pose proof (run_eq w) as Hrun. fold run in Hrun.
  destruct (loop_exhausts _ Hfail Hctx0 Hsel0 _ _ _ _ _ _ Hrun) as (Hcalls & last & Hres & Hlast).
  rewrite Hcalls. split; [lia|].
  destruct (Z.to_nat (MaxRetries config + 1)) as [|k] eqn:Hk; [lia|].
  destruct Hlast as (e & -> & Hin). exists e. split.
  - replace (MaxRetries config) with (0 + Z.of_nat (S k) - 1) at 1 by lia. assumption.
  - rewrite Hres. unfold exhausted, Errorf_w.
    now rewrite !StringFacts.append_assoc.
Qed.

(** Runs in which the attempts before attempt [i] fail with a retryable
    error while the context is not cancelled and every timer fires.
    [invocations] counts the invocations of [fn] that a world has seen. *)
Section Signal.
Variable invocations : W -> Z.
Variable i : Z.
Hypothesis Hfn : forall u, invocations (snd (fn u)) = invocations u + 1.
Hypothesis Hfloat : forall u, invocations (snd (rand_Float64 rt u)) = invocations u.
Hypothesis Hintn : forall n u, invocations (snd (rand_Intn rt n u)) = invocations u.
Hypothesis Hselect : forall d u, invocations (snd (select_Done rt d u)) = invocations u.
Hypothesis Hfails :
  forall u, invocations u < i ->
    exists e, fst (fn u) = Some e /\ isRetryableError e = true.
Hypothesis Hlive : forall u, invocations u <= i -> ctx_Err rt u = None.
Hypothesis Hfires : forall d u, invocations u <= i -> fst (select_Done rt d u) = None.





End Signal.


(** C10.  When [fn] succeeds at attempt [i], [WithBackoff] returns success
    after [i + 1] invocations and does not read the context after that
    invocation, whatever the state of the context.  In every run the
    context is read only after a failed invocation, and the only other
    observation of the cancellation is the wait before a retry. *)
Theorem WithBackoff_success_ignores_cancellation (w : W) (i : Z) :
  let run := WithBackoff rt operation config fn w in
  In (EvCall i None) (trace run) ->
  result run = None
  /\ calls (trace run) = Z.to_nat (i + 1)
  /\ (forall c, ~ In (EvCtxErr i c) (trace run))
  /\ (forall j c, In (EvCtxErr j c) (trace run) ->
        exists e, In (EvCall j (Some e)) (trace run))
  /\ (forall j d c, In (EvWait j d c) (trace run) -> 0 < j).
Proof.
  intros run Hin.
  pose proof (run_eq w) as Hrun. fold run in Hrun.
  destruct (loop_success _ _ _ _ _ _ _ Hrun _ Hin) as (Hres & Hle & Hcalls & Hno).
  destruct (loop_observations _ _ _ _ _ _ _ Hrun) as [Hobs1 Hobs2].
  rewrite Z.sub_0_r in Hcalls.
  repeat split; assumption.
Qed.

End Loop.

Import RetryScenario.

Ltac find_event := repeat (first [left; reflexivity | right]).

(** The run of [TestRetryWithBackoffMaxRetriesExceeded]: two retries,
    three invocations. *)
Lemma WithBackoff_exhausts_witness :
  let run := WithBackoff background "test" twoRetries alwaysTimeout start in
  Z.of_nat (calls (trace run)) = MaxRetries twoRetries + 1
  /\ exists e,
       In (EvCall (MaxRetries twoRetries) (Some e)) (trace run)
       /\ result run
          = Some (wrapError ("test" ++ ": max retries ("
                               ++ itoa (MaxRetries twoRetries) ++ ") exceeded: "
                               ++ Error e) e).
Proof.
  apply (WithBackoff_exhausts background "test" twoRetries alwaysTimeout start).
  - unfold max_int64. simpl. lia.
  - intros w. exists dnsTimeout. split; reflexivity.
  - reflexivity.
  - reflexivity.
Defined.

(** C4 (as stated) fails when the context is cancelled: in the run of
    [TestRetryWithBackoffContextCancelled] the operation fails with a
    retryable error on every invocation and three retries are allowed, yet
    [fn] is invoked once and the result is the cancellation error. *)
Lemma retries_cut_short_by_cancellation :
  0 <= MaxRetries threeRetries
  /\ (forall w, exists e, fst (cancelOnFirstCall w) = Some e /\ isRetryableError e = true)
  /\ let run := WithBackoff runtime "test" threeRetries cancelOnFirstCall start in
     calls (trace run) = 1%nat
     /\ Z.of_nat (calls (trace run)) <> MaxRetries threeRetries + 1
     /\ result run = Some (cancelledCall "test" context_Canceled).
Proof.
  split; [simpl; lia|]. split.
  - intros w. exists dnsTimeout. split; reflexivity.
  - vm_compute. repeat split. discriminate.
Qed.



(** A context cancelled from the start and an operation that succeeds:
    [WithBackoff] returns success. *)
Lemma WithBackoff_success_ignores_cancellation_witness :
  ctx_Err runtime startCancelled = Some context_Canceled
  /\ let run := WithBackoff runtime "test" threeRetries succeeds startCancelled in
     result run = None
     /\ calls (trace run) = Z.to_nat (0 + 1)
     /\ (forall c, ~ In (EvCtxErr 0 c) (trace run))
     /\ (forall j c, In (EvCtxErr j c) (trace run) ->
           exists e, In (EvCall j (Some e)) (trace run))
     /\ (forall j d c, In (EvWait j d c) (trace run) -> 0 < j).
Proof.
  split; [reflexivity|].
  apply (WithBackoff_success_ignores_cancellation runtime "test" threeRetries
           succeeds startCancelled 0).
  vm_compute. find_event.
Defined.

End LoopFacts.

(** ** The reconciler *)

Module ReconcilerFacts.
Import Go Cloudflare.

Section Reconciler.
Context {W : Type}.
Variable env : Env W.
Variable token : string.

(** What [cfAPI] makes of the outcome of [httpClient.Do]. *)
Lemma cfAPI_inv method url body w r w1 tr :
  cfAPI env token method url body w = (r, w1, tr) ->
  (exists e, http_NewRequest_err env method url = Some e
     /\ r = inl (Errorf_w "create request: " (Some e)) /\ w1 = w /\ tr = [])
  \/ (http_NewRequest_err env method url = None
      /\ tr = [EvHTTP (newRequest token method url body)]
      /\ exists outcome,
           http_Do env (newRequest token method url body) w = (outcome, w1)
           /\ r = match outcome with
                  | inl err => inl (Errorf_w "execute request: " (Some err))
                  | inr resp =>
                      match Body resp with
                      | inl err => inl (Errorf_w "read response: " (Some err))
                      | inr respBody =>
                          if StatusCode resp >=? 400
                          then inl (errorString ("HTTP " ++ itoa (StatusCode resp)
                                                   ++ ": " ++ respBody))
                          else inr respBody
                      end
                  end).
Proof.
  unfold cfAPI.
  destruct (http_NewRequest_err env method url) as [e|].
  - intros H. inversion H; subst. left. exists e. repeat split.
  - destruct (http_Do env _ w) as [outcome w2] eqn:Hdo.
    intros H. right. split; [reflexivity|].
    destruct outcome as [err|resp].
    + inversion H; subst. split; [reflexivity|]. now exists (inl err).
    + destruct (Body resp) as [err|respBody] eqn:Hb.
      * inversion H; subst. split; [reflexivity|]. exists (inr resp).
        now rewrite Hb.
      * destruct (StatusCode resp >=? 400) eqn:Hs; inversion H; subst;
          (split; [reflexivity|]); exists (inr resp); now rewrite Hb, Hs.
Qed.

Lemma http_calls_app (l1 l2 : list event) :
  http_calls (l1 ++ l2) = (http_calls l1 + http_calls l2)%nat.
Proof. unfold http_calls. now rewrite filter_app, length_app. Qed.

Lemma writes_app (l1 l2 : list event) : writes (l1 ++ l2) = (writes l1 ++ writes l2)%list.
Proof. apply filter_app. Qed.

Lemma cfAPI_calls method url body w :
  (http_calls (snd (cfAPI env token method url body w)) <= 1)%nat.
Proof.
  destruct (cfAPI env token method url body w) as [[r w1] tr] eqn:H.
  apply cfAPI_inv in H as [(e & _ & _ & _ & ->)|(_ & -> & _)]; simpl;
    unfold http_calls; simpl; lia.
Qed.

(** The list query issues no write. *)
Lemma cfAPI_GET_writes url w : writes (snd (cfAPI env token "GET" url None w)) = [].
Proof.
  destruct (cfAPI env token "GET" url None w) as [[r w1] tr] eqn:H.
  apply cfAPI_inv in H as [(e & _ & _ & _ & ->)|(_ & -> & _)]; reflexivity.
Qed.

Lemma reconcile_calls zoneID fqdn recordType ip proxied ttl found w :
  (http_calls (snd (reconcile env token zoneID fqdn recordType ip proxied ttl found w))
   <= 1)%nat.
Proof.
  unfold reconcile. destruct found as [|existing others].
  - pose proof (cfAPI_calls "POST" (createURL zoneID)
                  (Some (desired fqdn recordType ip proxied ttl)) w) as Hc.
    destruct (cfAPI env token "POST" _ _ w) as [[[err|data] w1] tr]; simpl in *;
      [assumption|].
    rewrite http_calls_app. unfold http_calls at 2. simpl. lia.
  - assert (Hw : http_calls (duplicateWarning fqdn recordType (existing :: others)) = 0%nat)
      by (unfold duplicateWarning; now destruct (_ >? 1)).
    destruct (upToDate existing ip proxied ttl).
    + cbn [snd]. rewrite http_calls_app, Hw. unfold http_calls. simpl. lia.
    + pose proof (cfAPI_calls "PUT" (updateURL zoneID (ID existing))
                    (Some (desired fqdn recordType ip proxied ttl)) w) as Hc.
      destruct (cfAPI env token "PUT" _ _ w) as [[[err|data] w1] tr]; cbn [snd] in *.
      * rewrite http_calls_app, Hw. lia.
      * rewrite !http_calls_app, Hw. unfold http_calls at 2. simpl. lia.
Qed.

Lemma upsertRecord_calls zoneID fqdn recordType ip proxied ttl w :
  (http_calls (snd (upsertRecord env token zoneID fqdn recordType ip proxied ttl w))
   <= 2)%nat.
Proof.
  unfold upsertRecord.
  pose proof (cfAPI_calls "GET" (listURL zoneID recordType fqdn) None w) as Hc.
  destruct (cfAPI env token "GET" _ None w) as [[[err|listData] w1] tr]; simpl in *.
  - unfold http_calls in *. simpl. lia.
  - destruct (json_Unmarshal_List env listData) as [err|listResp].
    + unfold http_calls in *. simpl. lia.
    + destruct (negb (list_Success listResp)).
      * unfold http_calls in *. simpl. lia.
      * pose proof (reconcile_calls zoneID fqdn recordType ip proxied ttl
                      (list_Result listResp) w1) as Hr.
        destruct (reconcile env token _ _ _ _ _ _ _ w1) as [[r w2] tr2]. simpl in *.
        change (EvUpsert zoneID fqdn recordType ip proxied ttl :: (tr ++ tr2)%list)
          with ([EvUpsert zoneID fqdn recordType ip proxied ttl] ++ tr ++ tr2)%list.
        rewrite !http_calls_app. unfold http_calls at 1. simpl. lia.
Qed.

Lemma upToDate_spec existing ip proxied ttl :
  upToDate existing ip proxied ttl = true
  <-> (Content existing = ip /\ Proxied existing = proxied
       /\ (TTL existing = ttl \/ (proxied = true /\ TTL existing = 1))).
Proof.
  unfold upToDate.
  rewrite !andb_true_iff, orb_true_iff, andb_true_iff, String.eqb_eq,
    Bool.eqb_true_iff, !Z.eqb_eq.
  tauto.
Qed.

(** The duplicate warning is no write. *)
Lemma warn_writes fqdn recordType (found : list DNSRecord) :
  writes (duplicateWarning fqdn recordType found) = [].
Proof. unfold duplicateWarning. now destruct (_ >? 1). Qed.

Lemma writes_upsert zoneID fqdn recordType ip proxied ttl (l : list event) :
  writes (EvUpsert zoneID fqdn recordType ip proxied ttl :: l) = writes l.
Proof. reflexivity. Qed.

(** The run of [upsertRecord] once the list query has delivered a first
    record [existing]: either the record is up to date and nothing is
    written, or the one write is the [PUT] addressed to [existing]. *)
Lemma upsertRecord_found zoneID fqdn recordType ip proxied ttl w
      listData w1 tr listResp existing others :
  cfAPI env token "GET" (listURL zoneID recordType fqdn) None w = (inr listData, w1, tr) ->
  json_Unmarshal_List env listData = inr listResp ->
  list_Success listResp = true ->
  list_Result listResp = existing :: others ->
  let run := upsertRecord env token zoneID fqdn recordType ip proxied ttl w in
  let put := newRequest token "PUT" (updateURL zoneID (ID existing))
                        (Some (desired fqdn recordType ip proxied ttl)) in
  if upToDate existing ip proxied ttl
  then fst (fst run) = None /\ writes (snd run) = []
  else (exists e, fst (fst run) = Some (Errorf_w "update record: " (Some e))
          /\ (writes (snd run) = []
              /\ http_NewRequest_err env "PUT" (updateURL zoneID (ID existing)) <> None
              \/ writes (snd run) = [EvHTTP put]))
       \/ (fst (fst run) = None /\ writes (snd run) = [EvHTTP put]).
Proof.
  intros Hlist Hjson Hok Hres run put.
  assert (Htr : writes tr = []).
  { pose proof (cfAPI_GET_writes (listURL zoneID recordType fqdn) w) as Hg.
    now rewrite Hlist in Hg. }
  subst run. unfold upsertRecord. rewrite Hlist, Hjson, Hok. cbn [negb].
  rewrite Hres. unfold reconcile.
  destruct (upToDate existing ip proxied ttl).
  - cbn [fst snd]. split; [reflexivity|].
    rewrite writes_upsert, !writes_app, Htr, warn_writes. reflexivity.
  - destruct (cfAPI env token "PUT" (updateURL zoneID (ID existing))
                (Some (desired fqdn recordType ip proxied ttl)) w1)
      as [[r w2] tr2] eqn:Hput.
    apply cfAPI_inv in Hput as [(e & Hnew & -> & -> & ->)|(Hnew & -> & outcome & Hdo & ->)].
    + left. cbn [fst snd]. eexists. split; [reflexivity|]. left. split.
      * rewrite writes_upsert, !writes_app, Htr, warn_writes. reflexivity.
      * congruence.
    + fold put.
      destruct outcome as [err|resp]; [|destruct (Body resp) as [err|respBody];
        [|destruct (StatusCode resp >=? 400)]]; cbn [fst snd].
      * left. eexists. split; [reflexivity|]. right.
        rewrite writes_upsert, !writes_app, Htr, warn_writes. reflexivity.
      * left. eexists. split; [reflexivity|]. right.
        rewrite writes_upsert, !writes_app, Htr, warn_writes. reflexivity.
      * left. eexists. split; [reflexivity|]. right.
        rewrite writes_upsert, !writes_app, Htr, warn_writes. reflexivity.
      * right. split; [reflexivity|].
        rewrite writes_upsert, !writes_app, Htr, warn_writes. reflexivity.
Qed.

(** C3.  When the list query returns a first record [existing],
    [upsertRecord] returns success without issuing a create or update
    request if and only if the content matches, the proxied flag matches,
    and the ttl matches or the record is wanted proxied and the remote ttl
    is 1. *)
Theorem upsertRecord_upToDate_iff zoneID fqdn recordType ip proxied ttl w
        listData w1 tr listResp existing others :
  cfAPI env token "GET" (listURL zoneID recordType fqdn) None w = (inr listData, w1, tr) ->
  json_Unmarshal_List env listData = inr listResp ->
  list_Success listResp = true ->
  list_Result listResp = existing :: others ->
  let run := upsertRecord env token zoneID fqdn recordType ip proxied ttl w in
  (fst (fst run) = None /\ writes (snd run) = [])
  <-> (Content existing = ip /\ Proxied existing = proxied
       /\ (TTL existing = ttl \/ (proxied = true /\ TTL existing = 1))).
Proof.
  intros Hlist Hjson Hok Hres run.
  pose proof (upsertRecord_found zoneID fqdn recordType ip proxied ttl w _ _ _ _ _ _
                Hlist Hjson Hok Hres) as H.
  cbv zeta in H. fold run in H.
  rewrite <- upToDate_spec.
  destruct (upToDate existing ip proxied ttl).
  - tauto.
  - split; [|discriminate].
    intros [Hnone Hw].
    destruct H as [(e & He & _)|(_ & Hput)]; [congruence|].
    rewrite Hw in Hput. discriminate.
Qed.

Lemma duplicateWarning_many fqdn recordType (first second : DNSRecord) others :
  duplicateWarning fqdn recordType (first :: second :: others)
  = [EvLog LevelWarn "multiple records found, updating the first one"
       [("fqdn", VString fqdn); ("type", VString recordType);
        ("count", VInt (Z.of_nat (List.length (first :: second :: others))))]].
Proof.
  unfold duplicateWarning.
  destruct (Z.of_nat (List.length (first :: second :: others)) >? 1) eqn:E;
    [reflexivity|].
  rewrite Z.gtb_ltb in E. apply Z.ltb_ge in E.
  cbn [List.length] in E. lia.
Qed.

(** The run of [upsertRecord] when the list query returns more than one
    record: the warning, and the first record reconciled. *)
Lemma duplicates_reconciled zoneID fqdn recordType ip proxied ttl w
        listData w1 tr listResp first second others :
  cfAPI env token "GET" (listURL zoneID recordType fqdn) None w = (inr listData, w1, tr) ->
  json_Unmarshal_List env listData = inr listResp ->
  list_Success listResp = true ->
  list_Result listResp = first :: second :: others ->
  let run := upsertRecord env token zoneID fqdn recordType ip proxied ttl w in
  let put := newRequest token "PUT" (updateURL zoneID (ID first))
                        (Some (desired fqdn recordType ip proxied ttl)) in
  In (EvLog LevelWarn "multiple records found, updating the first one"
        [("fqdn", VString fqdn); ("type", VString recordType);
         ("count", VInt (Z.of_nat (List.length (list_Result listResp))))]) (snd run)
  /\ (forall ev, In ev (writes (snd run)) -> ev = EvHTTP put)
  /\ (upToDate first ip proxied ttl = true ->
      fst (fst run) = None /\ writes (snd run) = [])
  /\ (upToDate first ip proxied ttl = false ->
      http_NewRequest_err env "PUT" (updateURL zoneID (ID first)) = None ->
      writes (snd run) = [EvHTTP put])
  /\ (fst (fst run) = None
      \/ exists e, fst (fst run) = Some (Errorf_w "update record: " (Some e))).
Proof.
  intros Hlist Hjson Hok Hres run put.
  pose proof (upsertRecord_found zoneID fqdn recordType ip proxied ttl w _ _ _ _ _ _
                Hlist Hjson Hok Hres) as H.
  cbv zeta in H. fold run put in H.
  split.
  { subst run. unfold upsertRecord. rewrite Hlist, Hjson, Hok. cbn [negb].
    rewrite Hres. unfold reconcile. rewrite duplicateWarning_many.
    destruct (upToDate first ip proxied ttl).
    - cbn [snd]. right. apply in_app_iff. right. left. reflexivity.
    - destruct (cfAPI env token "PUT" _ _ w1) as [[[err|data] w2] tr2]; cbn [snd];
        right; apply in_app_iff; right; left; reflexivity. }
  destruct (upToDate first ip proxied ttl).
  - destruct H as [Hnone Hw]. rewrite Hw.
    repeat split; try assumption; try discriminate; try contradiction.
    now left.
  - destruct H as [(e & He & [[Hw Hnew]|Hw])|(Hnone & Hw)]; rewrite Hw.
    + split; [intros ev []|]. split; [discriminate|].
      split; [intros _ Hn; contradiction|]. right. now exists e.
    + split; [intros ev [<-|[]]; reflexivity|]. split; [discriminate|].
      split; [reflexivity|]. right. now exists e.
    + split; [intros ev [<-|[]]; reflexivity|]. split; [discriminate|].
      split; [reflexivity|]. now left.
Qed.

(** C8.  When the list query returns more than one record, [upsertRecord]
    logs a warning that names the count and goes on with the first record.
    Every request it issues is a [GET] or the one [PUT] whose URL ends in
    the id of the first record and whose body is the record wanted, so no
    request is addressed to another record and none deletes.  That [PUT] is
    issued when the first record is out of date, nothing is written when it
    is up to date, and a failure, if any, is the failure of that update. *)
Theorem upsertRecord_duplicates zoneID fqdn recordType ip proxied ttl w
        listData w1 tr listResp first second others :
  cfAPI env token "GET"
        ("https://api.cloudflare.com/client/v4/zones/" ++ zoneID
           ++ "/dns_records?type=" ++ recordType ++ "&name=" ++ fqdn) None w
  = (inr listData, w1, tr) ->
  json_Unmarshal_List env listData = inr listResp ->
  list_Success listResp = true ->
  list_Result listResp = first :: second :: others ->
  let run := upsertRecord env token zoneID fqdn recordType ip proxied ttl w in
  let target := "https://api.cloudflare.com/client/v4/zones/" ++ zoneID
                  ++ "/dns_records/" ++ ID first in
  let put := {| req_Method := "PUT";
                req_URL := target;
                req_Authorization := "Bearer " ++ token;
                req_ContentType := "application/json";
                req_Body := Some {| ID := ""; Type_ := recordType; Name := fqdn;
                                    Content := ip; Proxied := proxied; TTL := ttl |} |} in
  let current := Content first = ip /\ Proxied first = proxied
                 /\ (TTL first = ttl \/ (proxied = true /\ TTL first = 1)) in
  In (EvLog LevelWarn "multiple records found, updating the first one"
        [("fqdn", VString fqdn); ("type", VString recordType);
         ("count", VInt (2 + Z.of_nat (List.length others)))]) (snd run)
  /\ (forall req, In (EvHTTP req) (snd run) -> req_Method req = "GET" \/ req = put)
  /\ (current -> fst (fst run) = None /\ writes (snd run) = [])
  /\ (~ current -> http_NewRequest_err env "PUT" target = None ->
      writes (snd run) = [EvHTTP put])
  /\ (fst (fst run) = None
      \/ exists e, fst (fst run) = Some (Errorf_w "update record: " (Some e))).
Proof.
  intros Hlist Hjson Hok Hres run target put current.
  destruct (duplicates_reconciled zoneID fqdn recordType ip proxied ttl w listData w1 tr
              listResp first second others Hlist Hjson Hok Hres)
    as (Hwarn & Hwrites & Hcur & Hstale & Hend).
  fold run in Hwarn, Hwrites, Hcur, Hstale, Hend.
  split.
  { rewrite Hres in Hwarn. cbn [List.length] in Hwarn.
    replace (2 + Z.of_nat (List.length others))
      with (Z.of_nat (S (S (List.length others)))) by lia.
    exact Hwarn. }
  split.
  { intros req Hin.
    destruct (String.eqb (req_Method req) "GET") eqn:Hm;
      [left; now apply String.eqb_eq|right].
    assert (Hw : In (EvHTTP req) (writes (snd run))).
    { unfold writes. apply filter_In. split; [exact Hin|]. cbn [is_write].
      now rewrite Hm. }
    apply Hwrites in Hw. now injection Hw. }
  split.
  { intros Hc. apply Hcur. now apply upToDate_spec. }
  split; [|exact Hend].
  intros Hc Hnew. apply Hstale; [|exact Hnew].
  apply not_true_is_false. intros Hup. apply Hc. now apply upToDate_spec.
Qed.

(** C1 (as amended).  The reconciler reaches the network through [cfAPI]
    only, and [cfAPI] calls the HTTP client once, outside [WithBackoff]: a
    transport error, retryable or not, is returned at once.  So a failed
    list query makes [upsertRecord] fail after one HTTP call, every run of
    [upsertRecord] makes at most two HTTP calls (the list query and one
    write), and the zone lookup of [processZone] makes at most one. *)
Theorem reconciler_calls_once :
  (forall method url body w,
     (http_calls (snd (cfAPI env token method url body w)) <= 1)%nat
     /\ forall err w1,
          http_NewRequest_err env method url = None ->
          http_Do env (newRequest token method url body) w = (inl err, w1) ->
          cfAPI env token method url body w
          = (inl (Errorf_w "execute request: " (Some err)), w1,
             [EvHTTP (newRequest token method url body)]))
  /\ (forall zoneID fqdn recordType ip proxied ttl w,
        (http_calls (snd (upsertRecord env token zoneID fqdn recordType ip proxied ttl w))
         <= 2)%nat
        /\ forall err w1,
             http_NewRequest_err env "GET" (listURL zoneID recordType fqdn) = None ->
             http_Do env (newRequest token "GET" (listURL zoneID recordType fqdn) None) w
             = (inl err, w1) ->
             upsertRecord env token zoneID fqdn recordType ip proxied ttl w
             = (Some (Errorf_w "list records: "
                        (Some (Errorf_w "execute request: " (Some err)))), w1,
                [EvUpsert zoneID fqdn recordType ip proxied ttl;
                 EvHTTP (newRequest token "GET" (listURL zoneID recordType fqdn) None)]))
  /\ (forall zone ipv4 ipv6 defaultTTL concurrencyLimit w,
        (http_calls (snd (fst (processZone env token zone ipv4 ipv6 defaultTTL
                                           concurrencyLimit w))) <= 1)%nat).
Proof.
  assert (Hcf : forall method url body w err w1,
             http_NewRequest_err env method url = None ->
             http_Do env (newRequest token method url body) w = (inl err, w1) ->
             cfAPI env token method url body w
             = (inl (Errorf_w "execute request: " (Some err)), w1,
                [EvHTTP (newRequest token method url body)])).
  { intros method url body w err w1 Hnew Hdo. unfold cfAPI. now rewrite Hnew, Hdo. }
  split; [|split].
  - intros method url body w. split; [apply cfAPI_calls|]. apply Hcf.
  - intros zoneID fqdn recordType ip proxied ttl w. split; [apply upsertRecord_calls|].
    intros err w1 Hnew Hdo. unfold upsertRecord. now rewrite (Hcf _ _ _ _ _ _ Hnew Hdo).
  - intros zone ipv4 ipv6 defaultTTL concurrencyLimit w. unfold processZone.
    pose proof (cfAPI_calls "GET" (zoneURL (Config.ZoneID zone)) None w) as Hc.
    destruct (cfAPI env token "GET" _ None w) as [[[err|zoneData] w1] tr];
      cbn [snd] in Hc; [assumption|].
    destruct (json_Unmarshal_Zone env zoneData) as [err|zoneResp]; [assumption|].
    destruct (negb (zone_Success zoneResp)); [assumption|].
    assert (Hlog : forall l,
               (http_calls (tr ++ [EvLog LevelDebug "processing zone" l]) <= 1)%nat).
    { intros l. rewrite http_calls_app. unfold http_calls at 2. simpl. lia. }
    destruct (concurrencyLimit <? 0); [apply Hlog|].
    destruct (_ && _); [apply Hlog|].
    destruct (runUnits _ _ _ _ _ _ _ _ _) as [w2 units]. apply Hlog.
Qed.

Lemma upserts_app (l1 l2 : list event) :
  upserts (l1 ++ l2) = (upserts l1 ++ upserts l2)%list.
Proof. apply filter_app. Qed.

Lemma cfAPI_upserts method url body w :
  upserts (snd (cfAPI env token method url body w)) = [].
Proof.
  destruct (cfAPI env token method url body w) as [[r w1] tr] eqn:H.
  apply cfAPI_inv in H as [(e & _ & _ & _ & ->)|(_ & -> & _)]; reflexivity.
Qed.

Lemma reconcile_upserts zoneID fqdn recordType ip proxied ttl found w :
  upserts (snd (reconcile env token zoneID fqdn recordType ip proxied ttl found w)) = [].
Proof.
  unfold reconcile. destruct found as [|existing others].
  - pose proof (cfAPI_upserts "POST" (createURL zoneID)
                  (Some (desired fqdn recordType ip proxied ttl)) w) as Hc.
    destruct (cfAPI env token "POST" _ _ w) as [[[err|data] w1] tr]; cbn [snd] in *;
      [assumption|].
    rewrite upserts_app, Hc. reflexivity.
  - assert (Hw : upserts (duplicateWarning fqdn recordType (existing :: others)) = [])
      by (unfold duplicateWarning; now destruct (_ >? 1)).
    destruct (upToDate existing ip proxied ttl).
    + cbn [snd]. rewrite upserts_app, Hw. reflexivity.
    + pose proof (cfAPI_upserts "PUT" (updateURL zoneID (ID existing))
                    (Some (desired fqdn recordType ip proxied ttl)) w) as Hc.
      destruct (cfAPI env token "PUT" _ _ w) as [[[err|data] w1] tr]; cbn [snd] in *.
      * rewrite upserts_app, Hw, Hc. reflexivity.
      * rewrite !upserts_app, Hw, Hc. reflexivity.
Qed.

(** A run of [upsertRecord] records its entry, once. *)
Lemma upsertRecord_upserts zoneID fqdn recordType ip proxied ttl w :
  upserts (snd (upsertRecord env token zoneID fqdn recordType ip proxied ttl w))
  = [EvUpsert zoneID fqdn recordType ip proxied ttl].
Proof.
  unfold upsertRecord.
  pose proof (cfAPI_upserts "GET" (listURL zoneID recordType fqdn) None w) as Hc.
  destruct (cfAPI env token "GET" _ None w) as [[[err|listData] w1] tr]; cbn [snd] in *.
  - unfold upserts in *. simpl. now rewrite Hc.
  - destruct (json_Unmarshal_List env listData) as [err|listResp].
    + unfold upserts in *. simpl. now rewrite Hc.
    + destruct (negb (list_Success listResp)).
      * unfold upserts in *. simpl. now rewrite Hc.
      * pose proof (reconcile_upserts zoneID fqdn recordType ip proxied ttl
                      (list_Result listResp) w1) as Hr.
        destruct (reconcile env token _ _ _ _ _ _ _ w1) as [[r w2] tr2]. cbn [snd] in *.
        change (EvUpsert zoneID fqdn recordType ip proxied ttl :: (tr ++ tr2)%list)
          with ([EvUpsert zoneID fqdn recordType ip proxied ttl] ++ tr ++ tr2)%list.
        rewrite !upserts_app, Hc, Hr. reflexivity.
Qed.

Lemma In_upserts zoneID fqdn recordType ip proxied ttl (tr : list event) :
  In (EvUpsert zoneID fqdn recordType ip proxied ttl) tr
  <-> In (EvUpsert zoneID fqdn recordType ip proxied ttl) (upserts tr).
Proof. unfold upserts. rewrite filter_In. simpl. tauto. Qed.

(** The calls of [upsertRecord] that a subdomain unit makes: one for the A
    record and, when an IPv6 address is known, one for the AAAA record,
    both with the ttl of the subdomain or else of the zone. *)
Lemma subdomainUnit_upserts zoneID baseDomain ipv4 ipv6 zoneTTL s w :
  let fqdn := fqdnOf env baseDomain s in
  let ttl := if Config.TTL s =? 0 then zoneTTL else Config.TTL s in
  upserts (snd (subdomainUnit env token zoneID baseDomain ipv4 ipv6 zoneTTL s w))
  = (EvUpsert zoneID fqdn "A" ipv4 (Config.Proxied s) ttl
     :: if negb (String.eqb ipv6 "")
        then [EvUpsert zoneID fqdn "AAAA" ipv6 (Config.Proxied s) ttl] else [])%list.
Proof.
  intros fqdn ttl. unfold subdomainUnit. fold fqdn ttl.
  pose proof (upsertRecord_upserts zoneID fqdn "A" ipv4 (Config.Proxied s) ttl w) as H4.
  destruct (upsertRecord env token zoneID fqdn "A" ipv4 _ ttl w) as [[r4 w1] tr4].
  cbn [snd] in H4.
  destruct (negb (String.eqb ipv6 "")).
  - pose proof (upsertRecord_upserts zoneID fqdn "AAAA" ipv6 (Config.Proxied s) ttl w1)
      as H6.
    destruct (upsertRecord env token zoneID fqdn "AAAA" ipv6 _ ttl w1) as [[r6 w2] tr6].
    cbn [snd] in *. rewrite !upserts_app, H4, H6.
    destruct r4, r6; reflexivity.
  - cbn [snd]. rewrite upserts_app, H4. destruct r4; reflexivity.
Qed.

(** Every failed upsert of a subdomain unit is logged by the unit. *)
Lemma subdomainUnit_logs zoneID baseDomain ipv4 ipv6 zoneTTL s w :
  let fqdn := fqdnOf env baseDomain s in
  let ttl := if Config.TTL s =? 0 then zoneTTL else Config.TTL s in
  let unit := subdomainUnit env token zoneID baseDomain ipv4 ipv6 zoneTTL s w in
  let upsertA := upsertRecord env token zoneID fqdn "A" ipv4 (Config.Proxied s) ttl w in
  let upsertAAAA :=
    upsertRecord env token zoneID fqdn "AAAA" ipv6 (Config.Proxied s) ttl
                 (snd (fst upsertA)) in
  (forall err, fst (fst upsertA) = Some err ->
     In (EvLog LevelError "failed to upsert A record"
           [("fqdn", VString fqdn); ("error", VError err)]) (snd unit))
  /\ (ipv6 <> "" -> forall err, fst (fst upsertAAAA) = Some err ->
        In (EvLog LevelError "failed to upsert AAAA record"
              [("fqdn", VString fqdn); ("error", VError err)]) (snd unit)).
Proof.
  intros fqdn ttl unit upsertA upsertAAAA.
  subst unit upsertAAAA upsertA. unfold subdomainUnit. fold fqdn ttl.
  destruct (upsertRecord env token zoneID fqdn "A" ipv4 _ ttl w) as [[r4 w1] tr4].
  cbn [fst snd].
  destruct (String.eqb ipv6 "") eqn:E6; cbn [negb].
  - apply String.eqb_eq in E6. split.
    + intros err ->. cbn [snd]. apply in_app_iff. right. left. reflexivity.
    + intros Hne. contradiction.
  - destruct (upsertRecord env token zoneID fqdn "AAAA" ipv6 _ ttl w1) as [[r6 w2] tr6].
    cbn [fst snd]. split.
    + intros err ->. apply in_app_iff. right. left. reflexivity.
    + intros _ err ->. apply in_app_iff. right. apply in_app_iff. right.
      apply in_app_iff. right. left. reflexivity.
Qed.

Lemma runUnits_units zoneID baseDomain ipv4 ipv6 zoneTTL subs : forall w,
  let units := snd (runUnits env token zoneID baseDomain ipv4 ipv6 zoneTTL subs w) in
  map fst units = subs
  /\ forall s tr, In (s, tr) units ->
       exists w0, tr = snd (subdomainUnit env token zoneID baseDomain ipv4 ipv6 zoneTTL s w0).
Proof.
  induction subs as [|s0 subs IH]; intros w; cbn [runUnits].
  - split; [reflexivity|]. intros s tr [].
  - destruct (subdomainUnit env token zoneID baseDomain ipv4 ipv6 zoneTTL s0 w)
      as [w1 tr0] eqn:Hu.
    specialize (IH w1).
    destruct (runUnits env token zoneID baseDomain ipv4 ipv6 zoneTTL subs w1)
      as [w2 units].
    cbn [snd map fst] in *. destruct IH as [IH1 IH2]. split.
    + now rewrite IH1.
    + intros s tr [Heq|Hin].
      * inversion Heq; subst. exists w. now rewrite Hu.
      * now apply IH2.
Qed.

(** The units of a zone are units of its subdomains, run with the ttl of
    the zone or else the default handed to [processZone]. *)
Lemma processZone_units zone ipv4 ipv6 defaultTTL concurrencyLimit w s tr :
  In (s, tr) (snd (processZone env token zone ipv4 ipv6 defaultTTL concurrencyLimit w)) ->
  exists baseDomain w0,
    tr = snd (subdomainUnit env token (Config.ZoneID zone) baseDomain ipv4 ipv6
                (if Config.ZoneTTL zone =? 0 then defaultTTL else Config.ZoneTTL zone)
                s w0).
Proof.
  unfold processZone.
  destruct (cfAPI env token "GET" _ None w) as [[[err|zoneData] w1] tr0];
    [intros []|].
  destruct (json_Unmarshal_Zone env zoneData) as [err|zoneResp]; [intros []|].
  destruct (negb (zone_Success zoneResp)); [intros []|].
  destruct (concurrencyLimit <? 0); [intros []|].
  destruct (_ && _); [intros []|].
  pose proof (runUnits_units (Config.ZoneID zone) (zone_Result_Name zoneResp) ipv4 ipv6
                (if Config.ZoneTTL zone =? 0 then defaultTTL else Config.ZoneTTL zone)
                (schedule env (Config.Subdomains zone)) w1) as [_ Hu].
  destruct (runUnits _ _ _ _ _ _ _ _ _) as [w2 units]. cbn [snd] in *.
  intros Hin. destruct (Hu _ _ Hin) as [w0 ->].
  now exists (zone_Result_Name zoneResp), w0.
Qed.

Lemma zoneWorker_units cfg z ipv4 ipv6 w :
  snd (Main.zoneWorker env token cfg z ipv4 ipv6 w)
  = snd (processZone env token z ipv4 ipv6
           (Config.DefaultTTL (Main.applyDefaults cfg))
           (Config.ConcurrencyLimit (Main.applyDefaults cfg)) w).
Proof.
  unfold Main.zoneWorker.
  destruct (processZone env token z ipv4 ipv6 _ _ w) as [[[e w1] tr] units].
  destruct e as [[err|]| |]; reflexivity.
Qed.

Lemma applyDefaults_DefaultTTL cfg :
  Config.DefaultTTL (Main.applyDefaults cfg)
  = if Config.DefaultTTL cfg =? 0 then 300 else Config.DefaultTTL cfg.
Proof.
  unfold Main.applyDefaults.
  destruct (Config.DefaultTTL cfg =? 0); cbn [Config.ConcurrencyLimit];
    destruct (Config.ConcurrencyLimit cfg =? 0); reflexivity.
Qed.

(** A validated configuration has a positive concurrency limit once the
    defaults are applied: the semaphore of every zone has room. *)
Lemma applyDefaults_limit_positive cfg :
  Config.validateConfig cfg = None ->
  0 < Config.ConcurrencyLimit (Main.applyDefaults cfg).
Proof.
  unfold Config.validateConfig, Main.applyDefaults.
  destruct (List.length (Config.Zones cfg) =? 0)%nat; [discriminate|].
  destruct (Config.validateZones 0 (Config.Zones cfg)); [discriminate|].
  destruct (Config.ConcurrencyLimit cfg <? 0) eqn:Hneg; [discriminate|].
  intros _. apply Z.ltb_ge in Hneg.
  destruct (Config.DefaultTTL cfg =? 0); cbn [Config.ConcurrencyLimit];
    destruct (Config.ConcurrencyLimit cfg =? 0) eqn:Hz;
    cbn [Config.ConcurrencyLimit]; try lia;
    apply Z.eqb_neq in Hz; lia.
Qed.

(** C7.  Every call of [upsertRecord] made for a subdomain carries the
    effective ttl of the override chain: the subdomain's ttl if nonzero,
    else the zone's, else the configured default, else 300.  The unit of
    the subdomain makes such a call for the A record. *)
Theorem zoneWorker_effective_ttl cfg z ipv4 ipv6 w s tr :
  In (s, tr) (snd (Main.zoneWorker env token cfg z ipv4 ipv6 w)) ->
  let ttl := Spec.effectiveTtl (Config.TTL s) (Config.ZoneTTL z) (Config.DefaultTTL cfg) in
  (exists fqdn, In (EvUpsert (Config.ZoneID z) fqdn "A" ipv4 (Config.Proxied s) ttl) tr)
  /\ forall zoneID fqdn recordType ip proxied ttl',
       In (EvUpsert zoneID fqdn recordType ip proxied ttl') tr -> ttl' = ttl.
Proof.
  rewrite zoneWorker_units. intros Hin ttl.
  apply processZone_units in Hin as (baseDomain & w0 & ->).
  pose proof (subdomainUnit_upserts (Config.ZoneID z) baseDomain ipv4 ipv6
                (if Config.ZoneTTL z =? 0
                 then Config.DefaultTTL (Main.applyDefaults cfg) else Config.ZoneTTL z)
                s w0) as Hu.
  cbv zeta in Hu. rewrite applyDefaults_DefaultTTL in Hu.
  replace (if Config.TTL s =? 0
           then if Config.ZoneTTL z =? 0
                then if Config.DefaultTTL cfg =? 0 then 300 else Config.DefaultTTL cfg
                else Config.ZoneTTL z
           else Config.TTL s) with ttl in Hu.
  2:{ unfold ttl, Spec.effectiveTtl.
      destruct (Config.TTL s =? 0), (Config.ZoneTTL z =? 0),
        (Config.DefaultTTL cfg =? 0); reflexivity. }
  split.
  - exists (fqdnOf env baseDomain s). apply In_upserts.
    rewrite applyDefaults_DefaultTTL, Hu. left. reflexivity.
  - intros zoneID fqdn recordType ip proxied ttl' Hin.
    apply In_upserts in Hin. rewrite applyDefaults_DefaultTTL, Hu in Hin.
    destruct Hin as [Heq|Hin]; [inversion Heq; reflexivity|].
    destruct (negb (String.eqb ipv6 "")); [|destruct Hin].
    destruct Hin as [Heq|[]]. inversion Heq; reflexivity.
Qed.

(** C9.  When the base-domain lookup succeeds and the semaphore has room,
    [processZone] returns success after running one unit per subdomain,
    whatever the upserts return: an upsert error is logged by its unit and
    goes no further. *)
Theorem processZone_swallows_upsert_errors zone ipv4 ipv6 defaultTTL concurrencyLimit w
        zoneData w1 tr zoneResp :
  cfAPI env token "GET" (zoneURL (Config.ZoneID zone)) None w = (inr zoneData, w1, tr) ->
  json_Unmarshal_Zone env zoneData = inr zoneResp ->
  zone_Success zoneResp = true ->
  0 < concurrencyLimit ->
  let run := processZone env token zone ipv4 ipv6 defaultTTL concurrencyLimit w in
  let zoneID := Config.ZoneID zone in
  let baseDomain := zone_Result_Name zoneResp in
  let zoneTTL := if Config.ZoneTTL zone =? 0 then defaultTTL else Config.ZoneTTL zone in
  fst (fst (fst run)) = Returns None
  /\ map fst (snd run) = schedule env (Config.Subdomains zone)
  /\ forall s tr', In (s, tr') (snd run) ->
       exists w0,
         let fqdn := fqdnOf env baseDomain s in
         let ttl := if Config.TTL s =? 0 then zoneTTL else Config.TTL s in
         let upsertA :=
           upsertRecord env token zoneID fqdn "A" ipv4 (Config.Proxied s) ttl w0 in
         let upsertAAAA :=
           upsertRecord env token zoneID fqdn "AAAA" ipv6 (Config.Proxied s) ttl
                        (snd (fst upsertA)) in
         tr' = snd (subdomainUnit env token zoneID baseDomain ipv4 ipv6 zoneTTL s w0)
         /\ (forall err, fst (fst upsertA) = Some err ->
               In (EvLog LevelError "failed to upsert A record"
                     [("fqdn", VString fqdn); ("error", VError err)]) tr')
         /\ (ipv6 <> "" -> forall err, fst (fst upsertAAAA) = Some err ->
               In (EvLog LevelError "failed to upsert AAAA record"
                     [("fqdn", VString fqdn); ("error", VError err)]) tr').
Proof.
  intros Hzone Hjson Hok Hlimit run zoneID baseDomain zoneTTL.
  subst run. unfold processZone. rewrite Hzone, Hjson, Hok. cbn [negb].
  destruct (concurrencyLimit <? 0) eqn:Hneg; [apply Z.ltb_lt in Hneg; lia|].
  destruct (concurrencyLimit =? 0) eqn:Hzero; [apply Z.eqb_eq in Hzero; lia|].
  cbn [andb]. fold zoneID baseDomain zoneTTL.
  pose proof (runUnits_units zoneID baseDomain ipv4 ipv6 zoneTTL
                (schedule env (Config.Subdomains zone)) w1) as [Hmap Hu].
  destruct (runUnits env token zoneID baseDomain ipv4 ipv6 zoneTTL _ w1) as [w2 units].
  cbn [fst snd] in *.
  split; [reflexivity|]. split; [assumption|].
  intros s tr' Hin. destruct (Hu _ _ Hin) as [w0 ->]. exists w0.
  pose proof (subdomainUnit_logs zoneID baseDomain ipv4 ipv6 zoneTTL s w0) as Hlog.
  cbv zeta in *. tauto.
Qed.

End Reconciler.

Import ReconcilerScenario.

(** A list query that fails in transport: one HTTP call, and the failure
    is returned. *)
Lemma reconciler_calls_once_witness :
  upsertRecord env "token" "zone123" "test.example.com" "A" "1.2.3.4" true 300 flaky
  = (Some (Errorf_w "list records: "
             (Some (Errorf_w "execute request: " (Some dialTimeout)))),
     [ok "empty"; ok "created"],
     [EvUpsert "zone123" "test.example.com" "A" "1.2.3.4" true 300;
      EvHTTP (newRequest "token" "GET" (listURL "zone123" "A" "test.example.com") None)]).
Proof.
  destruct (reconciler_calls_once env "token") as (_ & H & _).
  apply (H "zone123" "test.example.com" "A" "1.2.3.4" true 300 flaky); reflexivity.
Defined.

(** C1 (as stated) fails: the list query of [upsertRecord] fails with a
    retryable transport error and [upsertRecord] reports the failure after
    that one HTTP call, leaving unread the answers a retry would have
    received.  Run under the Backoff Scheduler with its default policy, the
    same query is retried once and succeeds. *)
Lemma reconciler_does_not_retry :
  let run :=
    upsertRecord env "token" "zone123" "test.example.com" "A" "1.2.3.4" true 300 flaky in
  let scheduled := Retry.WithBackoff quiet "list records" Retry.DefaultConfig listQuery flaky in
  (exists e, fst (fst run) = Some e /\ Retry.isRetryableError e = true)
  /\ http_calls (snd run) = 1%nat
  /\ snd (fst run) = [ok "empty"; ok "created"]
  /\ Retry.result scheduled = None
  /\ Retry.calls (Retry.trace scheduled) = 2%nat.
Proof.
  cbv zeta. split; [eexists; split; vm_compute; reflexivity|].
  repeat split; vm_compute; reflexivity.
Qed.

(** The run of [TestUpsertRecordProxiedTTL]: a proxied record with the
    automatic ttl 1 is up to date for a wanted ttl of 300. *)
Lemma upsertRecord_upToDate_iff_witness :
  let run :=
    upsertRecord env "token" "zone123" "test.example.com" "A" "1.2.3.4" true 300
                 [ok "automatic"] in
  let existing := record "rec123" "1.2.3.4" true 1 in
  (fst (fst run) = None /\ writes (snd run) = [])
  <-> (Content existing = "1.2.3.4" /\ Proxied existing = true
       /\ (TTL existing = 300 \/ (true = true /\ TTL existing = 1))).
Proof.
  apply (upsertRecord_upToDate_iff env "token" "zone123" "test.example.com" "A"
           "1.2.3.4" true 300 [ok "automatic"] "automatic" []
           [EvHTTP (newRequest "token" "GET"
                      (listURL "zone123" "A" "test.example.com") None)]
           {| list_Result := [record "rec123" "1.2.3.4" true 1];
              list_Success := true; list_Errors := [] |}
           (record "rec123" "1.2.3.4" true 1) []); reflexivity.
Defined.

(** The run of [TestUpsertRecordMultipleFound]: the warning counts two
    records and the one write is the [PUT] to [rec1]. *)
Lemma upsertRecord_duplicates_witness :
  let run :=
    upsertRecord env "token" "zone123" "test.example.com" "A" "1.2.3.4" true 300
                 [ok "two"; ok "updated"] in
  let put :=
    {| req_Method := "PUT";
       req_URL := "https://api.cloudflare.com/client/v4/zones/zone123/dns_records/rec1";
       req_Authorization := "Bearer token";
       req_ContentType := "application/json";
       req_Body := Some {| ID := ""; Type_ := "A"; Name := "test.example.com";
                           Content := "1.2.3.4"; Proxied := true; TTL := 300 |} |} in
  In (EvLog LevelWarn "multiple records found, updating the first one"
        [("fqdn", VString "test.example.com"); ("type", VString "A");
         ("count", VInt 2)]) (snd run)
  /\ (forall req, In (EvHTTP req) (snd run) -> req_Method req = "GET" \/ req = put)
  /\ writes (snd run) = [EvHTTP put]
  /\ fst (fst run) = None.
Proof.
  pose proof (upsertRecord_duplicates env "token" "zone123" "test.example.com" "A"
                "1.2.3.4" true 300 [ok "two"; ok "updated"] "two" [ok "updated"]
                [EvHTTP (newRequest "token" "GET"
                           (listURL "zone123" "A" "test.example.com") None)]
                {| list_Result := [record "rec1" "5.6.7.8" true 300;
                                   record "rec2" "5.6.7.8" true 300];
                   list_Success := true; list_Errors := [] |}
                (record "rec1" "5.6.7.8" true 300) (record "rec2" "5.6.7.8" true 300) []
                eq_refl eq_refl eq_refl eq_refl) as (Hwarn & Hall & _ & Hput & _).
  split; [exact Hwarn|]. split; [exact Hall|].
  split; [|reflexivity].
  apply Hput; [|reflexivity].
  intros (Hc & _). discriminate Hc.
Defined.

(** With no ttl set at any level, the unit of [www] upserts with 300. *)
Lemma zoneWorker_effective_ttl_witness :
  (exists fqdn, In (EvUpsert "zone123" fqdn "A" "1.2.3.4" true 300) wwwTrace)
  /\ forall zoneID fqdn recordType ip proxied ttl',
       In (EvUpsert zoneID fqdn recordType ip proxied ttl') wwwTrace -> ttl' = 300.
Proof.
  apply (zoneWorker_effective_ttl env "token" config123 zone123 "1.2.3.4" "" zoneScript
           www wwwTrace).
  vm_compute. left. reflexivity.
Defined.

(** A zone whose first create request fails in transport: [processZone]
    returns success after both units. *)
Lemma processZone_swallows_upsert_errors_witness :
  let run := processZone env "token" zone123 "1.2.3.4" "" 300 10 zoneScript in
  fst (fst (fst run)) = Returns None
  /\ map fst (snd run) = Config.Subdomains zone123.
Proof.
  pose proof (processZone_swallows_upsert_errors env "token" zone123 "1.2.3.4" "" 300 10
                zoneScript "zone" (tl zoneScript)
                [EvHTTP (newRequest "token" "GET" (zoneURL "zone123") None)]
                {| zone_Result_Name := "example.com"; zone_Success := true;
                   zone_Errors := [] |}
                eq_refl eq_refl eq_refl eq_refl) as (Hret & Hmap & _).
  split; [exact Hret|exact Hmap].
Defined.

End ReconcilerFacts.

(** ** The tests of the repository, replayed on the model *)

Module Tests.
Import Go Retry.

(** [TestContains] and [TestFindSubstring]. *)
Example TestContains :
  map (fun c => contains (fst c) (snd c))
      [("hello world", "world"); ("hello world", "hello"); ("hello world", "lo wo");
       ("hello world", "xyz"); ("test", "test"); ("test", "testing"); ("", "test");
       ("test", "")]
  = [true; true; true; false; true; false; false; true].
Proof. reflexivity. Qed.

Example TestFindSubstring :
  map (fun c => findSubstring (fst c) (snd c))
      [("hello world", "world"); ("hello world", "hello"); ("hello world", "lo wo");
       ("hello world", "xyz"); ("test", "test"); ("test", "testing")]
  = [true; true; true; false; true; false].
Proof. reflexivity. Qed.

(** [TestIsRetryableError]. *)
Example TestIsRetryableError :
  map isRetryableError
      [netError "lookup : " true true;
       netError "lookup : " false true;
       errorString "connection refused";
       errorString "connection reset by peer";
       errorString "no such host";
       errorString "request timeout";
       errorString "i/o timeout";
       errorString "permanent failure";
       errorString "invalid input"]
  = [true; true; true; true; true; true; true; false; false].
Proof. reflexivity. Qed.

Import RetryScenario.

Example TestWithBackoffSuccess :
  let run := WithBackoff background "test" threeShortRetries succeeds start in
  result run = None /\ calls (trace run) = 1%nat.
Proof. split; reflexivity. Qed.

Example TestRetryWithBackoffEventualSuccess :
  let run := WithBackoff background "test" threeShortRetries succeedsOnThird start in
  result run = None /\ calls (trace run) = 3%nat.
Proof. split; reflexivity. Qed.

Example TestRetryWithBackoffMaxRetriesExceeded :
  let run := WithBackoff background "test" twoRetries alwaysTimeout start in
  result run = Some (exhausted "test" twoRetries (Some dnsTimeout))
  /\ calls (trace run) = 3%nat.
Proof. split; reflexivity. Qed.

Example TestRetryWithBackoffContextCancelled :
  let run := WithBackoff runtime "test" threeRetries cancelOnFirstCall start in
  result run = Some (cancelledCall "test" context_Canceled)
  /\ Unwrap (cancelledCall "test" context_Canceled) = Some context_Canceled.
Proof. split; reflexivity. Qed.

Example TestRetryWithBackoffNonRetryableError :
  let run := WithBackoff background "test" threeShortRetries permanent start in
  result run = Some (nonRetryable "test" (errorString "permanent error"))
  /\ calls (trace run) = 1%nat.
Proof. split; reflexivity. Qed.

Import Cloudflare ReconcilerScenario.

Example TestUpsertRecordCreate :
  let run := upsertTest [ok "empty"; ok "created"] in
  fst (fst run) = None
  /\ writes (snd run)
     = [EvHTTP (newRequest "token" "POST" (createURL "zone123") (Some wanted))].
Proof. split; reflexivity. Qed.

Example TestUpsertRecordUpdate :
  let run := upsertTest [ok "stale"; ok "updated"] in
  fst (fst run) = None
  /\ writes (snd run)
     = [EvHTTP (newRequest "token" "PUT" (updateURL "zone123" "rec123") (Some wanted))].
Proof. split; reflexivity. Qed.

Example TestUpsertRecordNoChange :
  let run := upsertTest [ok "current"] in
  fst (fst run) = None /\ http_calls (snd run) = 1%nat /\ writes (snd run) = [].
Proof. repeat split; reflexivity. Qed.

Example TestUpsertRecordProxiedTTL :
  let run := upsertTest [ok "automatic"] in
  fst (fst run) = None /\ http_calls (snd run) = 1%nat /\ writes (snd run) = [].
Proof. repeat split; reflexivity. Qed.

Example TestUpsertRecordMultipleFound :
  let run := upsertTest [ok "two"; ok "updated"] in
  fst (fst run) = None
  /\ writes (snd run)
     = [EvHTTP (newRequest "token" "PUT" (updateURL "zone123" "rec1") (Some wanted))].
Proof. split; reflexivity. Qed.

(** [TestProcessZone]: one lookup and, for each of the two subdomains, a
    list query and a create request. *)
Example TestProcessZone :
  let run :=
    processZone env "token" zone123 "1.2.3.4" "" 300 10
                [ok "zone"; ok "empty"; ok "created"; ok "empty"; ok "created"] in
  fst (fst (fst run)) = Returns None
  /\ http_calls (snd (fst run)) = 1%nat
  /\ map (fun u => http_calls (snd u)) (snd run) = [2%nat; 2%nat].
Proof. repeat split; reflexivity. Qed.

(** A limit of zero, which [main] never passes on, leaves every goroutine
    of the zone blocked on the semaphore; a negative one makes [make]
    panic. *)
Example processZone_without_room :
  fst (fst (fst (processZone env "token" zone123 "1.2.3.4" "" 300 0 zoneScript))) = Blocks
  /\ fst (fst (fst (processZone env "token" zone123 "1.2.3.4" "" 300 (-1) zoneScript)))
     = Panics.
Proof. split; reflexivity. Qed.

(** The table of the configuration tests that concerns the limit. *)
Example TestValidate_limit :
  Config.validateConfig config123 = None
  /\ Config.validateConfig
       {| Config.Zones := [zone123]; Config.DefaultTTL := 0;
          Config.ConcurrencyLimit := -1 |}
     = Some (errorString "concurrency_limit must be positive")
  /\ Config.validateConfig
       {| Config.Zones := []; Config.DefaultTTL := 0; Config.ConcurrencyLimit := 0 |}
     = Some (errorString "no zones configured").
Proof. repeat split; reflexivity. Qed.

End Tests.

(** * Further properties of the code *)

(** ** Substring search and classification *)

Module SearchFacts.
Import Go Retry Spec StringFacts.

(** X1.  [contains s substr] holds exactly when [substr] occurs in [s],
    the empty string occurring everywhere. *)
Theorem contains_decides_occurrence (s substr : string) :
  contains s substr = true <-> has_substring s substr.
Proof. exact (contains_spec s substr). Qed.

Lemma findSubstring_spec (s substr : string) :
  findSubstring s substr = true <-> has_substring s substr.
Proof.
  unfold findSubstring. split.
  - apply findSubstring_from_sound.
  - intros (pre & post & ->).
    apply findSubstring_from_complete with (j := String.length pre).
    + rewrite !length_append. lia.
    + apply slice_at.
Qed.

(** X2.  [findSubstring] is a complete search on its own, also when
    [substr] is longer than [s] or empty: the length test and the
    equality, prefix and suffix tests of [contains] never change the
    answer. *)
Theorem contains_is_findSubstring (s substr : string) :
  contains s substr = findSubstring s substr.
Proof.
  destruct (contains s substr) eqn:Hc, (findSubstring s substr) eqn:Hf;
    try reflexivity.
  - apply contains_spec, findSubstring_spec in Hc. congruence.
  - apply findSubstring_spec, contains_spec in Hf. congruence.
Qed.

Lemma has_substring_prefixed (prefix s p : string) :
  has_substring s p -> has_substring (prefix ++ s) p.
Proof.
  intros (pre & post & ->). exists (prefix ++ pre), post.
  now rewrite append_assoc.
Qed.

(** X3.  An error built by [fmt.Errorf] with [%w] is classified by its
    message alone, whatever the wrapped error answers to [Timeout()] and
    [Temporary()]; and an error whose message names a retryable pattern
    stays retryable under any prefix. *)
Theorem wrapped_error_classified_by_message (prefix : string) (e : error) :
  (isRetryableError (Errorf_w prefix (Some e)) = true
   <-> exists p, In p retryablePatterns /\ has_substring (prefix ++ Error e) p)
  /\ ((exists p, In p retryablePatterns /\ has_substring (Error e) p) ->
      isRetryableError (Errorf_w prefix (Some e)) = true).
Proof.
  assert (H : isRetryableError (Errorf_w prefix (Some e)) = true
              <-> exists p, In p retryablePatterns /\ has_substring (prefix ++ Error e) p).
  { unfold Errorf_w, isRetryableError. cbn [Error].
    apply ClassifyFacts.existsb_contains. }
  split; [exact H|].
  intros (p & Hin & Hp). apply H. exists p. split; [assumption|].
  now apply has_substring_prefixed.
Qed.

(** A timeout of the HTTP client, as [cfAPI] and [getIP] wrap it: the
    wrapped error is a timeout for [net.Error], but the message spells
    "Timeout" with a capital and the wrapping is not retryable. *)
Example wrapped_client_timeout :
  let e := netError "context deadline exceeded (Client.Timeout exceeded while awaiting headers)"
                    true true in
  isRetryableError e = true
  /\ isRetryableError (Errorf_w "execute request: " (Some e)) = false.
Proof. split; reflexivity. Qed.

End SearchFacts.

(** ** More on the retry loop *)

Module RetryExtras.
Import Go Retry Spec Measures LoopFacts.

Section Loop.
Context {W : Type}.
Variable rt : Runtime W.
Variable operation : string.
Variable config : Config.
Variable fn : W -> option error * W.

(** One iteration of the loop with the worlds it goes through. *)
Lemma loop_step remaining attempt lastErr w r w' tr :
  loop rt operation config fn (S remaining) attempt lastErr w = (r, w', tr) ->
  exists c w1 pre,
    beforeRetry rt config attempt lastErr w = (c, w1, pre)
    /\ match c with
       | Some e => r = Some e /\ w' = w1 /\ tr = pre
       | None =>
           exists res w2 v post,
             fn w1 = (res, w2)
             /\ afterCall rt operation attempt res w2 = (v, post)
             /\ match v with
                | inl r0 => r = r0 /\ w' = w2
                            /\ tr = (pre ++ EvCall attempt res :: post)%list
                | inr err =>
                    exists tr3,
                      loop rt operation config fn remaining (attempt + 1) (Some err) w2
                      = (r, w', tr3)
                      /\ tr = (pre ++ EvCall attempt res :: post ++ tr3)%list
                end
       end.
Proof.
  intros H. cbn [loop] in H.
  destruct (beforeRetry rt config attempt lastErr w) as [[c w1] pre].
  exists c, w1, pre. split; [reflexivity|].
  destruct c as [e|].
  - inversion H; subst. repeat split.
  - destruct (fn w1) as [res w2] eqn:Hf.
    destruct (afterCall rt operation attempt res w2) as [v post] eqn:Ha.
    exists res, w2, v, post. split; [reflexivity|]. split; [assumption|].
    destruct v as [r0|err].
    + inversion H; subst. repeat split.
    + destruct (loop rt operation config fn remaining (attempt + 1) (Some err) w2)
        as [[r3 w3] tr3].
      inversion H; subst. exists tr3. split; reflexivity.
Qed.

Ltac cases H :=
  apply loop_S_inv in H;
  destruct H as
    [(Hpos & backoff & cause & w0 & Hsel & -> & ->)
    |(pre & w1 & w2 & res & Hpre & Hfn &
      [(-> & -> & post & -> & Hpost)
      |(err & -> &
        [(cause & Hctx & -> & ->)
        |[(Hctx & Hre & -> & ->)
         |(Hctx & Hre & tr3 & Hloop & ->)]])])].

Ltac members H :=
  repeat (rewrite in_app_iff in H || simpl in H);
  repeat match type of H with _ \/ _ => destruct H as [H|H] end;
  try discriminate H; try contradiction.

Ltac outside Hpre Hin :=
  let b := fresh "b" in
  let E := fresh "E" in
  destruct (waited_In _ _ _ _ Hpre Hin) as (_ & b & [E|E]); discriminate E.

(** A failure that is not retryable ends the run. *)
Lemma loop_non_retryable remaining : forall attempt lastErr w r w' tr,
  loop rt operation config fn remaining attempt lastErr w = (r, w', tr) ->
  forall i e, In (EvCall i (Some e)) tr -> In (EvCtxErr i None) tr ->
  isRetryableError e = false ->
  r = Some (nonRetryable operation e) /\ attempt <= i
  /\ calls tr = Z.to_nat (i - attempt + 1).
Proof.
  induction remaining as [|remaining IH];
    intros attempt lastErr w r w' tr H i e Hin Hctx0 Hnr.
  - inversion H; subst. destruct Hin.
  - cases H.
    + members Hin.
    + apply in_app_iff in Hin as [Hin|Hin]; [outside Hpre Hin|].
      destruct Hin as [Hin|Hin]; [discriminate|]. apply Hpost in Hin. discriminate.
    + apply in_app_iff in Hctx0 as [Hc|Hc]; [outside Hpre Hc|]. members Hc.
    + apply in_app_iff in Hin as [Hin|Hin]; [outside Hpre Hin|]. members Hin.
      inversion Hin; subst.
      rewrite calls_app, (waited_calls _ _ _ Hpre). unfold calls. simpl.
      replace (i - i + 1) with 1 by lia. repeat split. lia.
    + pose proof (loop_calls_range _ _ _ _ _ _ _ _ _ _ _ Hloop) as Hrange.
      apply in_app_iff in Hin as [Hin|Hin]; [outside Hpre Hin|].
      apply in_app_iff in Hin as [Hin|Hin].
      * members Hin. inversion Hin; subst. congruence.
      * apply in_app_iff in Hctx0 as [Hc|Hc]; [outside Hpre Hc|].
        apply in_app_iff in Hc as [Hc|Hc].
        -- members Hc. inversion Hc; subst. specialize (Hrange _ _ Hin). lia.
        -- destruct (IH _ _ _ _ _ _ Hloop _ _ Hin Hc Hnr) as (-> & Hle & Hcalls).
           rewrite !calls_app, (waited_calls _ _ _ Hpre), Hcalls.
           unfold calls at 1. simpl. repeat split; lia.
Qed.

(** X4.  When the invocation of attempt [i] fails with an error that is
    not retryable and the context is not cancelled, [WithBackoff] returns
    at once the "non-retryable error" that wraps it: there are [i + 1]
    invocations and no attempt [i + 1], however many retries remain. *)
Theorem WithBackoff_non_retryable (w : W) (i : Z) (e : error) :
  let run := WithBackoff rt operation config fn w in
  In (EvCall i (Some e)) (trace run) ->
  In (EvCtxErr i None) (trace run) ->
  isRetryableError e = false ->
  result run = Some (nonRetryable operation e)
  /\ Unwrap (nonRetryable operation e) = Some e
  /\ calls (trace run) = Z.to_nat (i + 1)
  /\ forall j x, In (EvCall j x) (trace run) -> j <= i.
Proof.
  intros run Hin Hctx0 Hnr.
  pose proof (run_eq rt operation config fn w) as Hrun. fold run in Hrun.
  destruct (loop_non_retryable _ _ _ _ _ _ _ Hrun _ _ Hin Hctx0 Hnr)
    as (Hres & _ & Hcalls).
  rewrite Z.sub_0_r in Hcalls.
  split; [assumption|]. split; [reflexivity|]. split; [assumption|].
  intros j x Hj.
  pose proof (loop_calls_range _ _ _ _ _ _ _ _ _ _ _ Hrun _ _ Hj). lia.
Qed.

Lemma loop_calls_le remaining : forall attempt lastErr w r w' tr,
  loop rt operation config fn remaining attempt lastErr w = (r, w', tr) ->
  (calls tr <= remaining)%nat.
Proof.
  induction remaining as [|remaining IH]; intros attempt lastErr w r w' tr H.
  - inversion H; subst. unfold calls. simpl. lia.
  - cases H.
    + unfold calls. simpl. lia.
    + rewrite calls_app, (waited_calls _ _ _ Hpre), calls_cons_call,
        (succeeded_calls _ _ Hpost). lia.
    + rewrite calls_app, (waited_calls _ _ _ Hpre). unfold calls. simpl. lia.
    + rewrite calls_app, (waited_calls _ _ _ Hpre). unfold calls. simpl. lia.
    + specialize (IH _ _ _ _ _ _ Hloop).
      rewrite !calls_app, (waited_calls _ _ _ Hpre).
      unfold calls at 1. simpl. lia.
Qed.

(** X5.  With [MaxRetries] below the largest [int], so that the attempt
    counter cannot overflow, and whatever [fn], the context and the random
    source do, [WithBackoff] invokes [fn] at most [MaxRetries + 1] times,
    and not at all when [MaxRetries] is negative: it then returns a "max
    retries exceeded" error that wraps no error. *)
Theorem WithBackoff_invocations_bounded (w : W) :
  MaxRetries config < max_int64 ->
  let run := WithBackoff rt operation config fn w in
  Z.of_nat (calls (trace run)) <= Z.max 0 (MaxRetries config + 1)
  /\ (MaxRetries config < 0 ->
      run = (Some (errorString (operation ++ ": max retries ("
                                  ++ itoa (MaxRetries config)
                                  ++ ") exceeded: %!w(<nil>)")), w, [])
      /\ forall e, result run = Some e -> Unwrap e = None).
Proof.
  intros _ run. split.
  - pose proof (run_eq rt operation config fn w) as Hrun. fold run in Hrun.
    apply loop_calls_le in Hrun. lia.
  - intros Hneg.
    assert (Hrun : run = (Some (errorString (operation ++ ": max retries ("
                                  ++ itoa (MaxRetries config)
                                  ++ ") exceeded: %!w(<nil>)")), w, [])).
    { unfold run, WithBackoff.
      replace (Z.to_nat (MaxRetries config + 1)) with 0%nat by lia.
      cbn [loop]. unfold exhausted, Errorf_w.
      now rewrite !StringFacts.append_assoc. }
    split; [assumption|].
    rewrite Hrun. unfold result. cbn [fst]. intros e He. inversion He. reflexivity.
Qed.

(** A run that ends in success ends with a successful invocation. *)
Lemma loop_result_none remaining : forall attempt lastErr w w' tr,
  loop rt operation config fn remaining attempt lastErr w = (None, w', tr) ->
  exists i w1, In (EvCall i None) tr /\ fn w1 = (None, w').
Proof.
  induction remaining as [|remaining IH]; intros attempt lastErr w w' tr H.
  - discriminate H.
  - apply loop_step in H as (c & w1 & pre & _ & H).
    destruct c as [e|]; [destruct H as [H _]; discriminate|].
    destruct H as (res & w2 & v & post & Hfn & Ha & H).
    destruct v as [r0|err].
    + destruct H as (<- & -> & ->).
      apply (afterCall_inv rt operation fn) in Ha
        as [(-> & _ & _)|(err & -> & _ & Hv)].
      * exists attempt, w1. split; [|assumption].
        apply in_app_iff. right. left. reflexivity.
      * revert Hv. destruct (ctx_Err rt w2); [discriminate|].
        destruct (isRetryableError err); discriminate.
    + destruct H as (tr3 & Hloop & ->).
      destruct (IH _ _ _ _ _ Hloop) as (i & w0 & Hin & Hw0).
      exists i, w0. split; [|assumption].
      apply in_app_iff. right. right. apply in_app_iff. now right.
Qed.

(** X6.  [WithBackoff] reports success exactly when an invocation of [fn]
    succeeded, and the world it leaves is the one that this invocation
    left: nothing runs after the success. *)
Theorem WithBackoff_success_iff (w : W) :
  let run := WithBackoff rt operation config fn w in
  (result run = None <-> exists i, In (EvCall i None) (trace run))
  /\ (result run = None -> exists w1, fn w1 = (None, snd (fst run))).
Proof.
  intros run.
  pose proof (run_eq rt operation config fn w) as Hrun. fold run in Hrun.
  assert (Hnone : result run = None ->
                  exists i w1, In (EvCall i None) (trace run)
                               /\ fn w1 = (None, snd (fst run))).
  { intros Hres. rewrite Hres in Hrun. exact (loop_result_none _ _ _ _ _ _ Hrun). }
  split; [split|].
  - intros Hres. destruct (Hnone Hres) as (i & _ & Hin & _). now exists i.
  - intros [i Hin].
    now destruct (loop_success _ _ _ _ _ _ _ _ _ _ _ Hrun _ Hin) as (Hres & _).
  - intros Hres. destruct (Hnone Hres) as (_ & w1 & _ & Hw1). now exists w1.
Qed.

(** Every attempt after the first follows a retryable failure. *)
Lemma loop_retries remaining : forall attempt lastErr w r w' tr,
  loop rt operation config fn remaining attempt lastErr w = (r, w', tr) ->
  (forall j x, In (EvCall j x) tr -> attempt < j ->
     exists e, In (EvCall (j - 1) (Some e)) tr /\ isRetryableError e = true
               /\ In (EvCtxErr (j - 1) None) tr)
  /\ (forall j d l, In (EvRetryWarn j d l) tr ->
        (j = attempt /\ l = lastErr)
        \/ (attempt < j /\ exists e, l = Some e /\ In (EvCall (j - 1) (Some e)) tr)).
Proof.
  induction remaining as [|remaining IH]; intros attempt lastErr w r w' tr H.
  - inversion H; subst. split; intros; contradiction.
  - cases H.
    + split; [intros j x Hin|intros j d l Hin]; members Hin.
      inversion Hin; subst. left. split; reflexivity.
    + split; [intros j x Hin Hlt|intros j d l Hin].
      * apply in_app_iff in Hin as [Hin|Hin]; [outside Hpre Hin|].
        destruct Hin as [Hin|Hin]; [inversion Hin; lia|].
        apply Hpost in Hin. discriminate.
      * apply in_app_iff in Hin as [Hin|Hin].
        -- destruct (waited_In _ _ _ _ Hpre Hin) as (_ & b & [E|E]);
             inversion E; subst. left. split; reflexivity.
        -- destruct Hin as [Hin|Hin]; [discriminate|].
           apply Hpost in Hin. discriminate.
    + split; [intros j x Hin Hlt|intros j d l Hin].
      * apply in_app_iff in Hin as [Hin|Hin]; [outside Hpre Hin|].
        members Hin. inversion Hin; lia.
      * apply in_app_iff in Hin as [Hin|Hin]; [|members Hin].
        destruct (waited_In _ _ _ _ Hpre Hin) as (_ & b & [E|E]);
          inversion E; subst. left. split; reflexivity.
    + split; [intros j x Hin Hlt|intros j d l Hin].
      * apply in_app_iff in Hin as [Hin|Hin]; [outside Hpre Hin|].
        members Hin. inversion Hin; lia.
      * apply in_app_iff in Hin as [Hin|Hin]; [|members Hin].
        destruct (waited_In _ _ _ _ Hpre Hin) as (_ & b & [E|E]);
          inversion E; subst. left. split; reflexivity.
    + destruct (IH _ _ _ _ _ _ Hloop) as [IH1 IH2].
      pose proof (loop_calls_range _ _ _ _ _ _ _ _ _ _ _ Hloop) as Hrange.
      assert (Hhere : In (EvCall attempt (Some err))
                         (pre ++ [EvCall attempt (Some err); EvCtxErr attempt None]
                              ++ tr3)
                      /\ In (EvCtxErr attempt None)
                            (pre ++ [EvCall attempt (Some err); EvCtxErr attempt None]
                                 ++ tr3)).
      { split; apply in_app_iff; right; [left|right; left]; reflexivity. }
      assert (Hlift : forall ev, In ev tr3 ->
                        In ev (pre ++ [EvCall attempt (Some err); EvCtxErr attempt None]
                                   ++ tr3)).
      { intros ev Hev. apply in_app_iff. right. apply in_app_iff. now right. }
      split; [intros j x Hin Hlt|intros j d l Hin].
      * apply in_app_iff in Hin as [Hin|Hin]; [outside Hpre Hin|].
        apply in_app_iff in Hin as [Hin|Hin]; [members Hin; inversion Hin; lia|].
        destruct (Z.eq_dec j (attempt + 1)) as [->|Hne].
        -- exists err. replace (attempt + 1 - 1) with attempt by lia.
           split; [apply Hhere|]. split; [assumption|apply Hhere].
        -- specialize (Hrange _ _ Hin).
           destruct (IH1 _ _ Hin ltac:(lia)) as (e & He & Hre' & Hc).
           exists e. split; [now apply Hlift|]. split; [assumption|now apply Hlift].
      * apply in_app_iff in Hin as [Hin|Hin].
        -- destruct (waited_In _ _ _ _ Hpre Hin) as (_ & b & [E|E]);
             inversion E; subst. left. split; reflexivity.
        -- apply in_app_iff in Hin as [Hin|Hin]; [members Hin|].
           right. destruct (IH2 _ _ _ Hin) as [(-> & ->)|(Hlt & e & -> & He)].
           ++ split; [lia|]. exists err. split; [reflexivity|].
              replace (attempt + 1 - 1) with attempt by lia. apply Hhere.
           ++ split; [lia|]. exists e. split; [reflexivity|now apply Hlift].
Qed.

(** X7.  [WithBackoff] makes attempt [j > 0] only after attempt [j - 1]
    failed with a retryable error and the context was found not cancelled;
    the warning logged before attempt [j] reports that error. *)
Theorem WithBackoff_retries_follow_retryable_failure (w : W) :
  let run := WithBackoff rt operation config fn w in
  (forall j x, In (EvCall j x) (trace run) -> 0 < j ->
     exists e, In (EvCall (j - 1) (Some e)) (trace run)
               /\ isRetryableError e = true
               /\ In (EvCtxErr (j - 1) None) (trace run))
  /\ (forall j d l, In (EvRetryWarn j d l) (trace run) ->
        0 < j /\ exists e, l = Some e /\ In (EvCall (j - 1) (Some e)) (trace run)).
Proof.
  intros run.
  pose proof (run_eq rt operation config fn w) as Hrun. fold run in Hrun.
  destruct (loop_retries _ _ _ _ _ _ _ Hrun) as [H1 H2].
  split; [exact H1|].
  intros j d l Hin.
  destruct (H2 _ _ _ Hin) as [(-> & ->)|(Hlt & He)]; [|tauto].
  exfalso.
  assert (Hw : forall remaining lastErr wi r w' tr d0 l0,
             loop rt operation config fn remaining 0 lastErr wi = (r, w', tr) ->
             In (EvRetryWarn 0 d0 l0) tr -> False).
  { intros remaining lastErr wi r w' tr d0 l0 H0 Hin0.
    destruct remaining as [|remaining]; [inversion H0; subst; destruct Hin0|].
    destruct (loop_retries _ _ _ _ _ _ _ H0) as [_ Hw2].
    cases H0; try lia.
    - apply in_app_iff in Hin0 as [Hin0|Hin0].
      + destruct (waited_In _ _ _ _ Hpre Hin0) as (Hp & _). lia.
      + destruct Hin0 as [Hin0|Hin0]; [discriminate|]. apply Hpost in Hin0. discriminate.
    - apply in_app_iff in Hin0 as [Hin0|Hin0]; [|members Hin0].
      destruct (waited_In _ _ _ _ Hpre Hin0) as (Hp & _). lia.
    - apply in_app_iff in Hin0 as [Hin0|Hin0]; [|members Hin0].
      destruct (waited_In _ _ _ _ Hpre Hin0) as (Hp & _). lia.
    - apply in_app_iff in Hin0 as [Hin0|Hin0].
      + destruct (waited_In _ _ _ _ Hpre Hin0) as (Hp & _). lia.
      + apply in_app_iff in Hin0 as [Hin0|Hin0]; [members Hin0|].
        destruct (loop_retries _ _ _ _ _ _ _ Hloop) as [_ Hw3].
        destruct (Hw3 _ _ _ Hin0) as [(Hj & _)|(Hj & _)]; lia. }
  exact (Hw _ _ _ _ _ _ _ _ Hrun Hin).
Qed.

(** The delay of a wait is computed from two draws of the random
    source. *)
Lemma beforeRetry_delay attempt lastErr w c w1 pre :
  beforeRetry rt config attempt lastErr w = (c, w1, pre) ->
  (attempt <= 0 /\ pre = [])
  \/ (0 < attempt /\ exists w0 w0' done,
        pre = [EvRetryWarn attempt
                 (computeBackoff config attempt (fst (rand_Float64 rt w0))
                                 (fst (rand_Intn rt 2 w0'))) lastErr;
               EvWait attempt
                 (computeBackoff config attempt (fst (rand_Float64 rt w0))
                                 (fst (rand_Intn rt 2 w0'))) done]).
Proof.
  unfold beforeRetry.
  destruct (0 <? attempt) eqn:E.
  - apply Z.ltb_lt in E.
    destruct (rand_Float64 rt w) as [k wa] eqn:Hk.
    destruct (rand_Intn rt 2 wa) as [coin wb] eqn:Hcoin.
    destruct (select_Done rt _ wb) as [done wc].
    intros H. right. split; [assumption|].
    exists w, wa, done. rewrite Hk, Hcoin. cbn [fst].
    destruct done; inversion H; reflexivity.
  - apply Z.ltb_ge in E. intros H. inversion H; subst. left. tauto.
Qed.

(** With non-negative waits, a cap below [2^53] ns and a base that fits
    [int64], a delay is non-negative and at most one and a half times the
    cap. *)
Lemma delay_range (k u coin : Z) :
  1 <= k -> draw u ->
  0 <= InitialWait config -> 0 <= MaxWait config < 2 ^ 53 ->
  InitialWait config * 2 ^ (k - 1) <= max_int64 ->
  0 <= 2 * computeBackoff config k u coin <= 3 * MaxWait config.
Proof.
  intros Hk Hu Hi Hmax Hfit. unfold computeBackoff.
  rewrite BackoffFacts.base_exact by assumption.
  set (base := InitialWait config * 2 ^ (k - 1)).
  assert (Hbase : 0 <= base).
  { unfold base. apply Z.mul_nonneg_nonneg; [assumption|]. apply Z.pow_nonneg. lia. }
  set (capped := if base >? MaxWait config then MaxWait config else base).
  assert (Hc : 0 <= capped <= MaxWait config).
  { unfold capped. rewrite Z.gtb_ltb.
    destruct (MaxWait config <? base) eqn:E;
      [apply Z.ltb_lt in E|apply Z.ltb_ge in E]; lia. }
  destruct (BackoffFacts.jitterOf_bounds u capped Hu ltac:(lia)) as [Hj0 Hj1].
  destruct (coin =? 0);
    rewrite BackoffFacts.wrap64_small by (unfold min_int64, max_int64; lia); lia.
Qed.

Lemma waits_app (l1 l2 : list event) : waits (l1 ++ l2) = waits l1 + waits l2.
Proof.
  induction l1 as [|ev l1 IH]; [reflexivity|].
  destruct ev; cbn [waits app]; rewrite IH; lia.
Qed.

Lemma waits_succeeded attempts post :
  (forall ev, In ev post -> ev = EvSucceeded attempts) -> waits post = 0.
Proof.
  induction post as [|ev post IH]; intros H; [reflexivity|].
  rewrite (H ev) by (left; reflexivity). cbn [waits].
  apply IH. intros ev' Hin. apply H. now right.
Qed.

(** The time slept from attempt [attempt] on. *)
Lemma loop_waits remaining :
  (forall w, draw (fst (rand_Float64 rt w))) ->
  0 <= InitialWait config -> 0 <= MaxWait config < 2 ^ 53 ->
  InitialWait config * 2 ^ (MaxRetries config - 1) <= max_int64 ->
  forall attempt lastErr w r w' tr,
  0 <= attempt -> attempt + Z.of_nat remaining <= MaxRetries config + 1 ->
  loop rt operation config fn remaining attempt lastErr w = (r, w', tr) ->
  (forall j d x, In (EvWait j d x) tr -> 0 <= 2 * d <= 3 * MaxWait config)
  /\ 0 <= 2 * waits tr
     <= 3 * MaxWait config
        * Z.of_nat (remaining - (if attempt =? 0 then 1 else 0)).
Proof.
  intros Hdraw Hi Hmax Hfit.
  assert (Hd : forall j w0 w0', 1 <= j <= MaxRetries config ->
             0 <= 2 * computeBackoff config j (fst (rand_Float64 rt w0))
                                     (fst (rand_Intn rt 2 w0'))
             <= 3 * MaxWait config).
  { intros j w0 w0' Hj. apply delay_range; try assumption; try lia; [apply Hdraw|].
    assert (2 ^ (j - 1) <= 2 ^ (MaxRetries config - 1))
      by (apply Z.pow_le_mono_r; lia).
    nia. }
  induction remaining as [|remaining IH]; intros attempt lastErr w r w' tr Ha Hle H.
  - inversion H; subst. cbn [waits]. split; [intros j d x []|]. nia.
  - apply loop_step in H as (c & w1 & pre & Hb & H).
    apply beforeRetry_delay in Hb.
    assert (Hpre : (forall j d x, In (EvWait j d x) pre ->
                      0 <= 2 * d <= 3 * MaxWait config)
                   /\ 0 <= 2 * waits pre
                      <= 3 * MaxWait config * (if attempt =? 0 then 0 else 1)).
    { destruct Hb as [(Hz & ->)|(Hpos & w0 & w0' & done & ->)].
      - split; [intros j d x []|]. cbn [waits]. destruct (attempt =? 0); lia.
      - specialize (Hd attempt w0 w0' ltac:(lia)).
        split.
        + intros j d x [Hin|[Hin|[]]]; [discriminate|]. inversion Hin; subst. exact Hd.
        + cbn [waits]. destruct (attempt =? 0) eqn:E; [apply Z.eqb_eq in E; lia|lia]. }
    destruct Hpre as [Hpre1 Hpre2].
    assert (Hterm : forall res post,
               (forall ev, In ev post -> forall j d x, ev <> EvWait j d x) ->
               waits post = 0 ->
               (forall j d x, In (EvWait j d x) (pre ++ EvCall attempt res :: post) ->
                  0 <= 2 * d <= 3 * MaxWait config)
               /\ 0 <= 2 * waits (pre ++ EvCall attempt res :: post)
                  <= 3 * MaxWait config
                     * Z.of_nat (S remaining - (if attempt =? 0 then 1 else 0))).
    { intros res post Hno Hz. split.
      - intros j d x Hin. apply in_app_iff in Hin as [Hin|[Hin|Hin]].
        + exact (Hpre1 _ _ _ Hin).
        + discriminate.
        + exfalso. exact (Hno _ Hin _ _ _ eq_refl).
      - rewrite waits_app. cbn [waits]. rewrite Hz.
        destruct (attempt =? 0); nia. }
    destruct c as [e|].
    + destruct H as (_ & _ & ->). split; [exact Hpre1|].
      destruct (attempt =? 0); nia.
    + destruct H as (res & w2 & v & post & Hfn & Hafter & H).
      apply (afterCall_inv rt operation fn) in Hafter
        as [(-> & -> & Hpost)|(err & -> & -> & Hv)].
      * destruct H as (_ & _ & ->). apply Hterm.
        -- intros ev Hin j d x ->. apply Hpost in Hin. discriminate.
        -- exact (waits_succeeded _ _ Hpost).
      * destruct v as [r0|err'].
        -- destruct H as (_ & _ & ->). apply Hterm; [|reflexivity].
           intros ev [<-|[]] j d x. discriminate.
        -- destruct H as (tr3 & Hloop & ->).
           destruct (IH (attempt + 1) _ _ _ _ _ ltac:(lia) ltac:(lia) Hloop)
             as [IH1 IH2].
           replace (attempt + 1 =? 0) with false in IH2
             by (symmetry; apply Z.eqb_neq; lia).
           split.
           ++ intros j d x Hin. apply in_app_iff in Hin as [Hin|[Hin|[Hin|Hin]]].
              ** exact (Hpre1 _ _ _ Hin).
              ** discriminate.
              ** discriminate.
              ** exact (IH1 _ _ _ Hin).
           ++ rewrite waits_app. cbn [waits app].
              destruct (attempt =? 0); nia.
Qed.

(** X8.  With non-negative waits, [MaxWait] below [2^53] ns, a largest
    base [InitialWait * 2^(MaxRetries-1)] that fits [int64] and a random
    source within range, every delay of a run is non-negative and at most
    one and a half times [MaxWait], and the run sleeps at most
    [1.5 * MaxWait * MaxRetries] in total. *)
Theorem WithBackoff_sleep_bounded (w : W) :
  (forall w, draw (fst (rand_Float64 rt w))) ->
  0 <= MaxRetries config ->
  0 <= InitialWait config -> 0 <= MaxWait config < 2 ^ 53 ->
  InitialWait config * 2 ^ (MaxRetries config - 1) <= max_int64 ->
  let run := WithBackoff rt operation config fn w in
  (forall j d x, In (EvWait j d x) (trace run) -> 0 <= 2 * d <= 3 * MaxWait config)
  /\ 0 <= 2 * waits (trace run) <= 3 * MaxWait config * MaxRetries config.
Proof.
  intros Hdraw Hn Hi Hmax Hfit run.
  pose proof (run_eq rt operation config fn w) as Hrun. fold run in Hrun.
  destruct (loop_waits (Z.to_nat (MaxRetries config + 1)) Hdraw Hi Hmax Hfit
                       0 None w _ _ _ ltac:(lia) ltac:(lia) Hrun) as [H1 H2].
  split; [exact H1|]. cbn [Z.eqb] in H2.
  replace (Z.of_nat (Z.to_nat (MaxRetries config + 1) - 1)) with (MaxRetries config)
    in H2 by lia.
  exact H2.
Qed.

End Loop.

Import RetryScenario.

(** The run of [TestRetryWithBackoffMaxRetriesExceeded]: at most three
    invocations with two retries. *)
Lemma WithBackoff_invocations_bounded_witness :
  let run := WithBackoff background "test" twoRetries alwaysTimeout start in
  Z.of_nat (calls (trace run)) <= Z.max 0 (MaxRetries twoRetries + 1)
  /\ (MaxRetries twoRetries < 0 ->
      run = (Some (errorString ("test" ++ ": max retries ("
                                  ++ itoa (MaxRetries twoRetries)
                                  ++ ") exceeded: %!w(<nil>)")), start, [])
      /\ forall e, result run = Some e -> Unwrap e = None).
Proof.
  apply (WithBackoff_invocations_bounded background "test" twoRetries alwaysTimeout start).
  unfold max_int64. cbn. lia.
Defined.

(** The run of [TestRetryWithBackoffNonRetryableError]: one invocation,
    although three retries are allowed. *)
Lemma WithBackoff_non_retryable_witness :
  let run := WithBackoff background "test" threeShortRetries permanent start in
  let e := errorString "permanent error" in
  result run = Some (nonRetryable "test" e)
  /\ Unwrap (nonRetryable "test" e) = Some e
  /\ calls (trace run) = Z.to_nat (0 + 1)
  /\ forall j x, In (EvCall j x) (trace run) -> j <= 0.
Proof.
  apply (WithBackoff_non_retryable background "test" threeShortRetries permanent start
           0 (errorString "permanent error")).
  - vm_compute. left. reflexivity.
  - vm_compute. right. left. reflexivity.
  - reflexivity.
Defined.

(** The default policy sleeps at most 240 s in a run, each delay being at
    most 48 s. *)
Lemma WithBackoff_sleep_bounded_witness :
  let run := WithBackoff background "get IPv4" DefaultConfig alwaysTimeout start in
  (forall j d x, In (EvWait j d x) (trace run) ->
     0 <= 2 * d <= 3 * MaxWait DefaultConfig)
  /\ 0 <= 2 * waits (trace run) <= 3 * MaxWait DefaultConfig * MaxRetries DefaultConfig.
Proof.
  apply (WithBackoff_sleep_bounded background "get IPv4" DefaultConfig alwaysTimeout start).
  - intros w. split; [cbn; lia|reflexivity].
  - cbn. lia.
  - cbn. lia.
  - cbn. lia.
  - unfold max_int64. cbn. lia.
Defined.

End RetryExtras.

(** ** More on the reconciler *)

Module ReconcilerExtras.
Import Go Cloudflare ReconcilerFacts.

Section Reconciler.
Context {W : Type}.
Variable env : Env W.
Variable token : string.

(** X9.  [cfAPI] returns a body exactly when the request could be built,
    the transport delivered a response whose body could be read, and the
    status is below 400; the body is returned unchanged, after one call of
    the HTTP client.  A status of 400 or more is an error that names
    the status and the body. *)
Theorem cfAPI_returns_body_iff method url body w respBody w1 tr :
  (cfAPI env token method url body w = (inr respBody, w1, tr)
   <-> http_NewRequest_err env method url = None
       /\ tr = [EvHTTP (newRequest token method url body)]
       /\ exists resp,
            http_Do env (newRequest token method url body) w = (inr resp, w1)
            /\ Body resp = inr respBody /\ StatusCode resp < 400)
  /\ (forall resp,
        http_NewRequest_err env method url = None ->
        http_Do env (newRequest token method url body) w = (inr resp, w1) ->
        Body resp = inr respBody -> 400 <= StatusCode resp ->
        fst (fst (cfAPI env token method url body w))
        = inl (errorString ("HTTP " ++ itoa (StatusCode resp) ++ ": " ++ respBody))).
Proof.
  split; [split|].
  - intros H.
    apply cfAPI_inv in H as [(e & _ & He & _)|(Hnew & -> & outcome & Hdo & Hr)];
      [discriminate|].
    split; [assumption|]. split; [reflexivity|].
    destruct outcome as [err|resp]; [discriminate|].
    exists resp. split; [assumption|].
    destruct (Body resp) as [err|b]; [discriminate|].
    destruct (StatusCode resp >=? 400) eqn:Hs; [discriminate|].
    inversion Hr; subst. split; [reflexivity|].
    rewrite Z.geb_leb in Hs. apply Z.leb_gt in Hs. assumption.
  - intros (Hnew & -> & resp & Hdo & Hb & Hs).
    unfold cfAPI. rewrite Hnew, Hdo, Hb.
    replace (StatusCode resp >=? 400) with false; [reflexivity|].
    symmetry. rewrite Z.geb_leb. apply Z.leb_gt. assumption.
  - intros resp Hnew Hdo Hb Hs.
    unfold cfAPI. rewrite Hnew, Hdo, Hb.
    replace (StatusCode resp >=? 400) with true; [reflexivity|].
    symmetry. rewrite Z.geb_leb. apply Z.leb_le. assumption.
Qed.

(** The events of [cfAPI] are its one request. *)
Lemma cfAPI_events method url body w ev :
  In ev (snd (cfAPI env token method url body w)) ->
  ev = EvHTTP (newRequest token method url body).
Proof.
  destruct (cfAPI env token method url body w) as [[r w1] tr] eqn:H.
  apply cfAPI_inv in H as [(e & _ & _ & _ & ->)|(_ & -> & _)]; cbn [snd].
  - intros [].
  - intros [<-|[]]. reflexivity.
Qed.

Lemma duplicateWarning_events fqdn recordType found ev :
  In ev (duplicateWarning fqdn recordType found) -> exists lvl msg attrs, ev = EvLog lvl msg attrs.
Proof.
  unfold duplicateWarning. destruct (_ >? 1); [|intros []].
  intros [<-|[]]. eauto.
Qed.

(** The requests of [reconcile]: a [POST] to the collection when nothing
    was found, else a [PUT] to the first record found. *)
Lemma reconcile_requests zoneID fqdn recordType ip proxied ttl found w req :
  In (EvHTTP req)
     (snd (reconcile env token zoneID fqdn recordType ip proxied ttl found w)) ->
  match found with
  | [] => req = newRequest token "POST" (createURL zoneID)
                           (Some (desired fqdn recordType ip proxied ttl))
  | existing :: _ =>
      req = newRequest token "PUT" (updateURL zoneID (ID existing))
                       (Some (desired fqdn recordType ip proxied ttl))
  end.
Proof.
  unfold reconcile. destruct found as [|existing others].
  - pose proof (cfAPI_events "POST" (createURL zoneID)
                  (Some (desired fqdn recordType ip proxied ttl)) w) as Hev.
    destruct (cfAPI env token "POST" _ _ w) as [[[err|data] w1] tr]; cbn [snd] in *.
    + intros Hin. specialize (Hev _ Hin). now inversion Hev.
    + intros Hin. apply in_app_iff in Hin as [Hin|[Hin|[]]]; [|discriminate].
      specialize (Hev _ Hin). now inversion Hev.
  - pose proof (cfAPI_events "PUT" (updateURL zoneID (ID existing))
                  (Some (desired fqdn recordType ip proxied ttl)) w) as Hev.
    pose proof (duplicateWarning_events fqdn recordType (existing :: others)) as Hwarn.
    destruct (upToDate existing ip proxied ttl).
    + cbn [snd]. intros Hin. apply in_app_iff in Hin as [Hin|[Hin|[]]]; [|discriminate].
      destruct (Hwarn _ Hin) as (? & ? & ? & ?). discriminate.
    + destruct (cfAPI env token "PUT" _ _ w) as [[[err|data] w1] tr]; cbn [snd] in *.
      * intros Hin. apply in_app_iff in Hin as [Hin|Hin].
        -- destruct (Hwarn _ Hin) as (? & ? & ? & ?). discriminate.
        -- specialize (Hev _ Hin). now inversion Hev.
      * intros Hin. apply in_app_iff in Hin as [Hin|Hin].
        -- destruct (Hwarn _ Hin) as (? & ? & ? & ?). discriminate.
        -- apply in_app_iff in Hin as [Hin|[Hin|[]]]; [|discriminate].
           specialize (Hev _ Hin). now inversion Hev.
Qed.

(** The three requests of [upsertRecord]. *)
Lemma requests_of_upsertRecord zoneID fqdn recordType ip proxied ttl w req :
  In (EvHTTP req)
     (snd (upsertRecord env token zoneID fqdn recordType ip proxied ttl w)) ->
  req_Authorization req = "Bearer " ++ token
  /\ req_ContentType req = "application/json"
  /\ ((req_Method req = "GET" /\ req_URL req = listURL zoneID recordType fqdn
       /\ req_Body req = None)
      \/ (req_Method req = "POST" /\ req_URL req = createURL zoneID
          /\ req_Body req = Some (desired fqdn recordType ip proxied ttl))
      \/ (req_Method req = "PUT" /\ (exists id, req_URL req = updateURL zoneID id)
          /\ req_Body req = Some (desired fqdn recordType ip proxied ttl))).
Proof.
  unfold upsertRecord.
  pose proof (cfAPI_events "GET" (listURL zoneID recordType fqdn) None w) as Hget.
  assert (Hlist : forall tr,
             (forall ev, In ev tr ->
                ev = EvHTTP (newRequest token "GET" (listURL zoneID recordType fqdn) None)) ->
             In (EvHTTP req) (EvUpsert zoneID fqdn recordType ip proxied ttl :: tr) ->
             req = newRequest token "GET" (listURL zoneID recordType fqdn) None).
  { intros tr Htr [Hin|Hin]; [discriminate|]. specialize (Htr _ Hin). now inversion Htr. }
  assert (Hgoal : req = newRequest token "GET" (listURL zoneID recordType fqdn) None
                  \/ req = newRequest token "POST" (createURL zoneID)
                             (Some (desired fqdn recordType ip proxied ttl))
                  \/ (exists id, req = newRequest token "PUT" (updateURL zoneID id)
                                   (Some (desired fqdn recordType ip proxied ttl))) ->
                  req_Authorization req = "Bearer " ++ token
                  /\ req_ContentType req = "application/json"
                  /\ ((req_Method req = "GET" /\ req_URL req = listURL zoneID recordType fqdn
                       /\ req_Body req = None)
                      \/ (req_Method req = "POST" /\ req_URL req = createURL zoneID
                          /\ req_Body req = Some (desired fqdn recordType ip proxied ttl))
                      \/ (req_Method req = "PUT"
                          /\ (exists id, req_URL req = updateURL zoneID id)
                          /\ req_Body req = Some (desired fqdn recordType ip proxied ttl)))).
  { intros [->|[->|[id ->]]]; cbn; repeat split; eauto 10. }
  destruct (cfAPI env token "GET" _ None w) as [[[err|listData] w1] tr]; cbn [snd] in *.
  - intros Hin. apply Hgoal. left. exact (Hlist _ Hget Hin).
  - destruct (json_Unmarshal_List env listData) as [err|listResp].
    + intros Hin. apply Hgoal. left. exact (Hlist _ Hget Hin).
    + destruct (negb (list_Success listResp)).
      * intros Hin. apply Hgoal. left. exact (Hlist _ Hget Hin).
      * pose proof (reconcile_requests zoneID fqdn recordType ip proxied ttl
                      (list_Result listResp) w1 req) as Hrec.
        destruct (reconcile env token _ _ _ _ _ _ _ w1) as [[r w2] tr2]. cbn [snd] in *.
        intros [Hin|Hin]; [discriminate|].
        apply in_app_iff in Hin as [Hin|Hin].
        -- apply Hgoal. left. specialize (Hget _ Hin). now inversion Hget.
        -- specialize (Hrec Hin). apply Hgoal. right.
           destruct (list_Result listResp) as [|existing others]; [now left|].
           right. now exists (ID existing).
Qed.

(** X10.  Every request of [upsertRecord] carries the bearer token and the
    JSON content type and goes to the zone given: it is the [GET] of the
    list query for the type and the name, without body, a [POST] to the
    record collection of the zone, or a [PUT] to one record of that
    collection, the two writes carrying the record wanted, its id left
    empty.  No other method is used; nothing is ever deleted. *)
Theorem upsertRecord_requests zoneID fqdn recordType ip proxied ttl w req :
  In (EvHTTP req)
     (snd (upsertRecord env token zoneID fqdn recordType ip proxied ttl w)) ->
  let records := "https://api.cloudflare.com/client/v4/zones/" ++ zoneID
                   ++ "/dns_records" in
  let wanted := {| ID := ""; Type_ := recordType; Name := fqdn; Content := ip;
                   Proxied := proxied; TTL := ttl |} in
  req_Authorization req = "Bearer " ++ token
  /\ req_ContentType req = "application/json"
  /\ ((req_Method req = "GET"
       /\ req_URL req = records ++ "?type=" ++ recordType ++ "&name=" ++ fqdn
       /\ req_Body req = None)
      \/ (req_Method req = "POST" /\ req_URL req = records
          /\ req_Body req = Some wanted)
      \/ (req_Method req = "PUT" /\ (exists id, req_URL req = records ++ "/" ++ id)
          /\ req_Body req = Some wanted)).
Proof.
  intros Hin records wanted.
  destruct (requests_of_upsertRecord zoneID fqdn recordType ip proxied ttl w req Hin)
    as (Hauth & Htype & Hreq).
  split; [exact Hauth|]. split; [exact Htype|].
  assert (Hrecords : forall rest,
            "https://api.cloudflare.com/client/v4/zones/" ++ zoneID
              ++ "/dns_records" ++ rest = records ++ rest).
  { intros rest. unfold records.
    now rewrite !StringFacts.append_assoc. }
  destruct Hreq as [(Hm & Hu & Hb)|[(Hm & Hu & Hb)|(Hm & (id & Hu) & Hb)]].
  - left. split; [exact Hm|]. split; [|exact Hb].
    rewrite Hu. exact (Hrecords ("?type=" ++ recordType ++ "&name=" ++ fqdn)).
  - right. left. split; [exact Hm|]. split; [exact Hu|exact Hb].
  - right. right. split; [exact Hm|]. split; [|exact Hb].
    exists id. rewrite Hu. exact (Hrecords ("/" ++ id)).
Qed.

(** The run of [upsertRecord] when the list query finds no record. *)
Lemma creates_by_post zoneID fqdn recordType ip proxied ttl w
        listData w1 tr listResp :
  cfAPI env token "GET" (listURL zoneID recordType fqdn) None w = (inr listData, w1, tr) ->
  json_Unmarshal_List env listData = inr listResp ->
  list_Success listResp = true ->
  list_Result listResp = [] ->
  let run := upsertRecord env token zoneID fqdn recordType ip proxied ttl w in
  let post := newRequest token "POST" (createURL zoneID)
                         (Some (desired fqdn recordType ip proxied ttl)) in
  (forall ev, In ev (writes (snd run)) -> ev = EvHTTP post)
  /\ match fst (fst (cfAPI env token "POST" (createURL zoneID)
                           (Some (desired fqdn recordType ip proxied ttl)) w1)) with
     | inr _ =>
         fst (fst run) = None /\ writes (snd run) = [EvHTTP post]
         /\ In (EvLog LevelInfo "created record"
                  [("fqdn", VString fqdn); ("type", VString recordType);
                   ("ip", VString ip); ("proxied", VBool proxied);
                   ("ttl", VInt ttl)]) (snd run)
     | inl err => fst (fst run) = Some (Errorf_w "create record: " (Some err))
     end.
Proof.
  intros Hlist Hjson Hok Hres run post.
  assert (Htr : writes tr = []).
  { pose proof (cfAPI_GET_writes env token (listURL zoneID recordType fqdn) w) as Hg.
    now rewrite Hlist in Hg. }
  subst run. unfold upsertRecord. rewrite Hlist, Hjson, Hok. cbn [negb].
  rewrite Hres. unfold reconcile.
  destruct (cfAPI env token "POST" (createURL zoneID)
              (Some (desired fqdn recordType ip proxied ttl)) w1)
    as [[r w2] tr2] eqn:Hpost.
  apply cfAPI_inv in Hpost as [(e & Hnew & -> & -> & ->)|(Hnew & -> & outcome & Hdo & ->)].
  - cbn [fst snd]. split; [|reflexivity].
    rewrite writes_upsert, !writes_app, Htr. intros ev [].
  - fold post.
    assert (Hp : writes [EvHTTP post] = [EvHTTP post]) by reflexivity.
    destruct outcome as [err|resp]; [|destruct (Body resp) as [err|respBody];
      [|destruct (StatusCode resp >=? 400)]]; cbn [fst snd];
      rewrite writes_upsert, !writes_app, Htr, Hp; cbn [app].
    + split; [|reflexivity]. intros ev [<-|[]]. reflexivity.
    + split; [|reflexivity]. intros ev [<-|[]]. reflexivity.
    + split; [|reflexivity]. intros ev [<-|[]]. reflexivity.
    + change (writes [EvLog LevelInfo "created record"
                        [("fqdn", VString fqdn); ("type", VString recordType);
                         ("ip", VString ip); ("proxied", VBool proxied);
                         ("ttl", VInt ttl)]]) with (@nil event).
      cbn [app].
      split; [intros ev [<-|[]]; reflexivity|].
      split; [reflexivity|]. split; [reflexivity|].
      right. apply in_app_iff. right. right. left. reflexivity.
Qed.

(** X11.  When the list query finds no record, [upsertRecord] sends one
    [POST] of the record wanted, its id left empty, to the record
    collection of the zone, and no other request besides the [GET]: never
    a [PUT].  With a response below 400 whose body can be read it returns
    success, the [POST] being its one write, and logs the creation;
    otherwise it returns the "create record" error that wraps the
    transport failure, the read failure or the status with the body. *)
Theorem upsertRecord_creates zoneID fqdn recordType ip proxied ttl w
        listData w1 tr listResp :
  cfAPI env token "GET"
        ("https://api.cloudflare.com/client/v4/zones/" ++ zoneID
           ++ "/dns_records?type=" ++ recordType ++ "&name=" ++ fqdn) None w
  = (inr listData, w1, tr) ->
  json_Unmarshal_List env listData = inr listResp ->
  list_Success listResp = true ->
  list_Result listResp = [] ->
  let run := upsertRecord env token zoneID fqdn recordType ip proxied ttl w in
  let records := "https://api.cloudflare.com/client/v4/zones/" ++ zoneID
                   ++ "/dns_records" in
  let post := {| req_Method := "POST";
                 req_URL := records;
                 req_Authorization := "Bearer " ++ token;
                 req_ContentType := "application/json";
                 req_Body := Some {| ID := ""; Type_ := recordType; Name := fqdn;
                                     Content := ip; Proxied := proxied; TTL := ttl |} |} in
  let created := EvLog LevelInfo "created record"
                   [("fqdn", VString fqdn); ("type", VString recordType);
                    ("ip", VString ip); ("proxied", VBool proxied);
                    ("ttl", VInt ttl)] in
  let failed (cause : error) :=
    fst (fst run) = Some (Errorf_w "create record: " (Some cause)) in
  (forall req, In (EvHTTP req) (snd run) -> req_Method req = "GET" \/ req = post)
  /\ (http_NewRequest_err env "POST" records = None ->
      match fst (http_Do env post w1) with
      | inl err => failed (Errorf_w "execute request: " (Some err))
      | inr resp =>
          match Body resp with
          | inl err => failed (Errorf_w "read response: " (Some err))
          | inr body =>
              if StatusCode resp >=? 400
              then failed (errorString ("HTTP " ++ itoa (StatusCode resp) ++ ": " ++ body))
              else fst (fst run) = None /\ writes (snd run) = [EvHTTP post]
                   /\ In created (snd run)
          end
      end).
Proof.
  intros Hlist Hjson Hok Hres run records post created failed.
  destruct (creates_by_post zoneID fqdn recordType ip proxied ttl w listData w1 tr
              listResp Hlist Hjson Hok Hres) as (Hwrites & Hend).
  fold run in Hwrites, Hend.
  split.
  - intros req Hin.
    destruct (String.eqb (req_Method req) "GET") eqn:Hm;
      [left; now apply String.eqb_eq|right].
    assert (Hw : In (EvHTTP req) (writes (snd run))).
    { unfold writes. apply filter_In. split; [exact Hin|]. cbn [is_write].
      now rewrite Hm. }
    apply Hwrites in Hw. now injection Hw.
  - intros Hnew. unfold cfAPI in Hend.
    change (createURL zoneID) with records in Hend.
    rewrite Hnew in Hend.
    change (newRequest token "POST" records
              (Some (desired fqdn recordType ip proxied ttl))) with post in Hend.
    destruct (http_Do env post w1) as [[err|resp] w2]; cbn [fst] in *;
      [exact Hend|].
    destruct (Body resp) as [err|body]; cbn [fst] in Hend; [exact Hend|].
    destruct (StatusCode resp >=? 400); cbn [fst] in Hend; exact Hend.
Qed.

(** X12.  [upsertRecord] writes nothing unless the list query went
    through: a create or update request is issued only after the list
    response was received, decoded and found to report success. *)
Theorem upsertRecord_writes_follow_list zoneID fqdn recordType ip proxied ttl w ev :
  In ev (writes (snd (upsertRecord env token zoneID fqdn recordType ip proxied ttl w))) ->
  exists listData w1 tr listResp,
    cfAPI env token "GET" (listURL zoneID recordType fqdn) None w = (inr listData, w1, tr)
    /\ json_Unmarshal_List env listData = inr listResp
    /\ list_Success listResp = true.
Proof.
  unfold upsertRecord.
  pose proof (cfAPI_GET_writes env token (listURL zoneID recordType fqdn) w) as Hg.
  destruct (cfAPI env token "GET" _ None w) as [[[err|listData] w1] tr]; cbn [snd] in *.
  - rewrite writes_upsert, Hg. intros [].
  - destruct (json_Unmarshal_List env listData) as [err|listResp] eqn:Hjson.
    + cbn [snd]. rewrite writes_upsert, Hg. intros [].
    + destruct (list_Success listResp) eqn:Hok; cbn [negb].
      * intros _. now exists listData, w1, tr, listResp.
      * cbn [snd]. rewrite writes_upsert, Hg. intros [].
Qed.

(** X13.  A failed base-domain lookup is fatal for the zone: when
    [processZone] returns an error, the lookup is the only HTTP call it
    made and no subdomain unit ran; the error is the transport failure
    wrapped as "get zone", the decoding failure wrapped as "unmarshal zone
    response", or the "zone API error" carrying the provider's list. *)
Theorem processZone_lookup_failure_is_fatal zone ipv4 ipv6 defaultTTL concurrencyLimit w err :
  let run := processZone env token zone ipv4 ipv6 defaultTTL concurrencyLimit w in
  fst (fst (fst run)) = Returns (Some err) ->
  snd run = []
  /\ snd (fst run) = snd (cfAPI env token "GET" (zoneURL (Config.ZoneID zone)) None w)
  /\ ((exists e, fst (fst (cfAPI env token "GET" (zoneURL (Config.ZoneID zone)) None w))
                 = inl e /\ err = Errorf_w "get zone: " (Some e))
      \/ exists zoneData,
           fst (fst (cfAPI env token "GET" (zoneURL (Config.ZoneID zone)) None w))
           = inr zoneData
           /\ ((exists e, json_Unmarshal_Zone env zoneData = inl e
                          /\ err = Errorf_w "unmarshal zone response: " (Some e))
               \/ exists zoneResp,
                    json_Unmarshal_Zone env zoneData = inr zoneResp
                    /\ zone_Success zoneResp = false
                    /\ err = errorString ("zone API error: "
                                            ++ fmt_v (zone_Errors zoneResp)))).
Proof.
  intros run. subst run. unfold processZone.
  destruct (cfAPI env token "GET" _ None w) as [[[e|zoneData] w1] tr]; cbn [fst snd].
  - intros H. inversion H; subst. split; [reflexivity|]. split; [reflexivity|].
    left. now exists e.
  - destruct (json_Unmarshal_Zone env zoneData) as [e|zoneResp] eqn:Hjson; cbn [fst snd].
    + intros H. inversion H; subst. split; [reflexivity|]. split; [reflexivity|].
      right. exists zoneData. split; [reflexivity|]. left. now exists e.
    + destruct (zone_Success zoneResp) eqn:Hok; cbn [negb fst snd].
      * destruct (concurrencyLimit <? 0); [discriminate|].
        destruct (_ && _); [discriminate|].
        destruct (runUnits _ _ _ _ _ _ _ _ _) as [w2 units]. discriminate.
      * intros H. inversion H; subst. split; [reflexivity|]. split; [reflexivity|].
        right. exists zoneData. split; [reflexivity|]. right. now exists zoneResp.
Qed.

(** X14.  In a zone whose lookup succeeded, the unit of a subdomain calls
    [upsertRecord] for the A record with the IPv4 address and then, only
    when an IPv6 address is known, for the AAAA record with that address,
    both under the same name, proxied flag and ttl.  The name is the base
    domain itself when the trimmed, lower-cased subdomain name is empty or
    "@", and the name followed by a dot and the base domain otherwise. *)
Theorem processZone_unit_upserts zone ipv4 ipv6 defaultTTL concurrencyLimit w
        zoneData w1 tr zoneResp s tr' :
  cfAPI env token "GET" (zoneURL (Config.ZoneID zone)) None w = (inr zoneData, w1, tr) ->
  json_Unmarshal_Zone env zoneData = inr zoneResp ->
  zone_Success zoneResp = true ->
  In (s, tr') (snd (processZone env token zone ipv4 ipv6 defaultTTL concurrencyLimit w)) ->
  let baseDomain := zone_Result_Name zoneResp in
  let name := strings_ToLower env (strings_TrimSpace env (Config.Name s)) in
  exists fqdn ttl,
    upserts tr'
    = (EvUpsert (Config.ZoneID zone) fqdn "A" ipv4 (Config.Proxied s) ttl
       :: if String.eqb ipv6 "" then []
          else [EvUpsert (Config.ZoneID zone) fqdn "AAAA" ipv6 (Config.Proxied s) ttl])%list
    /\ ((name = "" \/ name = "@") -> fqdn = baseDomain)
    /\ (name <> "" -> name <> "@" -> fqdn = name ++ "." ++ baseDomain).
Proof.
  intros Hzone Hjson Hok Hin baseDomain name.
  unfold processZone in Hin. rewrite Hzone, Hjson, Hok in Hin. cbn [negb] in Hin.
  destruct (concurrencyLimit <? 0); [destruct Hin|].
  destruct (_ && _); [destruct Hin|].
  fold baseDomain in Hin.
  set (zoneTTL := if Config.ZoneTTL zone =? 0 then defaultTTL else Config.ZoneTTL zone)
    in Hin.
  pose proof (runUnits_units env token (Config.ZoneID zone) baseDomain ipv4 ipv6 zoneTTL
                (schedule env (Config.Subdomains zone)) w1) as [_ Hu].
  destruct (runUnits _ _ _ _ _ _ _ _ _) as [w2 units]. cbn [snd] in *.
  destruct (Hu _ _ Hin) as [w0 ->].
  exists (fqdnOf env baseDomain s), (if Config.TTL s =? 0 then zoneTTL else Config.TTL s).
  split.
  - rewrite (subdomainUnit_upserts env token). cbv zeta.
    destruct (String.eqb ipv6 ""); reflexivity.
  - unfold fqdnOf. fold name.
    destruct (String.eqb name "") eqn:E1; [apply String.eqb_eq in E1|apply String.eqb_neq in E1];
      destruct (String.eqb name "@") eqn:E2;
      [apply String.eqb_eq in E2|apply String.eqb_neq in E2
      |apply String.eqb_eq in E2|apply String.eqb_neq in E2];
      cbn [negb andb]; split; intros; try reflexivity; try tauto; congruence.
Qed.

End Reconciler.

Import ReconcilerScenario.

(** The run of [TestUpsertRecordCreate]. *)
Lemma upsertRecord_creates_witness :
  let run := upsertTest [ok "empty"; ok "created"] in
  let post :=
    {| req_Method := "POST";
       req_URL := "https://api.cloudflare.com/client/v4/zones/zone123/dns_records";
       req_Authorization := "Bearer token";
       req_ContentType := "application/json";
       req_Body := Some {| ID := ""; Type_ := "A"; Name := "test.example.com";
                           Content := "1.2.3.4"; Proxied := true; TTL := 300 |} |} in
  (forall req, In (EvHTTP req) (snd run) -> req_Method req = "GET" \/ req = post)
  /\ fst (fst run) = None /\ writes (snd run) = [EvHTTP post].
Proof.
  pose proof (upsertRecord_creates env "token" "zone123" "test.example.com" "A"
                "1.2.3.4" true 300 [ok "empty"; ok "created"] "empty" [ok "created"]
                [EvHTTP (newRequest "token" "GET"
                           (listURL "zone123" "A" "test.example.com") None)]
                {| list_Result := []; list_Success := true; list_Errors := [] |}
                eq_refl eq_refl eq_refl eq_refl) as (Hall & H).
  split; [exact Hall|].
  destruct (H eq_refl) as (H1 & H2 & _). split; assumption.
Defined.

(** The [PUT] of [TestUpsertRecordUpdate]. *)
Lemma upsertRecord_requests_witness :
  let record := {| ID := ""; Type_ := "A"; Name := "test.example.com";
                   Content := "1.2.3.4"; Proxied := true; TTL := 300 |} in
  let req :=
    {| req_Method := "PUT";
       req_URL := "https://api.cloudflare.com/client/v4/zones/zone123/dns_records/rec123";
       req_Authorization := "Bearer token";
       req_ContentType := "application/json";
       req_Body := Some record |} in
  let records := "https://api.cloudflare.com/client/v4/zones/zone123/dns_records" in
  req_Authorization req = "Bearer token"
  /\ req_ContentType req = "application/json"
  /\ ((req_Method req = "GET"
       /\ req_URL req = records ++ "?type=A&name=test.example.com"
       /\ req_Body req = None)
      \/ (req_Method req = "POST" /\ req_URL req = records
          /\ req_Body req = Some record)
      \/ (req_Method req = "PUT" /\ (exists id, req_URL req = records ++ "/" ++ id)
          /\ req_Body req = Some record)).
Proof.
  apply (upsertRecord_requests env "token" "zone123" "test.example.com" "A" "1.2.3.4"
           true 300 [ok "stale"; ok "updated"]).
  vm_compute. right. right. left. reflexivity.
Defined.

(** The update of [TestUpsertRecordUpdate] follows a list query that went
    through. *)
Lemma upsertRecord_writes_follow_list_witness :
  exists listData w1 tr listResp,
    cfAPI env "token" "GET" (listURL "zone123" "A" "test.example.com") None
          [ok "stale"; ok "updated"] = (inr listData, w1, tr)
    /\ json_Unmarshal_List env listData = inr listResp
    /\ list_Success listResp = true.
Proof.
  apply (upsertRecord_writes_follow_list env "token" "zone123" "test.example.com" "A"
           "1.2.3.4" true 300 [ok "stale"; ok "updated"]
           (EvHTTP (newRequest "token" "PUT" (updateURL "zone123" "rec123") (Some wanted)))).
  vm_compute. left. reflexivity.
Defined.

(** A zone whose lookup fails in transport: no unit runs. *)
Lemma processZone_lookup_failure_is_fatal_witness :
  let run := processZone env "token" zone123 "1.2.3.4" "" 300 10 [inl dialTimeout] in
  snd run = [] /\ http_calls (snd (fst run)) = 1%nat.
Proof.
  pose proof (processZone_lookup_failure_is_fatal env "token" zone123 "1.2.3.4" "" 300 10
                [inl dialTimeout]
                (Errorf_w "get zone: " (Some (Errorf_w "execute request: " (Some dialTimeout))))
                eq_refl) as (H1 & H2 & _).
  split; [exact H1|]. rewrite H2. reflexivity.
Defined.

(** The unit of [www] in [zoneScript]: one upsert, for the A record of
    [www.example.com]; no IPv6 address is known. *)
Lemma processZone_unit_upserts_witness :
  exists fqdn ttl,
    upserts wwwTrace = [EvUpsert "zone123" fqdn "A" "1.2.3.4" true ttl]
    /\ fqdn = "www.example.com".
Proof.
  destruct (processZone_unit_upserts env "token" zone123 "1.2.3.4" "" 300 10 zoneScript
              "zone" (tl zoneScript)
              [EvHTTP (newRequest "token" "GET" (zoneURL "zone123") None)]
              {| zone_Result_Name := "example.com"; zone_Success := true;
                 zone_Errors := [] |}
              www wwwTrace eq_refl eq_refl eq_refl)
    as (fqdn & ttl & Hu & _ & Hname).
  - vm_compute. left. reflexivity.
  - exists fqdn, ttl. split; [exact Hu|].
    apply Hname; discriminate.
Defined.

End ReconcilerExtras.

(** ** Validation and the defaults of [main] *)

Module ConfigFacts.
Import Go Cloudflare ReconcilerFacts ConfigVariants.

(** The ttl that [validateConfig] accepts for a subdomain. *)
Lemma validateSubdomains_spec i subs : forall j,
  Config.validateSubdomains i j subs = None
  <-> Forall (fun s => Config.TTL s = 0 \/ 60 <= Config.TTL s <= 86400) subs.
Proof.
  induction subs as [|sub subs IH]; intros j; cbn [Config.validateSubdomains].
  - split; [constructor|reflexivity].
  - destruct (negb (Config.TTL sub =? 0)
              && ((Config.TTL sub <? 60) || (Config.TTL sub >? 86400))) eqn:E.
    + split; [discriminate|]. intros H. inversion H as [|? ? Hs _]; subst. exfalso.
      apply andb_prop in E as [E1 E2]. apply negb_true_iff, Z.eqb_neq in E1.
      apply orb_prop in E2 as [E2|E2];
        [apply Z.ltb_lt in E2|rewrite Z.gtb_ltb in E2; apply Z.ltb_lt in E2]; lia.
    + rewrite IH. split.
      * intros H. constructor; [|assumption].
        apply andb_false_iff in E as [E|E].
        -- apply negb_false_iff, Z.eqb_eq in E. now left.
        -- apply orb_false_iff in E as [E1 E2]. apply Z.ltb_ge in E1.
           rewrite Z.gtb_ltb in E2. apply Z.ltb_ge in E2. right. lia.
      * intros H. now inversion H.
Qed.

Lemma validateZones_spec zones : forall i,
  Config.validateZones i zones = None
  <-> Forall (fun z => Config.ZoneID z <> "" /\ Config.Subdomains z <> []
                       /\ Forall (fun s => Config.TTL s = 0 \/ 60 <= Config.TTL s <= 86400)
                                 (Config.Subdomains z)) zones.
Proof.
  induction zones as [|z zones IH]; intros i; cbn [Config.validateZones].
  - split; [constructor|reflexivity].
  - destruct (String.eqb (Config.ZoneID z) "") eqn:Eid.
    + apply String.eqb_eq in Eid. split; [discriminate|].
      intros H. inversion H as [|? ? (Hid & _) _]. contradiction.
    + apply String.eqb_neq in Eid.
      destruct (Config.Subdomains z) as [|s subs] eqn:Hsubs; cbn [List.length Nat.eqb].
      * split; [discriminate|]. intros H. inversion H as [|? ? (_ & Hne & _) _].
        rewrite Hsubs in Hne. contradiction.
      * destruct (Config.validateSubdomains i 0 (s :: subs)) as [err|] eqn:Hv.
        -- split; [discriminate|]. intros H. inversion H as [|? ? (_ & _ & Hf) _].
           rewrite Hsubs in Hf.
           apply (validateSubdomains_spec i (s :: subs) 0) in Hf. congruence.
        -- apply validateSubdomains_spec in Hv. rewrite IH. split.
           ++ intros H. constructor; [|assumption]. rewrite Hsubs.
              repeat split; [assumption|discriminate|assumption].
           ++ intros H. now inversion H.
Qed.

(** X15.  [validateConfig] accepts a configuration exactly when it has a
    zone, every zone has an id and a subdomain, every subdomain ttl is 0
    or lies between 60 and 86400, and the concurrency limit is not
    negative. *)
Theorem validateConfig_accepts_iff (cfg : Config.Config) :
  Config.validateConfig cfg = None
  <-> Config.Zones cfg <> []
      /\ Forall (fun z => Config.ZoneID z <> "" /\ Config.Subdomains z <> []
                          /\ Forall (fun s => Config.TTL s = 0
                                              \/ 60 <= Config.TTL s <= 86400)
                                    (Config.Subdomains z)) (Config.Zones cfg)
      /\ 0 <= Config.ConcurrencyLimit cfg.
Proof.
  unfold Config.validateConfig.
  destruct (Config.Zones cfg) as [|z zones] eqn:Hz; cbn [List.length Nat.eqb].
  - split; [discriminate|]. intros (H & _). contradiction.
  - destruct (Config.validateZones 0 (z :: zones)) as [err|] eqn:Hv.
    + split; [discriminate|]. intros (_ & H & _).
      apply (validateZones_spec (z :: zones) 0) in H. congruence.
    + apply validateZones_spec in Hv.
      destruct (Config.ConcurrencyLimit cfg <? 0) eqn:Hl.
      * apply Z.ltb_lt in Hl. split; [discriminate|]. intros (_ & _ & H). lia.
      * apply Z.ltb_ge in Hl. split; [|reflexivity].
        intros _. repeat split; [discriminate|assumption|assumption].
Qed.

Lemma validateZones_withZoneTTL zoneTTL zones : forall i,
  Config.validateZones i (map (withZoneTTL zoneTTL) zones) = Config.validateZones i zones.
Proof.
  induction zones as [|z zones IH]; intros i; [reflexivity|].
  cbn [map Config.validateZones withZoneTTL Config.ZoneID Config.Subdomains].
  now rewrite IH.
Qed.

(** X16.  [validateConfig] never looks at the ttl of a zone nor at the
    default ttl: changing them changes neither the verdict nor the error.
    Only the ttl of a subdomain is checked against the range. *)
Theorem validateConfig_ignores_zone_and_default_ttl defaultTTL zoneTTL cfg :
  Config.validateConfig (withTTLs defaultTTL zoneTTL cfg) = Config.validateConfig cfg.
Proof.
  unfold Config.validateConfig, withTTLs.
  cbn [Config.Zones Config.ConcurrencyLimit].
  rewrite length_map, validateZones_withZoneTTL. reflexivity.
Qed.

Section Worker.
Context {W : Type}.
Variable env : Env W.
Variable token : string.

(** X17.  For a validated configuration the semaphore of a zone always
    has room: the worker that [main] starts for a zone returns, it neither
    blocks nor panics; it returns an error exactly when the base-domain
    lookup failed, and then logs it. *)
Theorem zoneWorker_returns cfg z ipv4 ipv6 w :
  Config.validateConfig cfg = None ->
  let run := Main.zoneWorker env token cfg z ipv4 ipv6 w in
  exists r,
    fst (fst (fst run)) = Returns r
    /\ match r with
       | None => forall lvl attrs,
                   ~ In (EvLog lvl "failed to process zone" attrs) (snd (fst run))
       | Some err =>
           snd run = []
           /\ In (EvLog LevelError "failed to process zone"
                    [("zone_id", VString (Config.ZoneID z)); ("error", VError err)])
                 (snd (fst run))
       end.
Proof.
  intros Hvalid run.
  pose proof (applyDefaults_limit_positive cfg Hvalid) as Hlimit.
  subst run. unfold Main.zoneWorker, processZone.
  set (limit := Config.ConcurrencyLimit (Main.applyDefaults cfg)) in *.
  pose proof (cfAPI_inv env token "GET" (zoneURL (Config.ZoneID z)) None w) as Hinv.
  destruct (cfAPI env token "GET" _ None w) as [[[e|zoneData] w1] tr].
  - eexists. cbn [fst snd]. split; [reflexivity|]. split; [reflexivity|].
    apply in_app_iff. right. left. reflexivity.
  - destruct (json_Unmarshal_Zone env zoneData) as [e|zoneResp].
    + eexists. cbn [fst snd]. split; [reflexivity|]. split; [reflexivity|].
      apply in_app_iff. right. left. reflexivity.
    + destruct (negb (zone_Success zoneResp)).
      * eexists. cbn [fst snd]. split; [reflexivity|]. split; [reflexivity|].
        apply in_app_iff. right. left. reflexivity.
      * destruct (limit <? 0) eqn:Hneg; [apply Z.ltb_lt in Hneg; lia|].
        destruct (limit =? 0) eqn:Hzero; [apply Z.eqb_eq in Hzero; lia|].
        cbn [andb].
        destruct (runUnits _ _ _ _ _ _ _ _ _) as [w2 units].
        exists None. cbn [fst snd]. split; [reflexivity|].
        intros lvl attrs Hin.
        apply in_app_iff in Hin as [Hin|[Hin|[]]]; [|discriminate].
        destruct (Hinv _ _ _ eq_refl) as [(? & _ & _ & _ & ->)|(_ & -> & _)];
          [destruct Hin|destruct Hin as [Hin|[]]; discriminate].
Qed.

End Worker.

Import ReconcilerScenario.

(** The worker of [zone123] under [config123], whose limit of 0 becomes
    10. *)
Lemma zoneWorker_returns_witness :
  fst (fst (fst (Main.zoneWorker env "token" config123 zone123 "1.2.3.4" "" zoneScript)))
  = Returns None.
Proof.
  destruct (zoneWorker_returns env "token" config123 zone123 "1.2.3.4" "" zoneScript
              eq_refl) as (r & Hr & _).
  rewrite Hr. f_equal.
  assert (H : fst (fst (fst (Main.zoneWorker env "token" config123 zone123
                               "1.2.3.4" "" zoneScript))) = Returns None)
    by reflexivity.
  rewrite Hr in H. now inversion H.
Defined.

End ConfigFacts.

(** ** Package ip *)

Module IPFacts.
Import Go Cloudflare Spec StringFacts Text.

(** *** The message of a status error names no retryable pattern *)

Lemma all_app p (a b : string) : all p (a ++ b) = all p a && all p b.
Proof.
  induction a as [|c a IH]; [reflexivity|].
  cbn [append all]. now rewrite IH, andb_assoc.
Qed.

Lemma append_eq_split (a b c d : string) :
  a ++ b = c ++ d ->
  (exists t, c = a ++ t /\ b = t ++ d) \/ (exists t, a = c ++ t /\ d = t ++ b).
Proof.
  revert c. induction a as [|x a IH]; intros c H.
  - left. now exists c.
  - destruct c as [|y c].
    + right. now exists (String x a).
    + cbn [append] in H. injection H as -> H.
      destruct (IH _ H) as [(t & -> & ->)|(t & -> & ->)]; [left|right]; now exists t.
Qed.

(** A non-empty tail of a string that ends with [c] ends with [c]. *)
Lemma tail_ends (t u p' : string) (c : ascii) :
  u <> "" -> t ++ u = p' ++ String c "" -> exists u', u = u' ++ String c "".
Proof.
  intros Hu H. apply append_eq_split in H as [(x & -> & Hx)|(x & -> & Hx)].
  - now exists x.
  - destruct x as [|y x].
    + cbn [append] in Hx. subst. now exists "".
    + cbn [append] in Hx. injection Hx as <- Hx.
      destruct x; cbn [append] in Hx; [|discriminate]. subst. contradiction.
Qed.

(** A pattern whose last character is none of the characters of [d] occurs
    in [prefix ++ d] only inside [prefix]. *)
Lemma occurs_before (ok : ascii -> bool) (prefix d p' : string) (c : ascii) :
  all ok d = true -> ok c = false ->
  has_substring (prefix ++ d) (p' ++ String c "") ->
  has_substring prefix (p' ++ String c "").
Proof.
  intros Hd Hc (pre & post & H).
  assert (Hbad : forall x y, d = x ++ String c y -> False).
  { intros x y ->. rewrite all_app in Hd. cbn [all] in Hd.
    rewrite Hc in Hd. cbn [andb] in Hd.
    rewrite andb_false_r in Hd. discriminate. }
  symmetry in H. apply append_eq_split in H as [(t & -> & H)|(t & -> & H)].
  - apply append_eq_split in H as [(u & -> & _)|(u & Hp & Hdu)].
    + now exists pre, u.
    + destruct u as [|y u].
      * rewrite append_nil_r in Hp. subst t. exists pre, "".
        now rewrite append_nil_r.
      * exfalso.
        destruct (tail_ends t (String y u) p' c ltac:(discriminate) (eq_sym Hp))
          as [u' Hu'].
        rewrite Hu', append_assoc in Hdu. cbn [append] in Hdu.
        exact (Hbad _ _ Hdu).
  - exfalso. rewrite append_assoc in H. cbn [append] in H.
    rewrite <- append_assoc in H. exact (Hbad _ _ H).
Qed.

Lemma string_of_uint_numeric d : all numeric (NilEmpty.string_of_uint d) = true.
Proof. induction d; cbn [NilEmpty.string_of_uint all]; try rewrite IHd; reflexivity. Qed.

Lemma itoa_numeric z : all numeric (itoa z) = true.
Proof.
  unfold itoa, NilZero.string_of_int, NilZero.string_of_uint.
  destruct (Z.to_int z) as [d|d]; destruct d;
    try reflexivity; try apply string_of_uint_numeric;
    cbn [all]; rewrite string_of_uint_numeric; reflexivity.
Qed.

Lemma status_error_not_retryable (status : Z) :
  Retry.isRetryableError (errorString ("unexpected status: " ++ itoa status)) = false.
Proof.
  unfold Retry.isRetryableError. cbn [Error].
  apply not_true_is_false. intros H.
  apply ClassifyFacts.existsb_contains in H as (p & Hin & Hp).
  assert (Hpre : has_substring "unexpected status: " p).
  { cbn [Retry.retryablePatterns In] in Hin.
    pose proof (itoa_numeric status) as Hnum.
    destruct Hin as [<-|[<-|[<-|[<-|[<-|[<-|[<-|[]]]]]]]].
    - exact (occurs_before numeric _ _ "connection refuse" "d" Hnum eq_refl Hp).
    - exact (occurs_before numeric _ _ "connection rese" "t" Hnum eq_refl Hp).
    - exact (occurs_before numeric _ _ "no such hos" "t" Hnum eq_refl Hp).
    - exact (occurs_before numeric _ _ "timeou" "t" Hnum eq_refl Hp).
    - exact (occurs_before numeric _ _ "temporary failur" "e" Hnum eq_refl Hp).
    - exact (occurs_before numeric _ _ "too many open file" "s" Hnum eq_refl Hp).
    - exact (occurs_before numeric _ _ "i/o timeou" "t" Hnum eq_refl Hp). }
  apply contains_spec in Hpre.
  cbn [Retry.retryablePatterns In] in Hin.
  destruct Hin as [<-|[<-|[<-|[<-|[<-|[<-|[<-|[]]]]]]]]; vm_compute in Hpre; discriminate.
Qed.

Section GetWithRetry.
Context {W : Type}.
Variable rt : Retry.Runtime W.
Variable env : Env W.
Variable net_ParseIP : string -> option bool.
Variable url : string.
Variable isIPv6 : bool.

(** The ways [getIP] ends. *)
Lemma getIP_inv (w : W) r w1 tr :
  IP.getIP env url w = (r, w1, tr) ->
  (tr = [IP.debugLine url] /\ w1 = w /\ exists e, r = inl e)
  \/ (tr = [IP.debugLine url; EvHTTP (IP.ipRequest url)]
      /\ exists o, http_Do env (IP.ipRequest url) w = (o, w1)
         /\ match r with
            | inr ip =>
                ip <> ""
                /\ exists resp body, o = inr resp /\ StatusCode resp = 200
                     /\ Body resp = inr body /\ ip = strings_TrimSpace env body
            | inl e =>
                match o with
                | inl err => e = Errorf_w "execute request: " (Some err)
                | inr resp =>
                    if StatusCode resp =? 200 then
                      match Body resp with
                      | inl err => e = Errorf_w "read response: " (Some err)
                      | inr body =>
                          strings_TrimSpace env body = ""
                          /\ e = errorString ("empty response from " ++ url)
                      end
                    else e = errorString ("unexpected status: " ++ itoa (StatusCode resp))
                end
            end).
Proof.
  unfold IP.getIP.
  destruct (http_NewRequest_err env "GET" url) as [err|].
  - intros H. inversion H; subst. left. repeat split. eauto.
  - destruct (http_Do env (IP.ipRequest url) w) as [o w2].
    intros H. right.
    destruct o as [err|resp].
    + inversion H; subst. split; [reflexivity|]. eexists. split; reflexivity.
    + destruct (StatusCode resp =? 200) eqn:Hs; cbn [negb] in H.
      * destruct (Body resp) as [err|body] eqn:Hb.
        -- inversion H; subst. split; [reflexivity|]. eexists. split; [reflexivity|].
           cbn. now rewrite Hs, Hb.
        -- destruct (String.eqb (strings_TrimSpace env body) "") eqn:He.
           ++ inversion H; subst. split; [reflexivity|].
              eexists. split; [reflexivity|]. cbn. rewrite Hs, Hb.
              apply String.eqb_eq in He. now split.
           ++ inversion H; subst. split; [reflexivity|].
              eexists. split; [reflexivity|]. cbn.
              apply String.eqb_neq in He. split; [assumption|].
              exists resp, body. apply Z.eqb_eq in Hs. now repeat split.
      * inversion H; subst. split; [reflexivity|]. eexists. split; [reflexivity|].
        cbn. now rewrite Hs.
Qed.

Lemma validateIP_accepts (ip : string) :
  IP.validateIP net_ParseIP ip isIPv6 = None <-> net_ParseIP ip = Some (negb isIPv6).
Proof.
  unfold IP.validateIP.
  destruct (net_ParseIP ip) as [[|]|]; destruct isIPv6; cbn; split; congruence.
Qed.

(** One invocation of the function literal. *)
Lemma attempt_inv (st st' : @IP.closure W) res :
  IP.attempt env net_ParseIP url isIPv6 st = (res, st') ->
  exists r tr,
    IP.getIP env url (IP.outer st) = (r, IP.outer st', tr)
    /\ IP.seen st' = (IP.seen st ++ tr)%list
    /\ match res with
       | None => exists ip, r = inr ip /\ IP.result st' = ip
                            /\ net_ParseIP ip = Some (negb isIPv6)
       | Some e => IP.result st' = IP.result st
                   /\ match r with
                      | inl err => e = err
                      | inr ip => exists err, e = Errorf_w "validation failed: " (Some err)
                                    /\ IP.validateIP net_ParseIP ip isIPv6 = Some err
                      end
       end.
Proof.
  unfold IP.attempt.
  destruct (IP.getIP env url (IP.outer st)) as [[r w1] tr].
  destruct r as [err|ip].
  - intros H. inversion H; subst. exists (inl err), tr. cbn. repeat split.
  - destruct (IP.validateIP net_ParseIP ip isIPv6) as [err|] eqn:Hv.
    + intros H. inversion H; subst. exists (inr ip), tr. cbn. repeat split.
      now exists err.
    + intros H. inversion H; subst. exists (inr ip), tr. cbn. repeat split.
      exists ip. repeat split. now apply validateIP_accepts.
Qed.

(** Waiting touches neither the captured variable nor the requests made. *)
Lemma beforeRetry_closure config i lastErr (st st1 : @IP.closure W) c pre :
  Retry.beforeRetry (IP.closureRuntime rt) config i lastErr st = (c, st1, pre) ->
  IP.result st1 = IP.result st /\ IP.seen st1 = IP.seen st.
Proof.
  unfold Retry.beforeRetry.
  destruct (0 <? i).
  - cbn [IP.closureRuntime Retry.rand_Float64 Retry.rand_Intn Retry.select_Done].
    unfold IP.onOuter.
    destruct (Retry.rand_Float64 rt (IP.outer st)) as [k w1].
    cbn [fst snd IP.outer IP.result IP.seen].
    destruct (Retry.rand_Intn rt 2 w1) as [coin w2].
    cbn [fst snd IP.outer IP.result IP.seen].
    match goal with
    | |- context [Retry.select_Done rt ?d ?w] =>
        destruct (Retry.select_Done rt d w) as [done w3]
    end.
    cbn [fst snd IP.outer IP.result IP.seen].
    destruct done; intros H; inversion H; subst; cbn; split; reflexivity.
  - intros H. inversion H; subst. split; reflexivity.
Qed.

(** What one invocation adds to the requests. *)
Lemma attempt_seen (st st' : @IP.closure W) res :
  IP.attempt env net_ParseIP url isIPv6 st = (res, st') ->
  exists tr, IP.seen st' = (IP.seen st ++ tr)%list
    /\ (http_calls tr <= 1)%nat
    /\ forall ev, In ev tr -> ev = IP.debugLine url \/ ev = EvHTTP (IP.ipRequest url).
Proof.
  intros H. apply attempt_inv in H as (r & tr & Hget & Hseen & _).
  exists tr. split; [assumption|].
  apply getIP_inv in Hget as [(-> & _)|(-> & _)].
  - split; [cbn; lia|]. intros ev [<-|[]]. now left.
  - split; [cbn; lia|]. intros ev [<-|[<-|[]]]; [now left|now right].
Qed.

(** The loop of [WithBackoff] around the function literal. *)
Lemma loop_closure operation config remaining :
  forall i lastErr (st st' : @IP.closure W) r tr,
  Retry.loop (IP.closureRuntime rt) operation config
             (IP.attempt env net_ParseIP url isIPv6) remaining i lastErr st
  = (r, st', tr) ->
  (http_calls (IP.seen st') <= http_calls (IP.seen st) + Retry.calls tr)%nat
  /\ (forall ev, In ev (IP.seen st') ->
        In ev (IP.seen st) \/ ev = IP.debugLine url \/ ev = EvHTTP (IP.ipRequest url))
  /\ match r with
     | None =>
         net_ParseIP (IP.result st') = Some (negb isIPv6)
         /\ IP.result st' <> ""
         /\ exists w0 resp body,
              http_Do env (IP.ipRequest url) w0 = (inr resp, IP.outer st')
              /\ StatusCode resp = 200 /\ Body resp = inr body
              /\ IP.result st' = strings_TrimSpace env body
     | Some _ => True
     end.
Proof.
  induction remaining as [|remaining IH]; intros i lastErr st st' r tr H.
  - inversion H; subst. split; [lia|]. split; [intros ev Hin; now left|exact I].
  - apply RetryExtras.loop_step in H as (c & st1 & pre & Hpre & H).
    pose proof (LoopFacts.beforeRetry_inv _ _ (IP.attempt env net_ParseIP url isIPv6)
                  _ _ _ _ _ _ Hpre) as Hwait.
    assert (Hcp : Retry.calls pre = 0%nat).
    { destruct Hwait as [(_ & _ & _ & ->)|(_ & b & d & w0 & _ & -> & _)]; reflexivity. }
    apply beforeRetry_closure in Hpre as [Hres1 Hseen1].
    destruct c as [e|].
    + destruct H as (-> & -> & ->). rewrite Hseen1.
      split; [lia|]. split; [intros ev Hin; now left|exact I].
    + destruct H as (res & st2 & v & post & Hfn & Ha & H).
      pose proof (attempt_seen _ _ _ Hfn) as (trg & Hseen2 & Hone & Hevs).
      destruct v as [r0|err].
      * destruct H as (-> & -> & ->).
        rewrite Hseen2, Hseen1, ReconcilerFacts.http_calls_app, LoopFacts.calls_app,
          LoopFacts.calls_cons_call.
        split; [lia|]. split.
        { intros ev Hin. apply in_app_iff in Hin as [Hin|Hin]; [now left|right; auto]. }
        destruct r0 as [e|]; [exact I|].
        apply (LoopFacts.afterCall_inv _ operation
                 (IP.attempt env net_ParseIP url isIPv6)) in Ha
          as [(-> & _ & _)|(err & -> & _ & Hv)].
        -- apply attempt_inv in Hfn as (r & tr' & Hget & _ & ip & -> & Hip & Hparse).
           apply getIP_inv in Hget as [(_ & _ & e & He)|(_ & o & Hdo & Hne & resp & body & -> & Hs & Hb & Hr)];
             [discriminate He|].
           rewrite Hip. split; [assumption|]. split; [assumption|].
           exists (IP.outer st1), resp, body. now repeat split.
        -- cbn [IP.closureRuntime Retry.ctx_Err] in Hv.
           destruct (Retry.ctx_Err rt (IP.outer st2));
             [discriminate Hv|destruct (Retry.isRetryableError err); discriminate Hv].
      * destruct H as (tr3 & Hloop & ->).
        destruct (IH _ _ _ _ _ _ Hloop) as (Hn & Hev & Hr).
        rewrite Hseen2, Hseen1, ReconcilerFacts.http_calls_app in Hn.
        rewrite LoopFacts.calls_app, LoopFacts.calls_cons_call, LoopFacts.calls_app.
        split; [lia|]. split; [|exact Hr].
        intros ev Hin. apply Hev in Hin as [Hin|Hin]; [|now right].
        rewrite Hseen2, Hseen1 in Hin.
        apply in_app_iff in Hin as [Hin|Hin]; [now left|right; auto].
Qed.

(** X18.  The address that [GetWithRetry] returns is the trimmed body of a
    response with status 200, is not empty and parses as an address of the
    family asked for; with an error the address returned is empty. *)
Theorem GetWithRetry_address (w : W) :
  let run := IP.GetWithRetry rt env net_ParseIP url isIPv6 w in
  let ip := fst (fst (fst (fst run))) in
  match snd (fst (fst (fst run))) with
  | None =>
      ip <> "" /\ net_ParseIP ip = Some (negb isIPv6)
      /\ IP.validateIP net_ParseIP ip isIPv6 = None
      /\ exists w0 resp body,
           http_Do env (IP.ipRequest url) w0 = (inr resp, snd (fst (fst run)))
           /\ StatusCode resp = 200 /\ Body resp = inr body
           /\ ip = strings_TrimSpace env body
  | Some _ => ip = ""
  end.
Proof.
  unfold IP.GetWithRetry, Retry.WithBackoff.
  destruct (Retry.loop _ _ _ _ _ _ _ _) as [[r st'] tr] eqn:Hloop.
  apply loop_closure in Hloop as (_ & _ & H).
  destruct r as [e|]; cbn [fst snd]; [reflexivity|].
  destruct H as (Hparse & Hne & Hresp).
  split; [assumption|]. split; [assumption|].
  split; [now apply validateIP_accepts|assumption].
Qed.

(** X19.  [GetWithRetry] sends at most six requests, one for each invocation of
    the function literal at most, and every one of them is the plain [GET]
    of the URL, without [Authorization] header. *)
Theorem GetWithRetry_requests (w : W) :
  let run := IP.GetWithRetry rt env net_ParseIP url isIPv6 w in
  (http_calls (snd run) <= Retry.calls (snd (fst run)) <= 6)%nat
  /\ writes (snd run) = []
  /\ forall req, In (EvHTTP req) (snd run) ->
       req = IP.ipRequest url /\ req_Authorization req = "" /\ req_Body req = None.
Proof.
  unfold IP.GetWithRetry, Retry.WithBackoff.
  destruct (Retry.loop _ _ _ _ _ _ _ _) as [[r st'] tr] eqn:Hloop.
  pose proof (RetryExtras.loop_calls_le _ _ _ _ _ _ _ _ _ _ _ Hloop) as Hle.
  change (Z.to_nat (Retry.MaxRetries Retry.DefaultConfig + 1)) with 6%nat in Hle.
  apply loop_closure in Hloop as (Hn & Hev & _).
  cbn [IP.seen http_calls filter List.length] in Hn.
  assert (Hall : forall ev, In ev (IP.seen st') ->
                   ev = IP.debugLine url \/ ev = EvHTTP (IP.ipRequest url)).
  { intros ev Hin. apply Hev in Hin as [[]|Hin]. exact Hin. }
  assert (Hgoal : (http_calls (IP.seen st') <= Retry.calls tr <= 6)%nat
                  /\ writes (IP.seen st') = []
                  /\ forall req, In (EvHTTP req) (IP.seen st') ->
                       req = IP.ipRequest url /\ req_Authorization req = ""
                       /\ req_Body req = None).
  { split; [split; [lia|exact Hle]|]. split.
    - unfold writes. revert Hall. generalize (IP.seen st') as l.
      induction l as [|ev l IHl]; intros Hl; [reflexivity|].
      cbn [filter].
      destruct (Hl ev (or_introl eq_refl)) as [->| ->]; cbn;
        apply IHl; intros ev' Hin; apply Hl; now right.
    - intros req Hin. apply Hall in Hin as [Hin|Hin]; [discriminate Hin|].
      injection Hin as ->. repeat split. }
  destruct r; exact Hgoal.
Qed.

(** X20.  A response whose status is not 200 to the first request, with the
    context not cancelled, ends [GetWithRetry] at once: no wait, no second
    request, and the error returned wraps the status error. *)
Theorem GetWithRetry_status_not_retried (w w1 : W) (resp : Response) :
  http_NewRequest_err env "GET" url = None ->
  http_Do env (IP.ipRequest url) w = (inr resp, w1) ->
  StatusCode resp <> 200 ->
  Retry.ctx_Err rt w1 = None ->
  let cause := errorString ("unexpected status: " ++ itoa (StatusCode resp)) in
  IP.GetWithRetry rt env net_ParseIP url isIPv6 w
  = (("", Some (Retry.nonRetryable ("get " ++ IP.ipType isIPv6) cause)), w1,
     [Retry.EvCall 0 (Some cause); Retry.EvCtxErr 0 None],
     [IP.debugLine url; EvHTTP (IP.ipRequest url)]).
Proof.
  intros Hnew Hdo Hs Hctx cause. subst cause.
  unfold IP.GetWithRetry, Retry.WithBackoff.
  change (Z.to_nat (Retry.MaxRetries Retry.DefaultConfig + 1)) with 6%nat.
  cbn [Retry.loop]. unfold Retry.beforeRetry. cbn [Z.ltb Z.compare].
  unfold IP.attempt, IP.getIP. cbn [IP.outer IP.seen IP.result].
  rewrite Hnew, Hdo.
  apply Z.eqb_neq in Hs. rewrite Hs. cbn [negb].
  unfold Retry.afterCall. cbn [IP.closureRuntime Retry.ctx_Err IP.outer].
  rewrite Hctx.
  rewrite (status_error_not_retryable (StatusCode resp)). reflexivity.
Qed.

(** What a call of [GetWithRetry] gave. *)
Lemma GetWithRetry_inv (w w1 : W) ip err tr http :
  IP.GetWithRetry rt env net_ParseIP url isIPv6 w = ((ip, err), w1, tr, http) ->
  (forall ev, In ev http -> ev = IP.debugLine url \/ ev = EvHTTP (IP.ipRequest url))
  /\ match err with
     | None => net_ParseIP ip = Some (negb isIPv6) /\ ip <> ""
     | Some _ => ip = ""
     end.
Proof.
  unfold IP.GetWithRetry, Retry.WithBackoff.
  destruct (Retry.loop _ _ _ _ _ _ _ _) as [[r st'] tr'] eqn:Hloop.
  apply loop_closure in Hloop as (_ & Hev & H).
  assert (Hall : forall ev, In ev (IP.seen st') ->
                   ev = IP.debugLine url \/ ev = EvHTTP (IP.ipRequest url)).
  { intros ev Hin. apply Hev in Hin as [[]|Hin]. exact Hin. }
  destruct r as [e|]; intros Heq; inversion Heq; subst; (split; [exact Hall|]).
  - reflexivity.
  - destruct H as (Hp & Hne & _). now split.
Qed.

End GetWithRetry.

(** The address after a dial that timed out: one retry, two requests. *)
Example address_after_dial_timeout :
  let run := IPScenario.getIPv4
               [inl ReconcilerScenario.dialTimeout; IPScenario.answer 200 IPScenario.padded] in
  fst (fst (fst run)) = ("192.168.1.1", None)
  /\ Retry.calls (snd (fst run)) = 2%nat /\ http_calls (snd run) = 2%nat.
Proof. vm_compute. repeat split. Qed.

(** The tables of [TestValidateIP] and [TestGetIP]. *)
Example TestValidateIP :
  map (fun t => match IP.validateIP IPScenario.parseIP (fst t) (snd t) with
                | Some _ => true
                | None => false
                end)
      [("192.168.1.1", false); ("8.8.8.8", false);
       ("2001:0db8:85a3::8a2e:0370:7334", true); ("::1", true);
       ("not-an-ip", false); ("999.999.999.999", false);
       ("192.168.1.1", true); ("2001:0db8::1", false); (EmptyString, false)]
  = [false; false; false; false; true; true; true; true; true].
Proof. reflexivity. Qed.

Example TestGetIP :
  let blank := String " " (String " " (String " " (String (ascii_of_nat 10)
                 (String (ascii_of_nat 9) (String " " (String " " EmptyString)))))) in
  map (fun o => match fst (fst (IP.getIP IPScenario.env IPScenario.url [o])) with
                | inr ip => Some ip
                | inl _ => None
                end)
      [IPScenario.answer 200 "192.168.1.1"; IPScenario.answer 200 IPScenario.padded;
       IPScenario.answer 200 "2001:0db8::1"; IPScenario.answer 500 "error";
       IPScenario.answer 404 "not found"; IPScenario.answer 200 EmptyString;
       IPScenario.answer 200 blank]
  = [Some "192.168.1.1"; Some "192.168.1.1"; Some "2001:0db8::1"; None; None; None; None].
Proof. vm_compute. reflexivity. Qed.

Lemma GetWithRetry_status_not_retried_witness :
  fst (fst (fst (IPScenario.getIPv4
                   [IPScenario.answer 500 "error"; IPScenario.answer 200 "192.168.1.1"])))
  = ("", Some (Retry.nonRetryable "get IPv4" (errorString "unexpected status: 500"))).
Proof.
  unfold IPScenario.getIPv4.
  rewrite (GetWithRetry_status_not_retried IPScenario.background IPScenario.env
             IPScenario.parseIP IPScenario.url false
             [IPScenario.answer 500 "error"; IPScenario.answer 200 "192.168.1.1"]
             [IPScenario.answer 200 "192.168.1.1"]
             {| StatusCode := 500; Body := inr "error" |}
             eq_refl eq_refl ltac:(cbn; lia) eq_refl).
  reflexivity.
Defined.

End IPFacts.

(** ** The program *)

Module ProgramFacts.
Import Go Cloudflare Program.

Section Program.
Context {W : Type}.
Variable rt : Retry.Runtime W.
Variable env : Env W.
Variable net_ParseIP : string -> option bool.
Variable os_Getenv : string -> string.
Variable json_Unmarshal_Config : string -> error + Config.Config.

(** The goroutine of a zone of a validated configuration returns. *)
Lemma zoneWorker_ending token cfg z ipv4 ipv6 (w : W) :
  Config.validateConfig cfg = None ->
  exists r, fst (fst (fst (Main.zoneWorker env token cfg z ipv4 ipv6 w))) = Returns r.
Proof.
  intros Hvalid.
  pose proof (ReconcilerFacts.applyDefaults_limit_positive cfg Hvalid) as Hlimit.
  unfold Main.zoneWorker, processZone.
  set (limit := Config.ConcurrencyLimit (Main.applyDefaults cfg)) in *.
  destruct (cfAPI env token "GET" _ None w) as [[[e|zoneData] w1] tr];
    [eexists; reflexivity|].
  destruct (json_Unmarshal_Zone env zoneData) as [e|zoneResp]; [eexists; reflexivity|].
  destruct (negb (zone_Success zoneResp)); [eexists; reflexivity|].
  destruct (limit <? 0) eqn:Hneg; [apply Z.ltb_lt in Hneg; lia|].
  destruct (limit =? 0) eqn:Hzero; [apply Z.eqb_eq in Hzero; lia|].
  cbn [andb].
  destruct (runUnits _ _ _ _ _ _ _ _ _) as [w2 units].
  exists None. reflexivity.
Qed.

(** The calls of [upsertRecord] in the goroutine of a zone. *)
Lemma zoneWorker_upserts token cfg z ipv4 ipv6 (w : W) s tr ev :
  In (s, tr) (snd (Main.zoneWorker env token cfg z ipv4 ipv6 w)) ->
  In ev (upserts tr) ->
  exists fqdn ttl,
    ev = EvUpsert (Config.ZoneID z) fqdn "A" ipv4 (Config.Proxied s) ttl
    \/ (ipv6 <> ""
        /\ ev = EvUpsert (Config.ZoneID z) fqdn "AAAA" ipv6 (Config.Proxied s) ttl).
Proof.
  intros Hin Hev.
  rewrite ReconcilerFacts.zoneWorker_units in Hin.
  apply ReconcilerFacts.processZone_units in Hin as (baseDomain & w0 & ->).
  rewrite ReconcilerFacts.subdomainUnit_upserts in Hev.
  eexists _, _.
  destruct Hev as [<-|Hev]; [left; reflexivity|].
  destruct (String.eqb ipv6 "") eqn:E; cbn [negb] in Hev; [destruct Hev|].
  destruct Hev as [<-|[]]. right. apply String.eqb_neq in E. now split.
Qed.

(** The goroutines of the zones of a validated configuration. *)
Lemma runZones_valid token cfg ipv4 ipv6 zones :
  Config.validateConfig cfg = None ->
  forall w : W,
  let r := runZones env token cfg ipv4 ipv6 zones w in
  fst (fst r) = None
  /\ flat_map zoneOf (snd r) = zones
  /\ workers (snd r) = snd r
  /\ forall st ev, In st (snd r) -> In ev (upsertsOf st) ->
       exists z fqdn proxied ttl,
         In z zones
         /\ (ev = EvUpsert (Config.ZoneID z) fqdn "A" ipv4 proxied ttl
             \/ (ipv6 <> ""
                 /\ ev = EvUpsert (Config.ZoneID z) fqdn "AAAA" ipv6 proxied ttl)).
Proof.
  intros Hvalid.
  induction zones as [|z zones IH]; intros w; cbn [runZones].
  - cbn. repeat split. intros st ev [].
  - destruct (zoneWorker_ending token cfg z ipv4 ipv6 w Hvalid) as [r0 Hend].
    pose proof (zoneWorker_upserts token cfg z ipv4 ipv6 w) as Hups.
    destruct (Main.zoneWorker env token cfg z ipv4 ipv6 w) as [[[e w1] tr] units].
    cbn [fst snd] in Hend, Hups. subst e.
    specialize (IH w1).
    destruct (runZones env token cfg ipv4 ipv6 zones w1) as [[o w2] steps].
    cbn [fst snd] in *. destruct IH as (-> & Hz & Hw & Hu).
    split; [reflexivity|]. split; [cbn [flat_map zoneOf app]; now rewrite Hz|].
    split; [unfold workers in *; cbn [filter is_worker]; now rewrite Hw|].
    intros st ev [<-|Hin] Hev.
    + cbn [upsertsOf] in Hev. apply in_flat_map in Hev as ([s tr'] & Hin & Hev).
      cbn [snd] in Hev.
      destruct (Hups s tr' ev Hin Hev) as (fqdn & ttl & H).
      exists z, fqdn, (Config.Proxied s), ttl. split; [now left|exact H].
    + destruct (Hu st ev Hin Hev) as (z' & fqdn & proxied & ttl & Hz' & H).
      exists z', fqdn, proxied, ttl. split; [now right|exact H].
Qed.

(** The detection of the IPv6 address. *)
Lemma detectIPv6_inv ipv6Enabled (w w2 : W) ipv6 steps6 :
  detectIPv6 rt env net_ParseIP ipv6Enabled w = (ipv6, w2, steps6) ->
  workers steps6 = [] /\ flat_map zoneOf steps6 = []
  /\ (forall st, In st steps6 -> upsertsOf st = [])
  /\ (forall st req, In st steps6 -> In (EvHTTP req) (requestsOf st) ->
        req = IP.ipRequest ipv6URL)
  /\ (forall d, last steps6 d = d \/ exists lvl msg attrs, last steps6 d = Log (EvLog lvl msg attrs))
  /\ (ipv6 = "" \/ (ipv6Enabled = true /\ net_ParseIP ipv6 = Some false)).
Proof.
  unfold detectIPv6. destruct ipv6Enabled.
  - destruct (IP.GetWithRetry rt env net_ParseIP ipv6URL true w)
      as [[[[ip err] w1] tr] http] eqn:Hget.
    apply IPFacts.GetWithRetry_inv in Hget as [Hreq Hip].
    assert (Hhttp : forall st req,
              In st [Detect true tr http] -> In (EvHTTP req) (requestsOf st) ->
              req = IP.ipRequest ipv6URL).
    { intros st req [<-|[]] Hin. cbn [requestsOf] in Hin.
      apply filter_In in Hin as [Hin _].
      apply Hreq in Hin as [Hin|Hin]; [discriminate Hin|now injection Hin]. }
    destruct err as [e|]; intros H; inversion H; subst.
    + split; [reflexivity|]. split; [reflexivity|].
      split; [intros st [<-|[<-|[]]]; reflexivity|].
      split; [intros st req [<-|[<-|[]]] Hin;
              [apply (Hhttp _ req (or_introl eq_refl) Hin)|destruct Hin]|].
      split; [intros d; right; cbn; eauto|]. now left.
    + split; [reflexivity|]. split; [reflexivity|].
      split; [intros st [<-|[<-|[]]]; reflexivity|].
      split; [intros st req [<-|[<-|[]]] Hin;
              [apply (Hhttp _ req (or_introl eq_refl) Hin)|destruct Hin]|].
      split; [intros d; right; cbn; unfold detected; eauto|].
      right. destruct Hip as [Hp _]. now split.
  - intros H. inversion H; subst. split; [reflexivity|]. split; [reflexivity|].
    split; [intros st []|]. split; [intros st req []|].
    split; [intros d; now left|now left].
Qed.

(** The ways [main] ends: a start-up failure, or the run of the goroutines
    of all zones. *)
Lemma main_cases (w : W) :
  let run := main rt env net_ParseIP os_Getenv json_Unmarshal_Config w in
  let token := os_Getenv "CF_API_TOKEN" in
  let configJSON := os_Getenv "CF_CONFIG" in
  (fst (fst run) = Exits 1
   /\ ((token = "" /\ snd run = [starting; missing "CF_API_TOKEN"])
       \/ (token <> "" /\ configJSON = "" /\ snd run = [starting; missing "CF_CONFIG"])
       \/ (token <> "" /\ configJSON <> ""
           /\ exists err, json_Unmarshal_Config configJSON = inl err
                /\ snd run = [starting; fatal "parse config" err])
       \/ (token <> "" /\ configJSON <> ""
           /\ exists cfg err, json_Unmarshal_Config configJSON = inr cfg
                /\ Config.validateConfig cfg = Some err
                /\ snd run = [starting; fatal "invalid config" err])
       \/ (token <> "" /\ configJSON <> ""
           /\ exists cfg ip err w1 tr http,
                json_Unmarshal_Config configJSON = inr cfg
                /\ Config.validateConfig cfg = None
                /\ IP.GetWithRetry rt env net_ParseIP ipv4URL false w
                   = ((ip, Some err), w1, tr, http)
                /\ snd run = [starting; Detect false tr http; fatal "get IPv4" err])))
  \/ (fst (fst run) = Exits 0 /\ token <> "" /\ configJSON <> ""
      /\ exists cfg ipv4 w1 tr http ipv6 w2 steps6 w3 zoneSteps,
           json_Unmarshal_Config configJSON = inr cfg
           /\ Config.validateConfig cfg = None
           /\ IP.GetWithRetry rt env net_ParseIP ipv4URL false w
              = ((ipv4, None), w1, tr, http)
           /\ detectIPv6 rt env net_ParseIP
                (String.eqb (os_Getenv "CF_IPV6_ENABLED") "true") w1
              = (ipv6, w2, steps6)
           /\ runZones env token cfg ipv4 ipv6 (Config.Zones cfg) w2
              = (None, w3, zoneSteps)
           /\ snd run = (starting :: Detect false tr http :: detected "ipv4" ipv4
                           :: steps6 ++ zoneSteps ++ [completed])%list).
Proof.
  intros run token configJSON. subst run. unfold main. fold token configJSON.
  destruct (String.eqb token "") eqn:Ht.
  { apply String.eqb_eq in Ht. left. split; [reflexivity|]. left. now split. }
  apply String.eqb_neq in Ht.
  destruct (String.eqb configJSON "") eqn:Hc.
  { apply String.eqb_eq in Hc. left. split; [reflexivity|]. right. left. now repeat split. }
  apply String.eqb_neq in Hc.
  destruct (json_Unmarshal_Config configJSON) as [err|cfg] eqn:Hd.
  { left. split; [reflexivity|]. right. right. left.
    split; [assumption|]. split; [assumption|]. now exists err. }
  destruct (Config.validateConfig cfg) as [err|] eqn:Hv.
  { left. split; [reflexivity|]. right. right. right. left.
    split; [assumption|]. split; [assumption|]. now exists cfg, err. }
  destruct (IP.GetWithRetry rt env net_ParseIP ipv4URL false w)
    as [[[[ipv4 err] w1] tr] http] eqn:Hget.
  destruct err as [err|].
  { left. split; [reflexivity|]. right. right. right. right.
    split; [assumption|]. split; [assumption|].
    exists cfg, ipv4, err, w1, tr, http. now repeat split. }
  destruct (detectIPv6 rt env net_ParseIP _ w1) as [[ipv6 w2] steps6] eqn:H6.
  pose proof (runZones_valid token cfg ipv4 ipv6 (Config.Zones cfg) Hv w2) as (Ho & _).
  destruct (runZones env token cfg ipv4 ipv6 (Config.Zones cfg) w2)
    as [[o w3] zoneSteps] eqn:Hz.
  cbn [fst snd] in Ho. subst o.
  right. split; [reflexivity|]. split; [assumption|]. split; [assumption|].
  exists cfg, ipv4, w1, tr, http, ipv6, w2, steps6, w3, zoneSteps.
  now repeat split.
Qed.

(** X21.  [main] never panics and never hangs: the process ends with
    status 0 or 1.  The status is 0 exactly when the token and the
    configuration are set, the configuration decodes and is valid, and the
    IPv4 address is detected; neither a failed detection of the IPv6
    address nor the failure of a zone changes the status. *)
Theorem main_exit_status (w : W) :
  let run := main rt env net_ParseIP os_Getenv json_Unmarshal_Config w in
  let configJSON := os_Getenv "CF_CONFIG" in
  (fst (fst run) = Exits 0 \/ fst (fst run) = Exits 1)
  /\ (fst (fst run) = Exits 0 <->
      os_Getenv "CF_API_TOKEN" <> "" /\ configJSON <> ""
      /\ exists cfg,
           json_Unmarshal_Config configJSON = inr cfg
           /\ Config.validateConfig cfg = None
           /\ snd (fst (fst (fst (IP.GetWithRetry rt env net_ParseIP ipv4URL false w))))
              = None).
Proof.
  intros run configJSON. subst run configJSON.
  pose proof (main_cases w) as Hcases. cbv zeta in Hcases.
  destruct Hcases as [(H1 & Hc)|(H0 & Ht & Hc & Hrest)].
  - split; [now right|]. split.
    + intros H. rewrite H1 in H. discriminate H.
    + intros (Ht & Hcfg & cfg & Hd & Hv & Hget). exfalso.
      destruct Hc as [(Ht' & _)|[(_ & Hc' & _)|[(_ & _ & err & Hd' & _)
                     |[(_ & _ & cfg' & err & Hd' & Hv' & _)
                      |(_ & _ & cfg' & ip & err & w1 & tr & http & _ & _ & Hget' & _)]]]].
      * contradiction.
      * contradiction.
      * congruence.
      * rewrite Hd in Hd'. injection Hd' as <-. congruence.
      * rewrite Hget' in Hget. discriminate Hget.
  - split; [now left|]. split; [|intros _; exact H0].
    intros _. split; [assumption|]. split; [assumption|].
    destruct Hrest as (cfg & ipv4 & w1 & tr & http & ipv6 & w2 & steps6 & w3 & zs
                       & Hd & Hv & Hget & _).
    exists cfg. rewrite Hget. now repeat split.
Qed.

(** X22.  When [main] exits with status 1 no goroutine of a zone was
    started: there is no call of [upsertRecord], the only requests made are
    those for the IPv4 address, and the last record logged is an error. *)
Theorem main_startup_failure (w : W) :
  let run := main rt env net_ParseIP os_Getenv json_Unmarshal_Config w in
  fst (fst run) = Exits 1 ->
  workers (snd run) = []
  /\ (forall st, In st (snd run) -> upsertsOf st = [])
  /\ (forall st req, In st (snd run) -> In (EvHTTP req) (requestsOf st) ->
        req = IP.ipRequest ipv4URL)
  /\ exists msg attrs, last (snd run) starting = Log (EvLog LevelError msg attrs).
Proof.
  intros run Hexit.
  pose proof (main_cases w) as Hcases. cbv zeta in Hcases. fold run in Hcases.
  destruct Hcases as [(_ & Hc)|(H0 & _)];
    [|rewrite H0 in Hexit; discriminate Hexit].
  assert (Hlogs : forall a b, snd run = [starting; Log (EvLog LevelError a b)] ->
            workers (snd run) = []
            /\ (forall st, In st (snd run) -> upsertsOf st = [])
            /\ (forall st req, In st (snd run) -> In (EvHTTP req) (requestsOf st) ->
                  req = IP.ipRequest ipv4URL)
            /\ exists msg attrs, last (snd run) starting = Log (EvLog LevelError msg attrs)).
  { intros a b ->. split; [reflexivity|].
    split; [intros st [<-|[<-|[]]]; reflexivity|].
    split; [intros st req [<-|[<-|[]]] []|]. now exists a, b. }
  destruct Hc as [(_ & Hs)|[(_ & _ & Hs)|[(_ & _ & err & _ & Hs)
                 |[(_ & _ & cfg & err & _ & _ & Hs)
                  |(_ & _ & cfg & ip & err & w1 & tr & http & _ & _ & Hget & Hs)]]]];
    try exact (Hlogs _ _ Hs).
  rewrite Hs. apply IPFacts.GetWithRetry_inv in Hget as [Hreq _].
  split; [reflexivity|]. split; [intros st [<-|[<-|[<-|[]]]]; reflexivity|].
  split; [|cbn; unfold fatal; eauto].
  intros st req [<-|[<-|[<-|[]]]] Hin; try destruct Hin.
  cbn [requestsOf] in Hin. apply filter_In in Hin as [Hin _].
  apply Hreq in Hin as [Hin|Hin]; [discriminate Hin|now injection Hin].
Qed.

(** X23.  When [main] ends with status 0 it has run one goroutine for each
    zone of the configuration, and the last record it logs reports
    success, whatever became of the zones. *)
Theorem main_completed (w : W) :
  let run := main rt env net_ParseIP os_Getenv json_Unmarshal_Config w in
  fst (fst run) = Exits 0 ->
  exists cfg,
    json_Unmarshal_Config (os_Getenv "CF_CONFIG") = inr cfg
    /\ flat_map zoneOf (snd run) = Config.Zones cfg
    /\ last (snd run) starting = completed.
Proof.
  intros run Hexit.
  pose proof (main_cases w) as Hcases. cbv zeta in Hcases. fold run in Hcases.
  destruct Hcases as [(H1 & _)|(_ & _ & _ & Hrest)];
    [rewrite H1 in Hexit; discriminate Hexit|].
  destruct Hrest as (cfg & ipv4 & w1 & tr & http & ipv6 & w2 & steps6 & w3 & zs
                     & Hd & Hv & Hget & H6 & Hz & ->).
  exists cfg. split; [assumption|].
  apply detectIPv6_inv in H6 as (_ & Hz6 & _).
  pose proof (runZones_valid (os_Getenv "CF_API_TOKEN") cfg ipv4 ipv6 (Config.Zones cfg)
                Hv w2) as (_ & Hzs & _).
  rewrite Hz in Hzs. cbn [snd] in Hzs. split.
  - cbn [flat_map zoneOf app]. rewrite !flat_map_app, Hz6, Hzs. cbn. apply app_nil_r.
  - change (starting :: Detect false tr http :: detected "ipv4" ipv4
              :: steps6 ++ zs ++ [completed])%list
      with ([starting; Detect false tr http; detected "ipv4" ipv4]
              ++ steps6 ++ zs ++ [completed])%list.
    rewrite !app_assoc. apply last_last.
Qed.

(** X24.  Every call of [upsertRecord] that [main] causes is for a zone of
    the validated configuration and carries an address that passed
    [validateIP]: an A record the IPv4 address detected, an AAAA record the
    IPv6 address detected, and the latter only with [CF_IPV6_ENABLED] set
    to [true]. *)
Theorem main_upserts (w : W) (st : step) (ev : event) :
  let run := main rt env net_ParseIP os_Getenv json_Unmarshal_Config w in
  In st (snd run) -> In ev (upsertsOf st) ->
  exists cfg z fqdn ip proxied ttl,
    json_Unmarshal_Config (os_Getenv "CF_CONFIG") = inr cfg
    /\ Config.validateConfig cfg = None
    /\ In z (Config.Zones cfg)
    /\ ((ev = EvUpsert (Config.ZoneID z) fqdn "A" ip proxied ttl
         /\ IP.validateIP net_ParseIP ip false = None)
        \/ (ev = EvUpsert (Config.ZoneID z) fqdn "AAAA" ip proxied ttl
            /\ IP.validateIP net_ParseIP ip true = None
            /\ os_Getenv "CF_IPV6_ENABLED" = "true")).
Proof.
  intros run Hst Hev.
  pose proof (main_cases w) as Hcases. cbv zeta in Hcases. fold run in Hcases.
  destruct Hcases as [(_ & Hc)|(_ & _ & _ & Hrest)].
  - destruct Hc as [(_ & Hs)|[(_ & _ & Hs)|[(_ & _ & err & _ & Hs)
                   |[(_ & _ & cfg & err & _ & _ & Hs)
                    |(_ & _ & cfg & ip & err & w1 & tr & http & _ & _ & _ & Hs)]]]];
      rewrite Hs in Hst;
      repeat (destruct Hst as [<-|Hst]; [destruct Hev|]); destruct Hst.
  - destruct Hrest as (cfg & ipv4 & w1 & tr & http & ipv6 & w2 & steps6 & w3 & zs
                       & Hd & Hv & Hget & H6 & Hz & Hs).
    rewrite Hs in Hst.
    apply IPFacts.GetWithRetry_inv in Hget as [_ [Hp4 _]].
    apply detectIPv6_inv in H6 as (_ & _ & Hno6 & _ & _ & Hip6).
    pose proof (runZones_valid (os_Getenv "CF_API_TOKEN") cfg ipv4 ipv6 (Config.Zones cfg)
                  Hv w2) as (_ & _ & _ & Hu).
    rewrite Hz in Hu. cbn [snd] in Hu.
    destruct Hst as [<-|[<-|[<-|Hst]]]; try (destruct Hev; fail).
    apply in_app_iff in Hst as [Hst|Hst];
      [rewrite (Hno6 st Hst) in Hev; destruct Hev|].
    apply in_app_iff in Hst as [Hst|[<-|[]]]; [|destruct Hev].
    destruct (Hu st ev Hst Hev) as (z & fqdn & proxied & ttl & Hin & H).
    destruct H as [->|(Hne & ->)].
    + exists cfg, z, fqdn, ipv4, proxied, ttl. repeat split; try assumption.
      left. split; [reflexivity|]. now apply IPFacts.validateIP_accepts.
    + destruct Hip6 as [->|(Hen & Hp6)]; [contradiction|].
      exists cfg, z, fqdn, ipv6, proxied, ttl. repeat split; try assumption.
      right. split; [reflexivity|]. split; [now apply IPFacts.validateIP_accepts|].
      now apply String.eqb_eq.
Qed.

End Program.

Lemma main_startup_failure_witness :
  let run := ProgramScenario.run "true" ProgramScenario.noIPv4 in
  workers (snd run) = []
  /\ (forall st, In st (snd run) -> upsertsOf st = [])
  /\ (forall st req, In st (snd run) -> In (EvHTTP req) (requestsOf st) ->
        req = IP.ipRequest ipv4URL)
  /\ exists msg attrs, last (snd run) starting = Log (EvLog LevelError msg attrs).
Proof.
  apply (main_startup_failure IPScenario.background IPScenario.env IPScenario.parseIP
           (ProgramScenario.getenv "true") ProgramScenario.decodeConfig
           ProgramScenario.noIPv4).
  reflexivity.
Defined.

Lemma main_completed_witness :
  let run := ProgramScenario.run "true" ProgramScenario.noIPv6 in
  exists cfg,
    ProgramScenario.decodeConfig (ProgramScenario.getenv "true" "CF_CONFIG") = inr cfg
    /\ flat_map zoneOf (snd run) = Config.Zones cfg
    /\ last (snd run) starting = completed.
Proof.
  apply (main_completed IPScenario.background IPScenario.env IPScenario.parseIP
           (ProgramScenario.getenv "true") ProgramScenario.decodeConfig
           ProgramScenario.noIPv6).
  reflexivity.
Defined.

Lemma main_upserts_witness :
  exists cfg z fqdn ip proxied ttl,
    ProgramScenario.decodeConfig (ProgramScenario.getenv "true" "CF_CONFIG") = inr cfg
    /\ Config.validateConfig cfg = None
    /\ In z (Config.Zones cfg)
    /\ ((ProgramScenario.wwwAAAA = EvUpsert (Config.ZoneID z) fqdn "A" ip proxied ttl
         /\ IP.validateIP IPScenario.parseIP ip false = None)
        \/ (ProgramScenario.wwwAAAA = EvUpsert (Config.ZoneID z) fqdn "AAAA" ip proxied ttl
            /\ IP.validateIP IPScenario.parseIP ip true = None
            /\ ProgramScenario.getenv "true" "CF_IPV6_ENABLED" = "true")).
Proof.
  apply (main_upserts IPScenario.background IPScenario.env IPScenario.parseIP
           (ProgramScenario.getenv "true") ProgramScenario.decodeConfig
           ProgramScenario.bothFamilies ProgramScenario.zoneStep ProgramScenario.wwwAAAA).
  - vm_compute. do 5 right. left. reflexivity.
  - vm_compute. right. left. reflexivity.
Defined.

(** A failed detection of the IPv6 address is not fatal: the zones are
    processed with the IPv4 address only. *)
Example ipv6_failure_is_not_fatal :
  let run := ProgramScenario.run "true" ProgramScenario.noIPv6 in
  fst (fst run) = Exits 0
  /\ flat_map upsertsOf (snd run) = []
  /\ In (Log (EvLog LevelWarn "ipv6 detection failed after retries"
                [("error",
                  VError (Retry.nonRetryable "get IPv6"
                            (errorString "unexpected status: 503")))]))
        (snd run).
Proof. vm_compute. split; [reflexivity|]. split; [reflexivity|]. do 4 right. left. reflexivity. Qed.

End ProgramFacts.
